(** * American Monte Carlo multi-leg engine: a shallow embedding

    This development embeds the regression-based multi-leg engine of
    [QuantExt/qle/pricingengines/mcmultilegbaseengine.cpp]:

    - [createCashflowInfo], the cash-flow classifier,
    - [calculate], the backward-induction calibrator,
    - [simulatePath], the forward replay calculator,

    and states the properties of these three functions, of
    [cashflowPathValue], which evaluates the descriptors, and of
    [CamAmcFxForwardEngineBuilder::engineImpl]
    ([OREData/ored/portfolio/builders/fxforward.cpp]), which sets up the
    model and the external model indices of such an engine.

    Conventions.  A C++ [Real] (a double) is an abstract type carrying the
    operations the engine uses ([RealOps]); the theorems hold for every
    interpretation of these operations, and the few order laws a theorem
    needs are listed in [RealLaws].  A [std::set<Real>] is the list of its
    elements in iteration order.  A [QL_REQUIRE] / [QL_FAIL] is a [Fail]
    outcome; an access outside a container ([operator[]] out of range) and
    a read through a pointer that may dangle are the [Undefined] failure.  The member [exercised_] of the calculator,
    which survives between two calls, is threaded explicitly: it is an
    argument of [simulatePath] and part of its outcome.  A failed call has no
    outcome, so what it leaves in [exercised_] is not modelled. *)

From Stdlib Require Import QArith String.
From stdpp Require Import base list sorting.

Set Default Proof Using "Type".

(** ** Part I: definitions *)

(** *** Numbers *)

Class RealOps (Real : Type) := {
  rzero : Real;                       (* 0.0 *)
  rone : Real;                        (* 1.0 *)
  r1Em10 : Real;                      (* the literal 1E-10 *)
  radd : Real -> Real -> Real;
  rsub : Real -> Real -> Real;
  rmul : Real -> Real -> Real;
  rdiv : Real -> Real -> Real;
  ropp : Real -> Real;
  rexp : Real -> Real;                (* std::exp *)
  rltb : Real -> Real -> bool;        (* operator< *)
  rleb : Real -> Real -> bool;        (* operator<= *)
  reqb : Real -> Real -> bool;        (* operator== *)
}.

(** The order laws used by the theorems below.  They hold for the rationals
    and for every floating-point comparison on numbers that are not NaN. *)
Class RealLaws (Real : Type) `{RealOps Real} : Prop := {
  rleb_refl : forall x : Real, rleb x x = true;
  rltb_rleb : forall x y : Real, rltb x y = true -> rleb x y = true;
  rltb_trans : forall x y z : Real, rltb x y = true -> rltb y z = true -> rltb x z = true;
}.

Section Numbers.
Context {Real : Type} `{RealOps Real}.

(** [operator>] *)
Definition rgtb (x y : Real) : bool := rltb y x.

(** [std::max(a, b)], which is [(a < b) ? b : a] *)
Definition rmax (a b : Real) : Real := if rltb a b then b else a.

(** equivalence of keys in a [std::set<Real>]: neither is less *)
Definition requiv (a b : Real) : bool := negb (rltb a b) && negb (rltb b a).
End Numbers.

(** *** Outcomes of fallible code *)

Inductive error : Type :=
  | RequireFailed (msg : string)              (* QL_REQUIRE / QL_FAIL *)
  | AccrualStartNotBeforePay (legNo cfNo : nat)
  | UnhandledCoupon (legNo cfNo : nat)
  | OutOfRange                                (* std::vector::at *)
  | Undefined.                  (* operator[] outside the container, dangling pointer *)

Inductive outcome (A : Type) : Type :=
  | Ok (a : A)
  | Fail (e : error).
Arguments Ok {A} a.
Arguments Fail {A} e.
Arguments RequireFailed msg%_string.

#[global] Instance outcome_ret : MRet outcome := fun A a => Ok a.
#[global] Instance outcome_bind : MBind outcome := fun A B f m =>
  match m with
  | Ok a => f a
  | Fail e => Fail e
  end.

Definition require (b : bool) (msg : string) : outcome unit :=
  if b then Ok tt else Fail (RequireFailed msg).
Arguments require b msg%_string.

(** [v[i]] on a vector: undefined outside the vector *)
Definition index {A : Type} (v : list A) (i : nat) : outcome A :=
  match v !! i with
  | Some a => Ok a
  | None => Fail Undefined
  end.

(** [v.at(i)] on a vector: throws outside the vector *)
Definition at_ {A : Type} (v : list A) (i : nat) : outcome A :=
  match v !! i with
  | Some a => Ok a
  | None => Fail OutOfRange
  end.

(** [v[i] = x] on a vector *)
Definition assign {A : Type} (v : list A) (i : nat) (x : A) : outcome (list A) :=
  if decide (i < length v) then Ok (<[i := x]> v) else Fail Undefined.

(** a loop over a container whose body can fail, threading a state *)
Fixpoint foldM {A S : Type} (f : S -> A -> outcome S) (l : list A) (s : S) : outcome S :=
  match l with
  | [] => Ok s
  | a :: l' => s' ← f s a; foldM f l' s'
  end.

Fixpoint mapM_outcome {A B : Type} (f : A -> outcome B) (l : list A) : outcome (list B) :=
  match l with
  | [] => Ok []
  | a :: l' => b ← f a; bs ← mapM_outcome f l'; Ok (b :: bs)
  end.

(** *** Batched sample vectors *)

(** Modelled from the spec: [RandomVariable] and [Filter] (declared in
    [qle/math/randomvariable.hpp], which is not part of the sources at
    hand) are fixed-length arrays with one entry per Monte Carlo path, and
    "all arithmetic (sum, product, comparison, conditional select) is
    elementwise across paths".  The class checks that the operands of an
    operation have the same size; the model pairs the entries up to the
    shorter operand. *)
Abbreviation RandomVariable Real := (list Real) (only parsing).
Abbreviation Array Real := (list Real) (only parsing).
Abbreviation Filter := (list bool) (only parsing).

Section RandomVariables.
Context {Real : Type} `{RealOps Real}.

(** [RandomVariable(n, x)] *)
Definition rv (n : nat) (x : Real) : RandomVariable Real := replicate n x.
(** [Filter(n, b)] *)
Definition filter_const (n : nat) (b : bool) : Filter := replicate n b.

Definition rv_add (x y : RandomVariable Real) : RandomVariable Real := zip_with radd x y.
Definition rv_sub (x y : RandomVariable Real) : RandomVariable Real := zip_with rsub x y.
Definition rv_mul (x y : RandomVariable Real) : RandomVariable Real := zip_with rmul x y.
Definition rv_div (x y : RandomVariable Real) : RandomVariable Real := zip_with rdiv x y.
Definition rv_exp (x : RandomVariable Real) : RandomVariable Real := map rexp x.
Definition rv_max (x y : RandomVariable Real) : RandomVariable Real := zip_with rmax x y.
Definition rv_gt (x y : RandomVariable Real) : Filter := zip_with rgtb x y.

Definition filter_not (f : Filter) : Filter := map negb f.
Definition filter_and (f g : Filter) : Filter := zip_with andb f g.
Definition filter_or (f g : Filter) : Filter := zip_with orb f g.

(** [conditionalResult(f, x, y)]: [x] where [f] holds, else [y] *)
Definition conditionalResult (f : Filter) (x y : RandomVariable Real) : RandomVariable Real :=
  zip_with (fun (b : bool) (xy : Real * Real) => if b then xy.1 else xy.2) f (zip x y).

(** [applyInverseFilter(x, f)]: zero where [f] holds, else [x] *)
Definition applyInverseFilter (x : RandomVariable Real) (f : Filter) : RandomVariable Real :=
  zip_with (fun (v : Real) (b : bool) => if b then rzero else v) x f.
End RandomVariables.

(** *** Ordered sets of times *)

(** A [std::set<Real>] is kept as the list of its elements in increasing
    order; [None] stands for the [end()] iterator and [Some i] for the
    iterator at distance [i] from [begin()]. *)
Section Sets.
Context {Real : Type} `{RealOps Real}.

(** [s.find(t)], as a distance from [s.begin()] *)
Fixpoint set_find (t : Real) (s : list Real) : option nat :=
  match s with
  | [] => None
  | x :: s' => if requiv x t then Some 0 else S <$> set_find t s'
  end.

Definition set_mem (t : Real) (s : list Real) : bool :=
  match set_find t s with Some _ => true | None => false end.

(** [std::lower_bound(s.begin(), s.end(), t)]: the first element that is
    not less than [t] *)
Fixpoint lower_bound (s : list Real) (t : Real) : option nat :=
  match s with
  | [] => None
  | x :: s' => if rltb x t then S <$> lower_bound s' t else Some 0
  end.

(** [s.insert(t)] *)
Fixpoint set_insert (t : Real) (s : list Real) : list Real :=
  match s with
  | [] => [t]
  | x :: s' =>
      if rltb t x then t :: s
      else if rltb x t then x :: set_insert t s'
      else s
  end.

(** [s.insert(first, last)] *)
Definition set_insert_all (ts : list Real) (s : list Real) : list Real :=
  foldl (fun acc t => set_insert t acc) s ts.

(** [s.erase(t)] *)
Definition set_erase (t : Real) (s : list Real) : list Real :=
  filter (fun x => requiv x t = false) s.

(** the invariant of a [std::set]: strictly increasing *)
Fixpoint set_sorted (s : list Real) : bool :=
  match s with
  | [] => true
  | x :: s' => match s' with [] => true | y :: _ => rltb x y && set_sorted s' end
  end.
End Sets.

(** *** The regression engine *)

(** The regression engine ([regressionCoefficients], [conditionalExpectation]
    and [expectation] of [qle/math/randomvariable.hpp]) is a collaborator of
    the engine; it is taken as given. *)
Class Regression (Real : Type) `{RealOps Real} := {
  (* regressionCoefficients(target, regressor, basisFns, filter) *)
  regressionCoefficients :
    RandomVariable Real -> list (RandomVariable Real) ->
    list (list (RandomVariable Real) -> RandomVariable Real) ->
    option Filter -> Array Real;
  (* conditionalExpectation(regressor, basisFns, coefficients) *)
  conditionalExpectation :
    list (RandomVariable Real) -> list (list (RandomVariable Real) -> RandomVariable Real) ->
    Array Real -> RandomVariable Real;
  (* expectation(x) *)
  expectation : RandomVariable Real -> RandomVariable Real;
}.

(** *** The forward replay calculator *)

Inductive SettlementType : Type := Physical | Cash.

Section AmcCalculator.
Context {Real : Type} `{Regression Real}.

(** the members of [MultiLegBaseAmcCalculator] set by its constructor *)
Record MultiLegBaseAmcCalculator : Type := {
  externalModelIndices_ : list nat;
  settlement_ : SettlementType;
  exerciseXvaTimes_ : list Real;
  exerciseTimes_ : list Real;
  xvaTimes_ : list Real;
  coeffsUndDirty_ : list (Array Real);
  coeffsUndExInto_ : list (Array Real);
  coeffsContinuationValue_ : list (Array Real);
  coeffsOption_ : list (Array Real);
  basisFns_ : list (list (RandomVariable Real) -> RandomVariable Real);
  resultValue_ : Real;
  initialState_ : Array Real;
}.

Variable calc : MultiLegBaseAmcCalculator.

(** the loop over the input path times: collects [simTimes] and the rows
    of [effPaths] that get filled *)
Definition gatherStep (pathTimes : list Real) (paths : list (list (RandomVariable Real)))
    (isRelevantTime : list bool) (stickyCloseOutRun : bool)
    (st : list Real * list (list (RandomVariable Real))) (i : nat)
    : outcome (list Real * list (list (RandomVariable Real))) :=
  let '(simTimes, effPaths) := st in
  relevant ← index isRelevantTime i;
  if relevant : bool then
    _ ← require (negb (stickyCloseOutRun && (i =? 0)%nat))
          "MultiLegBaseAmcCalculator: sticky close out run time index is negative - internal error.";
    let ind := if stickyCloseOutRun then (i - 1)%nat else i in
    t ← index pathTimes ind;
    row ← mapM_outcome
             (fun k => _ ← (if decide (length effPaths < length (xvaTimes_ calc))
                            then Ok tt else Fail Undefined);
                       p ← index paths i; index p k)
             (externalModelIndices_ calc);
    Ok (simTimes ++ [t], effPaths ++ [row])
  else Ok st.

(** the branch taken when there are no exercise times *)
Definition dirtyStep (effPaths : list (list (RandomVariable Real)))
    (st : nat * list (RandomVariable Real)) (t : Real)
    : outcome (nat * list (RandomVariable Real)) :=
  let '(counter, result) := st in
  match set_find t (exerciseXvaTimes_ calc) with
  | None => Fail (RequireFailed
      "MultiLegBaseAmcCalculator::simulatePath(): internal error, xva time not found in exerciseXvaTimes vector.")
  | Some ind =>
      eff ← index effPaths counter;
      coeffs ← index (coeffsUndDirty_ calc) ind;
      result' ← assign result (counter + 1)
                  (conditionalExpectation eff (basisFns_ calc) coeffs);
      Ok ((counter + 1)%nat, result')
  end.

(** the state interpolated to the exercise time [t] between the states at
    [time1] and [time2] *)
Definition interpolate (samples : nat) (t time1 time2 : Real)
    (s1 s2 : list (RandomVariable Real)) : outcome (list (RandomVariable Real)) :=
  mapM_outcome
    (fun j =>
       let alpha1 := rv samples (rdiv (rsub time2 t) (rsub time2 time1)) in
       let alpha2 := rv samples (rdiv (rsub t time1) (rsub time2 time1)) in
       s1j ← index s1 j;
       s2j ← index s2 j;
       Ok (rv_add (rv_mul alpha1 s1j) (rv_mul alpha2 s2j)))
    (seq 0 (length (externalModelIndices_ calc))).

(** [initialStatePointer]: the pointers taken to the elements of
    [initialState] while that vector grows by [push_back].  The vector is
    not reserved, so that a later [push_back] may move it and leave the
    pointers taken before dangling: only the pointer to the last element is
    sure to point to its element.  [None] is a pointer that may dangle. *)
Definition initialStatePointer (initialState : list (RandomVariable Real))
    : list (option (RandomVariable Real)) :=
  imap (fun j x => if decide (S j = length initialState) then Some x else None)
       initialState.

(** the states read through a vector of pointers; a read through a pointer
    that may dangle is undefined *)
Definition dereference (pointers : list (option (RandomVariable Real)))
    : outcome (list (RandomVariable Real)) :=
  mapM_outcome (fun pointer : option (RandomVariable Real) =>
                  match pointer with
                  | Some x => Ok x
                  | None => Fail Undefined
                  end)
               pointers.

(** the loop over the exercise times that fills [exercised_]; it is left
    (the [break]) at the first exercise time after the last xva time.  The
    interpolation reads every state of [s1]: where [s1] is
    [initialStatePointer], these are reads through its pointers. *)
Fixpoint exerciseLoop (samples : nat) (effPaths : list (list (RandomVariable Real)))
    (initialState : list (RandomVariable Real))
    (ts : list Real) (counter : nat) (exercised : list Filter) : outcome (list Filter) :=
  match ts with
  | [] => Ok exercised
  | t :: ts' =>
      match set_find t (exerciseXvaTimes_ calc) with
      | None => Fail (RequireFailed
          "MultiLegBaseAmcCalculator::simulatePath(): internal error, exercise time not found in exerciseXvaTimes vector.")
      | Some ind =>
          match lower_bound (xvaTimes_ calc) t with
          | None => Ok exercised
          | Some k2 =>
              time2 ← index (xvaTimes_ calc) k2;
              s2 ← index effPaths k2;
              '(time1, s1) ← match k2 with
                             | O =>
                                 s1 ← dereference (initialStatePointer initialState);
                                 Ok (rzero, s1)
                             | S k1 =>
                                 time1 ← index (xvaTimes_ calc) k1;
                                 s1 ← index effPaths k1;
                                 Ok (time1, s1)
                             end;
              sp ← interpolate samples t time1 time2 s1 s2;
              cEx ← index (coeffsUndExInto_ calc) ind;
              cCont ← index (coeffsContinuationValue_ calc) ind;
              let exerciseValue := conditionalExpectation sp (basisFns_ calc) cEx in
              let continuationValue := conditionalExpectation sp (basisFns_ calc) cCont in
              prev ← index exercised counter;
              exercised' ← assign exercised (counter + 1)
                (filter_and
                   (filter_and (filter_not prev) (rv_gt exerciseValue continuationValue))
                   (rv_gt exerciseValue (rv samples rzero)));
              exerciseLoop samples effPaths initialState ts' (counter + 1)%nat exercised'
          end
      end
  end.

(** the local variables of the loop that populates the result *)
Record ReplayState : Type := {
  counter : nat;
  xvaCounter : nat;
  exerciseCounter : nat;
  cashExerciseValueWasAccountedForOnXvaTime : Filter;
  wasExercised : Filter;
  result : list (RandomVariable Real);
}.

Definition replayStep (samples : nat) (effPaths : list (list (RandomVariable Real)))
    (exercised : list Filter) (st : ReplayState) (t : Real) : outcome ReplayState :=
  '(exerciseCounter1, wasExercised1) ←
    (if set_mem t (exerciseTimes_ calc) then
       e ← index exercised (exerciseCounter st + 1);
       Ok ((exerciseCounter st + 1)%nat, filter_or (wasExercised st) e)
     else Ok (exerciseCounter st, wasExercised st));
  if set_mem t (xvaTimes_ calc) then
    eff ← index effPaths (xvaCounter st);
    cOption ← index (coeffsOption_ calc) (counter st);
    let optionValue := conditionalExpectation eff (basisFns_ calc) cOption in
    e ← index exercised exerciseCounter1;
    cExInto ← index (coeffsUndExInto_ calc) (counter st);
    cDirty ← index (coeffsUndDirty_ calc) (counter st);
    let exercisedValue :=
      conditionalResult e (conditionalExpectation eff (basisFns_ calc) cExInto)
                          (conditionalExpectation eff (basisFns_ calc) cDirty) in
    let '(exercisedValue', accounted') :=
      match settlement_ calc with
      | Cash => (applyInverseFilter exercisedValue (cashExerciseValueWasAccountedForOnXvaTime st),
                 filter_or (cashExerciseValueWasAccountedForOnXvaTime st) wasExercised1)
      | Physical => (exercisedValue, cashExerciseValueWasAccountedForOnXvaTime st)
      end in
    result' ← assign (result st) (xvaCounter st + 1)
                (rv_max (rv samples rzero)
                        (conditionalResult wasExercised1 exercisedValue' optionValue));
    Ok {| counter := counter st + 1; xvaCounter := xvaCounter st + 1;
          exerciseCounter := exerciseCounter1;
          cashExerciseValueWasAccountedForOnXvaTime := accounted';
          wasExercised := wasExercised1; result := result' |}
  else
    Ok {| counter := counter st + 1; xvaCounter := xvaCounter st;
          exerciseCounter := exerciseCounter1;
          cashExerciseValueWasAccountedForOnXvaTime :=
            cashExerciseValueWasAccountedForOnXvaTime st;
          wasExercised := wasExercised1; result := result st |}.

(** what the first part of [simulatePath] sets up *)
Record Prologue : Type := {
  effPaths : list (list (RandomVariable Real));
  samples : nat;
  result0 : list (RandomVariable Real);
  initialState : list (RandomVariable Real);
}.

(** the first part of [simulatePath]: the checks of the input, [effPaths],
    the initial [result] and the initial state *)
Definition prologue (pathTimes : list Real) (paths : list (list (RandomVariable Real)))
    (isRelevantTime : list bool) (stickyCloseOutRun : bool) : outcome Prologue :=
  _ ← require (match paths with [] => false | _ => true end)
        "MultiLegBaseAmcCalculator::simulatePath(): no future path times, this is not allowed.";
  _ ← require (length pathTimes =? length paths)%nat
        "MultiLegBaseAmcCalculator::simulatePath(): inconsistent pathTimes size and paths size - internal error.";
  '(simTimes, effPaths) ←
    foldM (gatherStep pathTimes paths isRelevantTime stickyCloseOutRun)
          (seq 0 (length pathTimes)) ([], []);
  _ ← require (length simTimes =? length (xvaTimes_ calc))%nat
        "MultiLegBaseAmcCalculator::simulatePath(): unexpected input path size";
  front ← index paths 0;
  frontFront ← index front 0;
  let samples := length frontFront in
  let result0 := <[0 := rv samples (resultValue_ calc)]>
                   (replicate (length simTimes + 1) (rv samples rzero)) in
  initialState ← mapM_outcome
                   (fun j => x ← index (initialState_ calc) j; Ok (rv samples x))
                   (seq 0 (length (externalModelIndices_ calc)));
  Ok {| effPaths := effPaths; samples := samples; result0 := result0;
        initialState := initialState |}.

(** the exercise indicators used by a run: computed afresh, or those of
    the last run when the run is sticky *)
Definition indicators (p : Prologue) (exercised_ : list Filter) (stickyCloseOutRun : bool)
    : outcome (list Filter) :=
  if stickyCloseOutRun then Ok exercised_
  else exerciseLoop (samples p) (effPaths p) (initialState p) (exerciseTimes_ calc) 0
         (replicate (length (exerciseTimes_ calc) + 1) (filter_const (samples p) false)).

(** the state in which the loop that populates the result starts *)
Definition replayStart (p : Prologue) : ReplayState :=
  {| counter := 0; xvaCounter := 0; exerciseCounter := 0;
     cashExerciseValueWasAccountedForOnXvaTime := filter_const (samples p) false;
     wasExercised := filter_const (samples p) false;
     result := result0 p |}.

(** the loop that populates the result *)
Definition populate (p : Prologue) (exercised : list Filter) (ts : list Real)
    : outcome ReplayState :=
  foldM (replayStep (samples p) (effPaths p) exercised) ts (replayStart p).

(** [MultiLegBaseAmcCalculator::simulatePath].  The first argument is the
    member [exercised_] before the call; the outcome pairs the returned
    vector with [exercised_] after the call. *)
Definition simulatePath (exercised_ : list Filter)
    (pathTimes : list Real) (paths : list (list (RandomVariable Real)))
    (isRelevantTime : list bool) (stickyCloseOutRun : bool)
    : outcome (list (RandomVariable Real) * list Filter) :=
  p ← prologue pathTimes paths isRelevantTime stickyCloseOutRun;
  match exerciseTimes_ calc with
  | [] =>
      '(_, result') ← foldM (dirtyStep (effPaths p)) (xvaTimes_ calc) (0%nat, result0 p);
      Ok (result', exercised_)
  | _ :: _ =>
      exercised ← indicators p exercised_ stickyCloseOutRun;
      st ← populate p exercised (exerciseXvaTimes_ calc);
      Ok (result st, exercised)
  end.
End AmcCalculator.
Arguments MultiLegBaseAmcCalculator Real : clear implicits.
Arguments Prologue Real : clear implicits.
Arguments ReplayState Real : clear implicits.

(** *** Cash flows *)

Definition Date : Type := Z.
Definition Currency : Type := string.

(** The floating coupon classes the classifier ends on. *)
Inductive CouponKind : Type :=
  | IborCoupon
  | CmsCoupon
  | OvernightIndexedCoupon
  | CappedFlooredOvernightIndexedCoupon
  | AverageONIndexedCoupon
  | CappedFlooredAverageONIndexedCoupon
  | AverageBMACoupon
  | CappedFlooredAverageBMACoupon
  | SubPeriodsCoupon1.

Section CashFlows.
Context {Real : Type}.

(** What the classifier reads from a coupon of one of the kinds above.
    [fixingDate] is [fixingDate()] for an Ibor or CMS coupon and the first
    value date, respectively the first fixing date, for the other kinds;
    [nominal] and [accrualPeriod] are the ones the amount is built from;
    [terms] stands for the remaining contractual terms (index, schedule,
    cap and floor of the overnight kinds), which only the rate functions
    of the model read. *)
Record FloatingRateCoupon : Type := {
  kind : CouponKind;
  date : Date;
  accrualStartDate : Date;
  fixingDate : Date;
  rate : Real;
  spread : Real;
  gearing : Real;
  indexCurrency : Currency;
  nominal : Real;
  accrualPeriod : Real;
  terms : nat;
}.

(** A cash flow, by the most derived class that the chain of
    [dynamic_pointer_cast]s of the classifier can tell apart.
    [OtherCoupon] is any other class derived from [Coupon], and
    [OtherCashFlow] any other class derived from [CashFlow]. *)
Inductive CashFlow : Type :=
  | FixedRateCoupon (payDate start : Date) (amount : Real)
  | SimpleCashFlow (payDate : Date) (amount : Real)
  | FXLinkedCashFlow (payDate fxFixingDate : Date) (sourceCurrency targetCurrency : Currency)
      (amount foreignAmount : Real)
  | FloatingRateFXLinkedNotionalCoupon (payDate start fxFixingDate : Date)
      (sourceCurrency targetCurrency : Currency) (fxFixing foreignAmount : Real)
      (underlying : CashFlow)
  | StrippedCappedFlooredCoupon (payDate start : Date) (underlying : CashFlow)
  | CappedFlooredCoupon (payDate start : Date) (effectiveCap effectiveFloor : option Real)
      (underlying : CashFlow)
  | FloatingCoupon (c : FloatingRateCoupon)
  | OtherCoupon (payDate start : Date)
  | OtherCashFlow (payDate : Date).

(** [flow->date()] *)
Definition flowDate (flow : CashFlow) : Date :=
  match flow with
  | FixedRateCoupon d _ _ | SimpleCashFlow d _ | FXLinkedCashFlow d _ _ _ _ _
  | FloatingRateFXLinkedNotionalCoupon d _ _ _ _ _ _ _
  | StrippedCappedFlooredCoupon d _ _ | CappedFlooredCoupon d _ _ _ _
  | OtherCoupon d _ | OtherCashFlow d => d
  | FloatingCoupon c => date c
  end.

(** [boost::dynamic_pointer_cast<Coupon>(flow)], giving the accrual start
    date of the coupon *)
Definition asCoupon (flow : CashFlow) : option Date :=
  match flow with
  | FixedRateCoupon _ s _ | FloatingRateFXLinkedNotionalCoupon _ s _ _ _ _ _ _
  | StrippedCappedFlooredCoupon _ s _ | CappedFlooredCoupon _ s _ _ _
  | OtherCoupon _ s => Some s
  | FloatingCoupon c => Some (accrualStartDate c)
  | SimpleCashFlow _ _ | FXLinkedCashFlow _ _ _ _ _ _ | OtherCashFlow _ => None
  end.

(** The flow left when the wrappers are taken off: at most one
    FX-linked-notional wrapper, then at most one stripped wrapper, then at
    most one cap and floor wrapper. *)
Definition residualFlow (flow : CashFlow) : CashFlow :=
  let flow1 := match flow with
               | FloatingRateFXLinkedNotionalCoupon _ _ _ _ _ _ _ und => und
               | _ => flow
               end in
  let flow2 := match flow1 with
               | StrippedCappedFlooredCoupon _ _ und => und
               | _ => flow1
               end in
  match flow2 with
  | CappedFlooredCoupon _ _ _ _ und => und
  | _ => flow2
  end.

(** The supported shapes: a fixed rate coupon, a simple cash flow, an FX
    linked cash flow, or a flow that, with its wrappers taken off, is a
    coupon of one of the kinds of [CouponKind]. *)
Definition supportedShape (flow : CashFlow) : bool :=
  match flow with
  | FixedRateCoupon _ _ _ | SimpleCashFlow _ _ | FXLinkedCashFlow _ _ _ _ _ _ => true
  | _ => match residualFlow flow with
         | FloatingCoupon _ => true
         | _ => false
         end
  end.
End CashFlows.
Arguments FloatingRateCoupon Real : clear implicits.
Arguments CashFlow Real : clear implicits.

(** *** The model *)

Inductive AssetType : Type := IR | FX.

(** What the engine asks of the cross asset model, of its state process and
    path generator and of the vectorised LGM rate functions.  All of them
    are collaborators outside the engine. *)
Class CrossAssetModel (Real : Type) `{RealOps Real} := {
  (* model_->irlgm1f(0)->termStructure()->referenceDate() *)
  referenceDate : Date;
  (* model_->irlgm1f(0)->termStructure()->timeFromReference(d) *)
  timeFromReference : Date -> Real;
  ccyIndex : Currency -> nat;
  pIdx : AssetType -> nat -> nat;
  (* model_->stateProcess()->size() and ->initialValues() *)
  stateProcessSize : nat;
  initialValues : list Real;
  (* model_->numeraire(0, 0.0, 0.0, discountCurves_[0]) *)
  numeraire0 : Real;
  (* the value path[k][j] of the i-th path drawn from the generator made for a
     time grid: samplePath grid i k j *)
  samplePath : list Real -> nat -> nat -> nat -> Real;
  (* lgmVectorised_[0].numeraire(t, x, discountCurves_[0]) *)
  lgmNumeraire : Real -> RandomVariable Real -> RandomVariable Real;
  (* lgmVectorised_[ccy].fixing(index, fixingDate, t, x) *)
  lgmFixing : nat -> FloatingRateCoupon Real -> Real -> RandomVariable Real -> RandomVariable Real;
  (* lgmVectorised_[ccy].compoundedOnRate(..., t, x) *)
  lgmCompoundedOnRate :
    nat -> FloatingRateCoupon Real -> Real -> RandomVariable Real -> RandomVariable Real;
  (* lgmVectorised_[ccy].averagedOnRate(..., t, x) *)
  lgmAveragedOnRate :
    nat -> FloatingRateCoupon Real -> Real -> RandomVariable Real -> RandomVariable Real;
  (* lgmVectorised_[ccy].averagedBmaRate(..., t, x) *)
  lgmAveragedBmaRate :
    nat -> FloatingRateCoupon Real -> Real -> RandomVariable Real -> RandomVariable Real;
  (* lgmVectorised_[ccy].subPeriodsRate(index, fixingDates, t, x) *)
  lgmSubPeriodsRate :
    nat -> FloatingRateCoupon Real -> Real -> RandomVariable Real -> RandomVariable Real;
}.

(** *** The cash-flow classifier *)

Section Classifier.
Context {Real : Type} `{CrossAssetModel Real}.

(** [McMultiLegBaseEngine::time] *)
Definition time (d : Date) : Real := timeFromReference d.

(** [today_] *)
Definition today_ : Date := referenceDate.

(** the struct [CashflowInfo] *)
Record CashflowInfo : Type := {
  legNo : nat;
  cfNo : nat;
  payTime : Real;
  payCcyIndex : nat;
  payer : Real;
  exIntoCriterionTime : Real;
  simulationTimes : list Real;
  modelIndices : list (list nat);
  amountCalculator : nat -> list (list (RandomVariable Real)) -> outcome (RandomVariable Real);
}.

Definition tinyTime : Real := r1Em10.

(** the data taken from the wrappers around a coupon; [None] is
    [Null<Real>()] *)
Record Wrappers : Type := {
  isCapFloored : bool;
  isNakedOption : bool;
  effCap : option Real;
  effFloor : option Real;
  isFxLinked : bool;
  fxLinkedForeignNominal : option Real;
  fxLinkedSourceCcyIdx : nat;
  fxLinkedTargetCcyIdx : nat;
  fxLinkedFixedFxRate : option Real;
  fxLinkedSimTime : option Real;
  fxLinkedModelIndices : list nat;
}.

Definition noWrappers : Wrappers :=
  {| isCapFloored := false; isNakedOption := false; effCap := None; effFloor := None;
     isFxLinked := false; fxLinkedForeignNominal := None;
     fxLinkedSourceCcyIdx := 0; fxLinkedTargetCcyIdx := 0;
     fxLinkedFixedFxRate := None; fxLinkedSimTime := None; fxLinkedModelIndices := [] |}.

(** the model indices of the FX states of a source and a target currency *)
Definition fxModelIndices (sourceCcyIdx targetCcyIdx : nat) : list nat :=
  (if (0 <? sourceCcyIdx)%nat then [pIdx FX (sourceCcyIdx - 1)] else []) ++
  (if (0 <? targetCcyIdx)%nat then [pIdx FX (targetCcyIdx - 1)] else []).

(** [fxSource] and [fxTarget] read from [states.at(pos)] *)
Definition simulatedFxRates (n : nat) (sourceCcyIdx targetCcyIdx : nat) (pos : nat)
    (states : list (list (RandomVariable Real)))
    : outcome (RandomVariable Real * RandomVariable Real) :=
  fxSource ← (if (0 <? sourceCcyIdx)%nat
              then st ← at_ states pos; x ← at_ st 0; Ok (rv_exp x)
              else Ok (rv n rone));
  fxTarget ← (if (0 <? targetCcyIdx)%nat
              then st ← at_ states pos;
                   x ← at_ st (if (0 <? sourceCcyIdx)%nat then 1 else 0);
                   Ok (rv_exp x)
              else Ok (rv n rone));
  Ok (fxSource, fxTarget).

(** [fxSource / fxTarget] *)
Definition simulatedFx (n : nat) (sourceCcyIdx targetCcyIdx : nat) (pos : nat)
    (states : list (list (RandomVariable Real))) : outcome (RandomVariable Real) :=
  fx ← simulatedFxRates n sourceCcyIdx targetCcyIdx pos states;
  Ok (rv_div fx.1 fx.2).

(** the factor [fxFixing] of the coupon amounts *)
Definition fxFixingOf (w : Wrappers) (n : nat)
    (states : list (list (RandomVariable Real))) : outcome (RandomVariable Real) :=
  if isFxLinked w then
    match fxLinkedFixedFxRate w with
    | Some r => Ok (rv n r)
    | None => simulatedFx n (fxLinkedSourceCcyIdx w) (fxLinkedTargetCcyIdx w) 1 states
    end
  else Ok (rv n rone).

(** the rate of an Ibor or CMS coupon, with the cap and the floor *)
Definition effectiveRateOf (w : Wrappers) (n : nat) (c : FloatingRateCoupon Real)
    (fixing : RandomVariable Real) : RandomVariable Real :=
  if isCapFloored w then
    let swapletRate :=
      if isNakedOption w then rv n rzero
      else rv_add (rv_mul (rv n (gearing c)) fixing) (rv n (spread c)) in
    let floorletRate :=
      match effFloor w with
      | Some f => rv_mul (rv n (gearing c)) (rv_max (rv_sub (rv n f) fixing) (rv n rzero))
      | None => rv n rzero
      end in
    let capletRate :=
      match effCap w with
      | Some cap =>
          rv_mul (rv_mul (rv n (gearing c)) (rv_max (rv_sub fixing (rv n cap)) (rv n rzero)))
                 (rv n (if isNakedOption w && negb (bool_decide (is_Some (effFloor w)))
                        then ropp rone else rone))
      | None => rv n rzero
      end in
    rv_sub (rv_add swapletRate floorletRate) capletRate
  else rv_add (rv_mul (rv n (gearing c)) fixing) (rv n (spread c)).

(** the nominal the amount is built from *)
Definition nominalOf (w : Wrappers) (c : FloatingRateCoupon Real) : Real :=
  if isFxLinked w then default (nominal c) (fxLinkedForeignNominal w) else nominal c.

(** the first wrapper: [FloatingRateFXLinkedNotionalCoupon] *)
Definition unwrapFxLinked (flow : CashFlow Real) (w : Wrappers) : CashFlow Real * Wrappers :=
  match flow with
  | FloatingRateFXLinkedNotionalCoupon _ _ fxFixingDate src tgt fxFixing foreignAmount und =>
      let s := ccyIndex src in
      let t := ccyIndex tgt in
      let fixed := bool_decide (fxFixingDate <= today_)%Z in
      (und,
       {| isCapFloored := isCapFloored w; isNakedOption := isNakedOption w;
          effCap := effCap w; effFloor := effFloor w;
          isFxLinked := true; fxLinkedForeignNominal := Some foreignAmount;
          fxLinkedSourceCcyIdx := s; fxLinkedTargetCcyIdx := t;
          fxLinkedFixedFxRate := if fixed then Some fxFixing else None;
          fxLinkedSimTime := if fixed then None else Some (time fxFixingDate);
          fxLinkedModelIndices := if fixed then [] else fxModelIndices s t |})
  | _ => (flow, w)
  end.

(** the second wrapper: [StrippedCappedFlooredCoupon] *)
Definition unwrapStripped (flow : CashFlow Real) (w : Wrappers) : CashFlow Real * Wrappers :=
  match flow with
  | StrippedCappedFlooredCoupon _ _ und =>
      (und,
       {| isCapFloored := isCapFloored w; isNakedOption := true;
          effCap := effCap w; effFloor := effFloor w;
          isFxLinked := isFxLinked w; fxLinkedForeignNominal := fxLinkedForeignNominal w;
          fxLinkedSourceCcyIdx := fxLinkedSourceCcyIdx w;
          fxLinkedTargetCcyIdx := fxLinkedTargetCcyIdx w;
          fxLinkedFixedFxRate := fxLinkedFixedFxRate w;
          fxLinkedSimTime := fxLinkedSimTime w;
          fxLinkedModelIndices := fxLinkedModelIndices w |})
  | _ => (flow, w)
  end.

(** the third wrapper: [CappedFlooredCoupon] *)
Definition unwrapCapFloored (flow : CashFlow Real) (w : Wrappers) : CashFlow Real * Wrappers :=
  match flow with
  | CappedFlooredCoupon _ _ cap floor und =>
      (und,
       {| isCapFloored := true; isNakedOption := isNakedOption w;
          effCap := cap; effFloor := floor;
          isFxLinked := isFxLinked w; fxLinkedForeignNominal := fxLinkedForeignNominal w;
          fxLinkedSourceCcyIdx := fxLinkedSourceCcyIdx w;
          fxLinkedTargetCcyIdx := fxLinkedTargetCcyIdx w;
          fxLinkedFixedFxRate := fxLinkedFixedFxRate w;
          fxLinkedSimTime := fxLinkedSimTime w;
          fxLinkedModelIndices := fxLinkedModelIndices w |})
  | _ => (flow, w)
  end.

(** the three wrappers, in the order they are taken off *)
Definition unwrap (flow : CashFlow Real) : CashFlow Real * Wrappers :=
  let '(flow1, w1) := unwrapFxLinked flow noWrappers in
  let '(flow2, w2) := unwrapStripped flow1 w1 in
  unwrapCapFloored flow2 w2.

(** the simulation times and model indices declared by a coupon whose rate
    is observed at [simTime] when [needed], followed by those of the FX
    fixing *)
Definition declareTimes (w : Wrappers) (needed : bool) (simTime : Real) (indexCcyIdx : nat)
    : list Real * list (list nat) :=
  let own := if needed then [(simTime, [pIdx IR indexCcyIdx])] else [] in
  let fx := match fxLinkedSimTime w with
            | Some t => [(t, fxLinkedModelIndices w)]
            | None => []
            end in
  ((own ++ fx).*1, (own ++ fx).*2).

(** the amount function of a coupon of one of the supported kinds *)
Definition couponAmount (w : Wrappers) (c : FloatingRateCoupon Real) (indexCcyIdx : nat)
    (simTime : Real) (fixedRate : option Real)
    (n : nat) (states : list (list (RandomVariable Real))) : outcome (RandomVariable Real) :=
  effectiveRate ←
    match kind c with
    | IborCoupon | CmsCoupon =>
        fixing ← match fixedRate with
                 | Some r => Ok (rv n r)
                 | None => st ← at_ states 0; x ← at_ st 0;
                           Ok (lgmFixing indexCcyIdx c simTime x)
                 end;
        fxFixing ← fxFixingOf w n states;
        Ok (effectiveRateOf w n c fixing, fxFixing)
    | OvernightIndexedCoupon | CappedFlooredOvernightIndexedCoupon =>
        st ← at_ states 0; x ← at_ st 0;
        fxFixing ← fxFixingOf w n states;
        Ok (lgmCompoundedOnRate indexCcyIdx c simTime x, fxFixing)
    | AverageONIndexedCoupon | CappedFlooredAverageONIndexedCoupon =>
        st ← at_ states 0; x ← at_ st 0;
        fxFixing ← fxFixingOf w n states;
        Ok (lgmAveragedOnRate indexCcyIdx c simTime x, fxFixing)
    | AverageBMACoupon | CappedFlooredAverageBMACoupon =>
        st ← at_ states 0; x ← at_ st 0;
        fxFixing ← fxFixingOf w n states;
        Ok (lgmAveragedBmaRate indexCcyIdx c simTime x, fxFixing)
    | SubPeriodsCoupon1 =>
        st ← at_ states 0; x ← at_ st 0;
        fxFixing ← fxFixingOf w n states;
        Ok (lgmSubPeriodsRate indexCcyIdx c simTime x, fxFixing)
    end;
  Ok (rv_mul (rv_mul (rv n (rmul (nominalOf w c) (accrualPeriod c))) effectiveRate.1)
             effectiveRate.2).

(** [McMultiLegBaseEngine::createCashflowInfo] *)
Definition createCashflowInfo (flow : CashFlow Real) (payCcy : Currency) (payer : Real)
    (legNo cfNo : nat) : outcome CashflowInfo :=
  let payTime := time (flowDate flow) in
  exIntoCriterionTime ←
    match asCoupon flow with
    | Some start =>
        if bool_decide (start < flowDate flow)%Z
        then Ok (radd (time start) tinyTime)
        else Fail (AccrualStartNotBeforePay legNo cfNo)
    | None => Ok payTime
    end;
  let info (simulationTimes : list Real) (modelIndices : list (list nat))
           (amountCalculator :
              nat -> list (list (RandomVariable Real)) -> outcome (RandomVariable Real)) :=
    {| legNo := legNo; cfNo := cfNo; payTime := payTime; payCcyIndex := ccyIndex payCcy;
       payer := payer; exIntoCriterionTime := exIntoCriterionTime;
       simulationTimes := simulationTimes; modelIndices := modelIndices;
       amountCalculator := amountCalculator |} in
  match flow with
  | FixedRateCoupon _ _ amount | SimpleCashFlow _ amount =>
      Ok (info [] [] (fun n _ => Ok (rv n amount)))
  | FXLinkedCashFlow _ fxFixingDate src tgt amount foreignAmount =>
      let s := ccyIndex src in
      let t := ccyIndex tgt in
      if bool_decide (fxFixingDate > today_)%Z then
        Ok (info [time fxFixingDate] [fxModelIndices s t]
              (fun n states =>
                 fx ← simulatedFxRates n s t 0 states;
                 Ok (rv_div (rv_mul (rv n foreignAmount) fx.1) fx.2)))
      else Ok (info [] [] (fun n _ => Ok (rv n amount)))
  | _ =>
      let '(flow', w) := unwrap flow in
      match flow' with
      | FloatingCoupon c =>
          let indexCcyIdx := ccyIndex (indexCurrency c) in
          match kind c with
          | IborCoupon | CmsCoupon =>
              let fixed := bool_decide (fixingDate c <= today_)%Z in
              let fixedRate :=
                if fixed then Some (rdiv (rsub (rate c) (spread c)) (gearing c)) else None in
              let simTime := time (fixingDate c) in
              let '(ts, ixs) := declareTimes w (negb fixed) simTime indexCcyIdx in
              Ok (info ts ixs (couponAmount w c indexCcyIdx simTime fixedRate))
          | _ =>
              let simTime := rmax rzero (time (fixingDate c)) in
              let '(ts, ixs) := declareTimes w true simTime indexCcyIdx in
              Ok (info ts ixs (couponAmount w c indexCcyIdx simTime None))
          end
      | _ => Fail (UnhandledCoupon legNo cfNo)
      end
  end.

(** [McMultiLegBaseEngine::timeIndex] *)
Definition timeIndex (t : Real) (times : list Real) : outcome nat :=
  match set_find t times with
  | Some i => Ok i
  | None => Fail (RequireFailed
      "McMultiLegBaseEngine::cashflowPathValue(): time not found in simulation times. This is an internal error. Contact dev.")
  end.

(** [McMultiLegBaseEngine::cashflowPathValue] *)
Definition cashflowPathValue (cf : CashflowInfo)
    (pathValues : list (list (RandomVariable Real))) (simulationTimes' : list Real)
    : outcome (RandomVariable Real) :=
  front ← index pathValues 0;
  frontFront ← index front 0;
  let n := length frontFront in
  simTimesPayIdx ← timeIndex (payTime cf) simulationTimes';
  let initialValues' := map (rv n) initialValues in
  states ← mapM_outcome
    (fun i =>
       t ← index (simulationTimes cf) i;
       ixs ← index (modelIndices cf) i;
       if reqb t rzero then mapM_outcome (fun k => index initialValues' k) ixs
       else
         simTimesIdx ← timeIndex t simulationTimes';
         row ← index pathValues simTimesIdx;
         mapM_outcome (fun k => index row k) ixs)
    (seq 0 (length (simulationTimes cf)));
  amount ← amountCalculator cf n states;
  payRow ← index pathValues simTimesPayIdx;
  xIr ← index payRow (pIdx IR 0);
  let amount1 := rv_div amount (lgmNumeraire (payTime cf) xIr) in
  amount2 ← (if (0 <? payCcyIndex cf)%nat
             then xFx ← index payRow (pIdx FX (payCcyIndex cf - 1));
                  Ok (rv_mul amount1 (rv_exp xFx))
             else Ok amount1);
  Ok (rv_mul amount2 (rv n (payer cf))).
End Classifier.
Arguments CashflowInfo Real : clear implicits.

(** *** The backward-induction calibrator *)

Module McMultiLegBaseEngine.
Section Engine.
Context {Real : Type} `{RealOps Real} `{!CrossAssetModel Real} `{!Regression Real}.

(** the members of the engine read by [calculate]; [leg_], [currency_],
    [payer_], [exercise_] and [optionSettlement_] are set by the derived
    engines, and [basisFns] is the basis system
    [multiPathBasisSystem(size, polynomOrder_, polynomType_)] *)
Record t : Type := {
  calibrationSamples_ : nat;
  simulationDates_ : list Date;
  externalModelIndices_ : list nat;
  leg_ : list (list (CashFlow Real));
  currency_ : list Currency;
  payer_ : list Real;
  exercise_ : option (list Date);
  optionSettlement_ : SettlementType;
  basisFns : list (list (RandomVariable Real) -> RandomVariable Real);
}.

(** the results set by [calculate] *)
Record Results : Type := {
  resultUnderlyingNpv_ : Real;
  resultValue_ : Real;
  amcCalculator_ : MultiLegBaseAmcCalculator Real;
}.

(** [info.simulationTimes] of a [CashflowInfo] *)
Local Abbreviation infoSimulationTimes := simulationTimes.

Variable e : t.

(** the inner loop over the cash flows of one leg *)
Definition classifyLeg (legNo : nat) (currency : Currency) (payer : Real)
    (leg : list (CashFlow Real)) (cashflowInfo : list (CashflowInfo Real))
    : outcome (list (CashflowInfo Real)) :=
  '(_, cashflowInfo') ←
    foldM (fun (st : nat * list (CashflowInfo Real)) cashflow =>
             let '(cashflowNo, acc) := st in
             if bool_decide (flowDate cashflow <= today_)%Z then Ok st
             else
               info ← createCashflowInfo cashflow currency payer legNo cashflowNo;
               Ok ((cashflowNo + 1)%nat, acc ++ [info]))
          leg (0%nat, cashflowInfo);
  Ok cashflowInfo'.

(** the loop over the legs that populates [cashflowInfo] *)
Definition classifyLegs : outcome (list (CashflowInfo Real)) :=
  '(_, cashflowInfo) ←
    foldM (fun (st : nat * list (CashflowInfo Real)) leg =>
             let '(legNo, acc) := st in
             currency ← index (currency_ e) legNo;
             payer ← index (payer_ e) legNo;
             acc' ← classifyLeg legNo currency payer leg acc;
             Ok ((legNo + 1)%nat, acc'))
          (leg_ e) (0%nat, []);
  Ok cashflowInfo.

(** the time sets built by [calculate] *)
Record TimeSets : Type := {
  exerciseTimes : list Real;
  xvaTimes : list Real;
  exerciseXvaTimes : list Real;
  simulationTimes : list Real;
}.

Definition buildTimes (cashflowInfo : list (CashflowInfo Real)) : TimeSets :=
  let exerciseTimes :=
    match exercise_ e with
    | Some dates =>
        set_insert_all (map time (filter (fun d => ~ (d <= today_)%Z) dates)) []
    | None => []
    end in
  let xvaTimes := set_insert_all (map time (simulationDates_ e)) [] in
  let cashflowGenTimes :=
    set_erase rzero
      (foldl (fun acc info =>
                set_insert (payTime info)
                  (set_insert_all (infoSimulationTimes info) acc))
             [] cashflowInfo) in
  {| exerciseTimes := exerciseTimes;
     xvaTimes := xvaTimes;
     exerciseXvaTimes := set_insert_all xvaTimes (set_insert_all exerciseTimes []);
     simulationTimes :=
       set_insert_all xvaTimes (set_insert_all exerciseTimes
         (set_insert_all cashflowGenTimes [])) |}.

(** the paths drawn for the calibration: [pathValues[j][k].data()[i]] is
    [path[k][j + 1]] of the [i]-th path *)
Definition simulatePaths (ts : TimeSets) : list (list (RandomVariable Real)) :=
  map (fun j =>
         map (fun k =>
                map (fun i => samplePath (simulationTimes ts) i k (j + 1))
                    (seq 0 (calibrationSamples_ e)))
             (seq 0 stateProcessSize))
      (seq 0 (length (simulationTimes ts))).

Inductive CfStatus : Type := open | cached | done.

(** the variables of the backward loop over the exercise and xva times *)
Record CalibrationState : Type := {
  cfStatus : list CfStatus;
  amountCache : list (RandomVariable Real);
  pathValueUndDirty : RandomVariable Real;
  pathValueUndExInto : RandomVariable Real;
  pathValueOption : RandomVariable Real;
  coeffsUndDirty : list (Array Real);
  coeffsUndExInto : list (Array Real);
  coeffsContinuationValue : list (Array Real);
  coeffsOption : list (Array Real);
  counter : nat;
}.

Section TimeLoop.
Variable cashflowInfo : list (CashflowInfo Real).
Variable ts : TimeSets.
Variable pathValues : list (list (RandomVariable Real)).

(** the body of the loop over the cash flows at the time [t] *)
Definition updateCashflow (t : Real) (st : CalibrationState) (i : nat)
    : outcome CalibrationState :=
  status ← index (cfStatus st) i;
  info ← index cashflowInfo i;
  match status with
  | open =>
      if rgtb (exIntoCriterionTime info) t then
        tmp ← cashflowPathValue info pathValues (simulationTimes ts);
        Ok {| cfStatus := <[i := done]> (cfStatus st);
              amountCache := amountCache st;
              pathValueUndDirty := rv_add (pathValueUndDirty st) tmp;
              pathValueUndExInto := rv_add (pathValueUndExInto st) tmp;
              pathValueOption := pathValueOption st;
              coeffsUndDirty := coeffsUndDirty st; coeffsUndExInto := coeffsUndExInto st;
              coeffsContinuationValue := coeffsContinuationValue st;
              coeffsOption := coeffsOption st; counter := counter st |}
      else if rgtb (payTime info) t then
        tmp ← cashflowPathValue info pathValues (simulationTimes ts);
        cache ← assign (amountCache st) i tmp;
        Ok {| cfStatus := <[i := cached]> (cfStatus st);
              amountCache := cache;
              pathValueUndDirty := rv_add (pathValueUndDirty st) tmp;
              pathValueUndExInto := pathValueUndExInto st;
              pathValueOption := pathValueOption st;
              coeffsUndDirty := coeffsUndDirty st; coeffsUndExInto := coeffsUndExInto st;
              coeffsContinuationValue := coeffsContinuationValue st;
              coeffsOption := coeffsOption st; counter := counter st |}
      else Ok st
  | cached =>
      if rgtb (exIntoCriterionTime info) t then
        cachedAmount ← index (amountCache st) i;
        Ok {| cfStatus := <[i := done]> (cfStatus st);
              amountCache := <[i := []]> (amountCache st);
              pathValueUndDirty := pathValueUndDirty st;
              pathValueUndExInto := rv_add (pathValueUndExInto st) cachedAmount;
              pathValueOption := pathValueOption st;
              coeffsUndDirty := coeffsUndDirty st; coeffsUndExInto := coeffsUndExInto st;
              coeffsContinuationValue := coeffsContinuationValue st;
              coeffsOption := coeffsOption st; counter := counter st |}
      else Ok st
  | done => Ok st
  end.

(** the exercise decision of the calibrator: the new [pathValueOption] *)
Definition exerciseDecision (exerciseValue continuationValue : RandomVariable Real)
    (pathValueUndExInto' pathValueOption' : RandomVariable Real) : RandomVariable Real :=
  conditionalResult
    (filter_and (rv_gt exerciseValue continuationValue)
                (rv_gt exerciseValue (rv (calibrationSamples_ e) rzero)))
    pathValueUndExInto' pathValueOption'.

(** the body of the backward loop at the time [t] *)
Definition timeStep (st : CalibrationState) (t : Real) : outcome CalibrationState :=
  let isExerciseTime := set_mem t (exerciseTimes ts) in
  let isXvaTime := set_mem t (xvaTimes ts) in
  st1 ← foldM (updateCashflow t) (seq 0 (length cashflowInfo)) st;
  regressor ← mapM_outcome
                (fun i => ti ← timeIndex t (simulationTimes ts);
                          row ← index pathValues ti; index row i)
                (seq 0 stateProcessSize);
  let hasExercise := bool_decide (is_Some (exercise_ e)) in
  cExInto ← (if hasExercise
             then assign (coeffsUndExInto st1) (counter st1)
                    (regressionCoefficients (pathValueUndExInto st1) regressor (basisFns e) None)
             else Ok (coeffsUndExInto st1));
  '(cCont, option1, cOption1) ←
    (if isExerciseTime then
       c ← index cExInto (counter st1);
       let exerciseValue := conditionalExpectation regressor (basisFns e) c in
       cCont ← assign (coeffsContinuationValue st1) (counter st1)
                 (regressionCoefficients (pathValueOption st1) regressor (basisFns e)
                    (Some (rv_gt exerciseValue (rv (calibrationSamples_ e) rzero))));
       cc ← index cCont (counter st1);
       let continuationValue := conditionalExpectation regressor (basisFns e) cc in
       let option1 := exerciseDecision exerciseValue continuationValue
                        (pathValueUndExInto st1) (pathValueOption st1) in
       cOption1 ← assign (coeffsOption st1) (counter st1)
                    (regressionCoefficients option1 regressor (basisFns e) None);
       Ok (cCont, option1, cOption1)
     else Ok (coeffsContinuationValue st1, pathValueOption st1, coeffsOption st1));
  cDirty ← (if isXvaTime
            then assign (coeffsUndDirty st1) (counter st1)
                   (regressionCoefficients (pathValueUndDirty st1) regressor (basisFns e) None)
            else Ok (coeffsUndDirty st1));
  cOption2 ← (if hasExercise
              then assign cOption1 (counter st1)
                     (regressionCoefficients option1 regressor (basisFns e) None)
              else Ok cOption1);
  Ok {| cfStatus := cfStatus st1; amountCache := amountCache st1;
        pathValueUndDirty := pathValueUndDirty st1;
        pathValueUndExInto := pathValueUndExInto st1;
        pathValueOption := option1;
        coeffsUndDirty := cDirty; coeffsUndExInto := cExInto;
        coeffsContinuationValue := cCont; coeffsOption := cOption2;
        counter := (counter st1 - 1)%nat |}.

(** the loop after the walk, over the cash flows that are still open *)
Definition addRemaining (st : CalibrationState) : outcome (RandomVariable Real) :=
  foldM (fun dirty i =>
           status ← index (cfStatus st) i;
           match status with
           | open =>
               info ← index cashflowInfo i;
               tmp ← cashflowPathValue info pathValues (simulationTimes ts);
               Ok (rv_add dirty tmp)
           | _ => Ok dirty
           end)
        (seq 0 (length cashflowInfo)) (pathValueUndDirty st).

(** the variables before the backward loop *)
Definition calibrationStart : CalibrationState :=
  let n := length (exerciseXvaTimes ts) in
  let samples := calibrationSamples_ e in
  {| cfStatus := replicate (length cashflowInfo) open;
     amountCache := replicate (length cashflowInfo) [];
     pathValueUndDirty := rv samples rzero;
     pathValueUndExInto := rv samples rzero;
     pathValueOption := rv samples rzero;
     coeffsUndDirty := replicate n []; coeffsUndExInto := replicate n [];
     coeffsContinuationValue := replicate n []; coeffsOption := replicate n [];
     counter := (n - 1)%nat |}.

(** the calibration proper: the part of [calculate] after the paths *)
Definition calibrate : outcome Results :=
  st ← foldM timeStep (rev (exerciseXvaTimes ts)) calibrationStart;
  dirty ← addRemaining st;
  und ← at_ (expectation dirty) 0;
  let resultUnderlyingNpv := rmul und numeraire0 in
  resultValue ←
    match exercise_ e with
    | None => Ok resultUnderlyingNpv
    | Some _ => opt ← at_ (expectation (pathValueOption st)) 0; Ok (rmul opt numeraire0)
    end;
  Ok {| resultUnderlyingNpv_ := resultUnderlyingNpv;
        resultValue_ := resultValue;
        amcCalculator_ :=
          Build_MultiLegBaseAmcCalculator
            (externalModelIndices_ e) (optionSettlement_ e)
            (exerciseXvaTimes ts) (exerciseTimes ts) (xvaTimes ts)
            (coeffsUndDirty st) (coeffsUndExInto st) (coeffsContinuationValue st)
            (coeffsOption st) (basisFns e) resultValue initialValues |}.
End TimeLoop.

(** the part of [calculate] before the paths are drawn: the checks, the
    classification of the cash flows and the time sets *)
Definition prepare : outcome (list (CashflowInfo Real) * TimeSets) :=
  _ ← require (length (currency_ e) =? length (leg_ e))%nat
        "McMultiLegBaseEngine: number of legs does not match currencies";
  _ ← require (length (payer_ e) =? length (leg_ e))%nat
        "McMultiLegBaseEngine: number of legs does not match payer flag";
  cashflowInfo ← classifyLegs;
  let ts := buildTimes cashflowInfo in
  _ ← require (match simulationTimes ts with [] => false | _ => true end)
        "McMultiLegBaseEngine::calculate(): no simulation times, this is not expected.";
  Ok (cashflowInfo, ts).

(** [McMultiLegBaseEngine::calculate].  The first component counts the
    paths drawn from the path generator, the second is the outcome. *)
Definition calculate : nat * outcome Results :=
  match prepare with
  | Fail err => (0%nat, Fail err)
  | Ok (cashflowInfo, ts) =>
      (calibrationSamples_ e, calibrate cashflowInfo ts (simulatePaths ts))
  end.
End Engine.
Arguments t Real : clear implicits.
Arguments Results Real : clear implicits.
Arguments TimeSets Real : clear implicits.
Arguments CalibrationState Real : clear implicits.
End McMultiLegBaseEngine.

(** *** A concrete interpretation: rational numbers

    The examples below run the engine on rational numbers.  The regression
    engine of the examples fits the mean of the target (the least-squares
    fit on the basis system made of the constant function alone) and
    evaluates a regression as the sum of the coefficients times the basis
    functions; the model of the examples has one currency, one state
    variable, times measured in years of 365 days and a numeraire equal to
    one. *)

Definition Qltb (x y : Q) : bool := negb (Qle_bool y x).

#[global] Instance Q_RealOps : RealOps Q := {|
  rzero := 0%Q;
  rone := 1%Q;
  r1Em10 := (1 # 10000000000)%Q;
  radd := Qplus;
  rsub := Qminus;
  rmul := Qmult;
  rdiv := Qdiv;
  ropp := Qopp;
  rexp := fun x => (1 + x)%Q;   (* a stand-in; no example evaluates it *)
  rltb := Qltb;
  rleb := Qle_bool;
  reqb := Qeq_bool;
|}.

Definition Qmean (l : list Q) : Q :=
  Qred (foldr Qplus 0%Q l / inject_Z (Z.of_nat (length l)))%Q.

(** Modelled from the spec: the regression engine "fits and evaluates
    basis-function regressions of a batched-sample target against a
    batched-sample set of regressors, optionally path-filtered"; its code is
    not part of the sources at hand. *)
Definition linearExpectation (regressor : list (list Q))
    (basisFns : list (list (list Q) -> list Q)) (coefficients : list Q) : list Q :=
  let n := length (default [] (head regressor)) in
  foldr rv_add (rv n 0%Q)
        (zip_with (fun c (b : list (list Q) -> list Q) => rv_mul (rv n c) (b regressor))
                  coefficients basisFns).

#[global] Instance Q_Regression : Regression Q := {|
  regressionCoefficients := fun target _ _ flt =>
    [Qmean match flt with
           | None => target
           | Some f => (List.filter snd (zip target f)).*1
           end];
  conditionalExpectation := linearExpectation;
  expectation := fun x => rv (length x) (Qmean x);
|}.

(** the basis system made of the constant function *)
Definition constantBasis : list (list (list Q) -> list Q) :=
  [fun regressor => rv (length (default [] (head regressor))) 1%Q].

#[global] Instance Q_Model : CrossAssetModel Q := {|
  referenceDate := 0%Z;
  timeFromReference := fun d => (inject_Z d / 365)%Q;
  ccyIndex := fun _ => 0%nat;
  pIdx := fun a i => match a with IR => i | FX => S i end;
  stateProcessSize := 1;
  initialValues := [0%Q];
  numeraire0 := 1%Q;
  samplePath := fun _ i _ j => (inject_Z (Z.of_nat i) * inject_Z (Z.of_nat j))%Q;
  lgmNumeraire := fun _ x => rv (length x) 1%Q;
  lgmFixing := fun _ c _ x => rv (length x) (rate c);
  lgmCompoundedOnRate := fun _ c _ x => rv (length x) (rate c);
  lgmAveragedOnRate := fun _ c _ x => rv (length x) (rate c);
  lgmAveragedBmaRate := fun _ c _ x => rv (length x) (rate c);
  lgmSubPeriodsRate := fun _ c _ x => rv (length x) (rate c);
|}.

(** A calculator with one exercise time, at the first of two valuation
    times.  The regressions are constant: exercise-into value [-1],
    continuation value [2], dirty value [3], option value [5]. *)
Definition calcA : MultiLegBaseAmcCalculator Q := {|
  externalModelIndices_ := [0%nat];
  settlement_ := Physical;
  exerciseXvaTimes_ := [1; 2]%Q;
  exerciseTimes_ := [1]%Q;
  xvaTimes_ := [1; 2]%Q;
  coeffsUndDirty_ := [[3]; [3]]%Q;
  coeffsUndExInto_ := [[-1]; [-1]]%Q;
  coeffsContinuationValue_ := [[2]; []]%Q;
  coeffsOption_ := [[5]; [5]]%Q;
  basisFns_ := constantBasis;
  resultValue_ := 7%Q;
  initialState_ := [0%Q];
|}.

(** A calculator with three exercise times, which are also its valuation
    times; the exercise-into value [4] exceeds the continuation value [2]
    at each of them. *)
Definition calcB (settlement : SettlementType) : MultiLegBaseAmcCalculator Q := {|
  externalModelIndices_ := [0%nat];
  settlement_ := settlement;
  exerciseXvaTimes_ := [1; 2; 3]%Q;
  exerciseTimes_ := [1; 2; 3]%Q;
  xvaTimes_ := [1; 2; 3]%Q;
  coeffsUndDirty_ := [[3]; [3]; [3]]%Q;
  coeffsUndExInto_ := [[4]; [4]; [4]]%Q;
  coeffsContinuationValue_ := [[2]; [2]; [2]]%Q;
  coeffsOption_ := [[5]; [5]; [5]]%Q;
  basisFns_ := constantBasis;
  resultValue_ := 7%Q;
  initialState_ := [0%Q];
|}.

(** A calculator without exercise times whose dirty value regression is
    [-3]. *)
Definition calcC : MultiLegBaseAmcCalculator Q := {|
  externalModelIndices_ := [0%nat];
  settlement_ := Physical;
  exerciseXvaTimes_ := [1]%Q;
  exerciseTimes_ := [];
  xvaTimes_ := [1]%Q;
  coeffsUndDirty_ := [[-3]]%Q;
  coeffsUndExInto_ := [[]];
  coeffsContinuationValue_ := [[]];
  coeffsOption_ := [[]];
  basisFns_ := constantBasis;
  resultValue_ := (-3)%Q;
  initialState_ := [0%Q];
|}.

(** A calculator whose second exercise time lies after its only valuation
    time. *)
Definition calcD : MultiLegBaseAmcCalculator Q := {|
  externalModelIndices_ := [0%nat];
  settlement_ := Physical;
  exerciseXvaTimes_ := [1; 2; 3]%Q;
  exerciseTimes_ := [1; 3]%Q;
  xvaTimes_ := [2]%Q;
  coeffsUndDirty_ := [[3]; [3]; [3]]%Q;
  coeffsUndExInto_ := [[4]; [4]; [4]]%Q;
  coeffsContinuationValue_ := [[2]; [2]; [2]]%Q;
  coeffsOption_ := [[5]; [5]; [5]]%Q;
  basisFns_ := constantBasis;
  resultValue_ := 7%Q;
  initialState_ := [0%Q];
|}.

(** The calculator [calcB] with cash settlement, without its third exercise
    time, and valued at the time [3] only: a path exercised at the first
    exercise time is not marked at the second. *)
Definition calcE : MultiLegBaseAmcCalculator Q := {|
  externalModelIndices_ := [0%nat];
  settlement_ := Cash;
  exerciseXvaTimes_ := [1; 2; 3]%Q;
  exerciseTimes_ := [1; 2]%Q;
  xvaTimes_ := [3]%Q;
  coeffsUndDirty_ := [[3]; [3]; [3]]%Q;
  coeffsUndExInto_ := [[4]; [4]; [4]]%Q;
  coeffsContinuationValue_ := [[2]; [2]; [2]]%Q;
  coeffsOption_ := [[5]; [5]; [5]]%Q;
  basisFns_ := constantBasis;
  resultValue_ := 7%Q;
  initialState_ := [0%Q];
|}.

(** A calculator on two external model indices, with one exercise time, at
    its only valuation time; and one path time with the two states of one
    sample. *)
Definition calcTwo : MultiLegBaseAmcCalculator Q := {|
  externalModelIndices_ := [0%nat; 1%nat];
  settlement_ := Physical;
  exerciseXvaTimes_ := [1]%Q;
  exerciseTimes_ := [1]%Q;
  xvaTimes_ := [1]%Q;
  coeffsUndDirty_ := [[3]]%Q;
  coeffsUndExInto_ := [[4]]%Q;
  coeffsContinuationValue_ := [[2]]%Q;
  coeffsOption_ := [[5]]%Q;
  basisFns_ := constantBasis;
  resultValue_ := 7%Q;
  initialState_ := [0%Q; 0%Q];
|}.

Definition pathsTwo : list (list (list Q)) := [[[0%Q]; [0%Q]]].

(** one path, with the state [0] at each of [n] path times *)
Definition flatPaths (n : nat) : list (list (list Q)) := replicate n [[0%Q]].

(** An engine for a single fixed payment of [100] after one year, valued on
    two paths at the date [180], with the exercise dates [exercise]. *)
Definition engineA (exercise : option (list Date)) : McMultiLegBaseEngine.t Q := {|
  McMultiLegBaseEngine.calibrationSamples_ := 2;
  McMultiLegBaseEngine.simulationDates_ := [180%Z];
  McMultiLegBaseEngine.externalModelIndices_ := [0%nat];
  McMultiLegBaseEngine.leg_ := [[SimpleCashFlow 365%Z 100%Q]];
  McMultiLegBaseEngine.currency_ := ["EUR"%string];
  McMultiLegBaseEngine.payer_ := [1%Q];
  McMultiLegBaseEngine.exercise_ := exercise;
  McMultiLegBaseEngine.optionSettlement_ := Physical;
  McMultiLegBaseEngine.basisFns := constantBasis;
|}.

(** the same engine with a second cash flow of a class the classifier does
    not know *)
Definition engineB : McMultiLegBaseEngine.t Q := {|
  McMultiLegBaseEngine.calibrationSamples_ := 2;
  McMultiLegBaseEngine.simulationDates_ := [180%Z];
  McMultiLegBaseEngine.externalModelIndices_ := [0%nat];
  McMultiLegBaseEngine.leg_ := [[SimpleCashFlow 365%Z 100%Q; OtherCoupon 730%Z 365%Z]];
  McMultiLegBaseEngine.currency_ := ["EUR"%string];
  McMultiLegBaseEngine.payer_ := [1%Q];
  McMultiLegBaseEngine.exercise_ := None;
  McMultiLegBaseEngine.optionSettlement_ := Physical;
  McMultiLegBaseEngine.basisFns := constantBasis;
|}.

(** *** The quantities the replay properties are stated with *)

Section ReplayQuantities.
Context {Real : Type} `{Regression Real}.
Variable calc : MultiLegBaseAmcCalculator Real.

(** the number of exercise times, respectively valuation times, among the
    times [l] *)
Definition exCount (l : list Real) : nat :=
  length (filter (fun t => set_mem t (exerciseTimes_ calc) = true) l).
Definition xvaCount (l : list Real) : nat :=
  length (filter (fun t => set_mem t (xvaTimes_ calc) = true) l).

(** the paths exercised at one of the exercise times among [l]: the
    disjunction of the indicators recorded for these exercise times *)
Definition exercisedBy (n : nat) (exercised : list Filter) (l : list Real) : Filter :=
  foldl filter_or (filter_const n false) (take (exCount l) (drop 1 exercised)).

(** the prefixes of [l] that end on a valuation time *)
Fixpoint xvaPrefixesFrom (seen l : list Real) : list (list Real) :=
  match l with
  | [] => []
  | t :: l' =>
      (if set_mem t (xvaTimes_ calc) then [seen ++ [t]] else [])
        ++ xvaPrefixesFrom (seen ++ [t]) l'
  end.

(** the paths exercised by one of the valuation times among [l] *)
Definition accountedBefore (n : nat) (exercised : list Filter) (l : list Real) : Filter :=
  foldl filter_or (filter_const n false)
        (map (exercisedBy n exercised) (xvaPrefixesFrom [] l)).

(** a regression evaluated on the state supplied for the [k]-th valuation
    time, with the coefficients at the position [pos] of the time grid *)
Definition regressionAt (p : Prologue Real) (coeffs : list (Array Real)) (pos k : nat)
    : option (RandomVariable Real) :=
  eff ← effPaths p !! k;
  c ← coeffs !! pos;
  Some (conditionalExpectation eff (basisFns_ calc) c).

(** the exercised value at the valuation time [t] that follows the times
    [pre]: the exercise-into regression on the paths marked at the latest
    exercise time, the dirty value regression on the others *)
Definition exercisedValueAt (p : Prologue Real) (exercised : list Filter)
    (pre : list Real) (t : Real) : option (RandomVariable Real) :=
  latest ← exercised !! exCount (pre ++ [t]);
  exInto ← regressionAt p (coeffsUndExInto_ calc) (length pre) (xvaCount pre);
  dirty ← regressionAt p (coeffsUndDirty_ calc) (length pre) (xvaCount pre);
  Some (conditionalResult latest exInto dirty).

(** the exercised value after the cash settlement mask *)
Definition settledValueAt (p : Prologue Real) (exercised : list Filter)
    (pre : list Real) (t : Real) : option (RandomVariable Real) :=
  exercisedValue ← exercisedValueAt p exercised pre t;
  Some match settlement_ calc with
       | Cash => applyInverseFilter exercisedValue
                   (accountedBefore (samples p) exercised pre)
       | Physical => exercisedValue
       end.

(** the entry of the result for the valuation time [t] that follows the
    times [pre] *)
Definition replayEntry (p : Prologue Real) (exercised : list Filter)
    (pre : list Real) (t : Real) : option (RandomVariable Real) :=
  settled ← settledValueAt p exercised pre t;
  optionValue ← regressionAt p (coeffsOption_ calc) (length pre) (xvaCount pre);
  Some (rv_max (rv (samples p) rzero)
          (conditionalResult (exercisedBy (samples p) exercised (pre ++ [t]))
             settled optionValue)).

(** the entry with the two cases only: the exercise-into regression on the
    exercised paths and the dirty value regression on the others *)
Definition twoCaseEntry (p : Prologue Real) (exercised : list Filter)
    (pre : list Real) (t : Real) : option (RandomVariable Real) :=
  exInto ← regressionAt p (coeffsUndExInto_ calc) (length pre) (xvaCount pre);
  dirty ← regressionAt p (coeffsUndDirty_ calc) (length pre) (xvaCount pre);
  Some (rv_max (rv (samples p) rzero)
          (conditionalResult (exercisedBy (samples p) exercised (pre ++ [t]))
             exInto dirty)).
(** what the variables of the loop that populates the result hold after
    the times [l] *)
Record ReplayInv (p : Prologue Real) (exercised : list Filter)
    (l : list Real) (st : ReplayState Real) : Prop := {
  inv_counter : counter st = length l;
  inv_xvaCounter : xvaCounter st = xvaCount l;
  inv_exerciseCounter : exerciseCounter st = exCount l;
  inv_wasExercised : wasExercised st = exercisedBy (samples p) exercised l;
  inv_accounted :
    cashExerciseValueWasAccountedForOnXvaTime st =
      match settlement_ calc with
      | Cash => accountedBefore (samples p) exercised l
      | Physical => filter_const (samples p) false
      end;
}.

(** in the indicators, a path marked at one exercise time is not marked at
    the exercise time before *)
Definition alternating (ex : list Filter) : Prop :=
  forall (j q : nat) (prev cur : list bool),
    ex !! j = Some prev -> ex !! S j = Some cur -> cur !! q = Some true ->
    prev !! q = Some false.

(** every vector of a result but the first is nowhere negative *)
Definition floored (res : list (RandomVariable Real)) : Prop :=
  forall k v, 0 < k -> res !! k = Some v -> Forall (fun x => rleb rzero x = true) v.

(** the value of a result at the position [k] on the path [q] *)
Definition entryOf (res : list (RandomVariable Real)) (k q : nat) : option Real :=
  v ← res !! k; v !! q.
End ReplayQuantities.

(** *** The examples, evaluated *)

(** what [prologue] sets up for the calculators [calcA], [calcB] and
    [calcD] on [flatPaths n] when every path time is a valuation time *)
Definition prologueFlat (n : nat) : Prologue Q := {|
  effPaths := replicate n [[0%Q]];
  samples := 1;
  result0 := [7%Q] :: replicate n [0%Q];
  initialState := [[0%Q]];
|}.

(** the results of [calculate] for [engineA None] *)
Definition resultsA : McMultiLegBaseEngine.Results Q := {|
  McMultiLegBaseEngine.resultUnderlyingNpv_ := 100%Q;
  McMultiLegBaseEngine.resultValue_ := 100%Q;
  McMultiLegBaseEngine.amcCalculator_ := {|
    externalModelIndices_ := [0%nat];
    settlement_ := Physical;
    exerciseXvaTimes_ := [(180 # 365)%Q];
    exerciseTimes_ := [];
    xvaTimes_ := [(180 # 365)%Q];
    coeffsUndDirty_ := [[100%Q]];
    coeffsUndExInto_ := [[]];
    coeffsContinuationValue_ := [[]];
    coeffsOption_ := [[]];
    basisFns_ := constantBasis;
    resultValue_ := 100%Q;
    initialState_ := [0%Q];
  |};
|}.

(** the engine [engineA] with an exercise date at the valuation date: its
    cash-flow descriptors, its time sets and its calibration paths *)
Definition engineX : McMultiLegBaseEngine.t Q := engineA (Some [180%Z]).

Definition cashflowInfoX : list (CashflowInfo Q) :=
  match McMultiLegBaseEngine.prepare engineX with
  | Ok (cashflowInfo, _) => cashflowInfo
  | Fail _ => []
  end.

Definition timesX : McMultiLegBaseEngine.TimeSets Q :=
  McMultiLegBaseEngine.buildTimes engineX cashflowInfoX.

Definition pathValuesX : list (list (list Q)) :=
  McMultiLegBaseEngine.simulatePaths engineX timesX.

(** the variables of the backward loop of [engineX] after its only turn *)
Definition stateX : McMultiLegBaseEngine.CalibrationState Q :=
  Eval vm_compute in
    match McMultiLegBaseEngine.timeStep engineX cashflowInfoX timesX pathValuesX
            (McMultiLegBaseEngine.calibrationStart engineX cashflowInfoX timesX)
            (180 # 365)%Q with
    | Ok st => st
    | Fail _ => McMultiLegBaseEngine.calibrationStart engineX cashflowInfoX timesX
    end.

(** the descriptor of a fixed rate coupon of [100] that accrues from today
    and pays after one year *)
Definition infoFixed : CashflowInfo Q := {|
  legNo := 0;
  cfNo := 0;
  payTime := (inject_Z 365 / 365)%Q;
  payCcyIndex := 0;
  payer := 1%Q;
  exIntoCriterionTime := (inject_Z 0 / 365 + (1 # 10000000000))%Q;
  simulationTimes := [];
  modelIndices := [];
  amountCalculator := fun n _ => Ok (rv n 100%Q);
|}.

(** the only descriptor of [engineX] *)
Definition infoX : CashflowInfo Q := default infoFixed (head cashflowInfoX).

(** A model with a second currency, USD, beside the base currency: three
    state variables, the two interest rate states and the FX state. *)
Definition Q_Model2 : CrossAssetModel Q := {|
  referenceDate := 0%Z;
  timeFromReference := fun d => (inject_Z d / 365)%Q;
  ccyIndex := fun c => if String.eqb c "USD" then 1%nat else 0%nat;
  pIdx := fun a i => match a with IR => i | FX => (2 + i)%nat end;
  stateProcessSize := 3;
  initialValues := [0%Q; 0%Q; 0%Q];
  numeraire0 := 1%Q;
  samplePath := fun _ _ _ _ => 0%Q;
  lgmNumeraire := fun _ x => rv (length x) 1%Q;
  lgmFixing := fun _ c _ x => rv (length x) (rate c);
  lgmCompoundedOnRate := fun _ c _ x => rv (length x) (rate c);
  lgmAveragedOnRate := fun _ c _ x => rv (length x) (rate c);
  lgmAveragedBmaRate := fun _ c _ x => rv (length x) (rate c);
  lgmSubPeriodsRate := fun _ c _ x => rv (length x) (rate c);
|}.

(** The model [Q_Model] on a curve that measures time with the day counter
    30E/360.  The reference date [0] is the first of January and the date
    [d] lies [d] days later; on the dates of January the year fraction from
    the reference date is the day of the month, the 31st counted as the
    30th, less one, over 360.  The later dates are given the time of the
    end of January; no example reads them. *)
Definition Q_Model360 : CrossAssetModel Q := {|
  referenceDate := 0%Z;
  timeFromReference := fun d => (inject_Z (Z.min d 29) / 360)%Q;
  ccyIndex := fun _ => 0%nat;
  pIdx := fun a i => match a with IR => i | FX => S i end;
  stateProcessSize := 1;
  initialValues := [0%Q];
  numeraire0 := 1%Q;
  samplePath := fun _ _ _ _ => 0%Q;
  lgmNumeraire := fun _ x => rv (length x) 1%Q;
  lgmFixing := fun _ c _ x => rv (length x) (rate c);
  lgmCompoundedOnRate := fun _ c _ x => rv (length x) (rate c);
  lgmAveragedOnRate := fun _ c _ x => rv (length x) (rate c);
  lgmAveragedBmaRate := fun _ c _ x => rv (length x) (rate c);
  lgmSubPeriodsRate := fun _ c _ x => rv (length x) (rate c);
|}.

(** An Ibor coupon of [3%] on a notional of [100] that accrues from the
    date [2], pays at the date [367] and fixes at the date [fixing]; and
    the same coupon with a notional of [100] USD that is converted at the
    FX rate fixed at the date [2]. *)
Definition iborCoupon (fixing : Date) : FloatingRateCoupon Q := {|
  kind := IborCoupon;
  date := 367%Z;
  accrualStartDate := 2%Z;
  fixingDate := fixing;
  rate := (3 # 100)%Q;
  spread := 0%Q;
  gearing := 1%Q;
  indexCurrency := "EUR"%string;
  nominal := 100%Q;
  accrualPeriod := 1%Q;
  terms := 0;
|}.

Definition flowFx (fixing : Date) : CashFlow Q :=
  FloatingRateFXLinkedNotionalCoupon 367%Z 2%Z 2%Z "USD"%string "EUR"%string 1%Q 100%Q
    (FloatingCoupon (iborCoupon fixing)).

(** the descriptor of [flowFx fixing] in the model with two currencies *)
Definition infoFx (fixing : Date) : CashflowInfo Q :=
  match @createCashflowInfo Q Q_RealOps Q_Model2 (flowFx fixing) "EUR"%string 1%Q 0 0 with
  | Ok info => info
  | Fail _ => infoFixed
  end.

(** an engine for the coupon [flowFx 0], and an engine whose only flow was
    paid before today *)
Definition engineF : McMultiLegBaseEngine.t Q := {|
  McMultiLegBaseEngine.calibrationSamples_ := 2;
  McMultiLegBaseEngine.simulationDates_ := [180%Z];
  McMultiLegBaseEngine.externalModelIndices_ := [0%nat];
  McMultiLegBaseEngine.leg_ := [[flowFx 0%Z]];
  McMultiLegBaseEngine.currency_ := ["EUR"%string];
  McMultiLegBaseEngine.payer_ := [1%Q];
  McMultiLegBaseEngine.exercise_ := None;
  McMultiLegBaseEngine.optionSettlement_ := Physical;
  McMultiLegBaseEngine.basisFns := constantBasis;
|}.

Definition enginePaid : McMultiLegBaseEngine.t Q := {|
  McMultiLegBaseEngine.calibrationSamples_ := 2;
  McMultiLegBaseEngine.simulationDates_ := [];
  McMultiLegBaseEngine.externalModelIndices_ := [0%nat];
  McMultiLegBaseEngine.leg_ := [[SimpleCashFlow (-1)%Z 100%Q]];
  McMultiLegBaseEngine.currency_ := ["EUR"%string];
  McMultiLegBaseEngine.payer_ := [1%Q];
  McMultiLegBaseEngine.exercise_ := Some [(-30)%Z];
  McMultiLegBaseEngine.optionSettlement_ := Physical;
  McMultiLegBaseEngine.basisFns := constantBasis;
|}.

(** *** Further quantities of the replay *)

Section ReplayDecisions.
Context {Real : Type} `{Regression Real}.
Variable calc : MultiLegBaseAmcCalculator Real.

(** the result of a computation that succeeded *)
Definition succeeded {A : Type} (o : outcome A) : option A :=
  match o with
  | Ok a => Some a
  | Fail _ => None
  end.

(** The exercise value and the continuation value that the loop over the
    exercise times compares at the exercise time [t]: the two regressions
    at the state interpolated to [t]. *)
Definition exerciseValuesAt (p : Prologue Real) (t : Real)
    : option (RandomVariable Real * RandomVariable Real) :=
  ind ← set_find t (exerciseXvaTimes_ calc);
  k2 ← lower_bound (xvaTimes_ calc) t;
  succeeded (
    time2 ← index (xvaTimes_ calc) k2;
    s2 ← index (effPaths p) k2;
    '(time1, s1) ← match k2 with
                   | O =>
                       s1 ← dereference (initialStatePointer (initialState p));
                       Ok (rzero, s1)
                   | S k1 =>
                       time1 ← index (xvaTimes_ calc) k1;
                       s1 ← index (effPaths p) k1;
                       Ok (time1, s1)
                   end;
    sp ← interpolate calc (samples p) t time1 time2 s1 s2;
    cEx ← index (coeffsUndExInto_ calc) ind;
    cCont ← index (coeffsContinuationValue_ calc) ind;
    Ok (conditionalExpectation sp (basisFns_ calc) cEx,
        conditionalExpectation sp (basisFns_ calc) cCont)).

(** the number of path times flagged as relevant among the first [m] *)
Definition relevantCount (isRelevantTime : list bool) (m : nat) : nat :=
  length (filter (fun b : bool => b = true) (take m isRelevantTime)).
End ReplayDecisions.

(** *** Further quantities of the classifier *)

Section DescriptorShapes.
Context {Real : Type} `{CrossAssetModel Real}.

(** The states handed to an amount function have the shape the descriptor
    declares: one row for each simulation time, holding one value for each
    model index declared for that time. *)
Definition statesFit (info : CashflowInfo Real)
    (states : list (list (RandomVariable Real))) : Prop :=
  length states = length (simulationTimes info) /\
  Forall2 (fun (st : list (RandomVariable Real)) (ixs : list nat) => length st = length ixs)
          states (modelIndices info).

(** An Ibor or CMS coupon with an FX linked notional whose rate is fixed by
    today, whose FX rate is fixed after today, and one of whose two FX
    currencies is not the base currency of the model. *)
Definition fixedRateFutureFx (flow : CashFlow Real) : bool :=
  match flow with
  | FloatingRateFXLinkedNotionalCoupon _ _ fxFixingDate src tgt _ _ _ =>
      match residualFlow flow with
      | FloatingCoupon c =>
          match kind c with
          | IborCoupon | CmsCoupon =>
              bool_decide (fixingDate c <= today_)%Z &&
              bool_decide (today_ < fxFixingDate)%Z &&
              ((0 <? ccyIndex src)%nat || (0 <? ccyIndex tgt)%nat)
          | _ => false
          end
      | _ => false
      end
  | _ => false
  end.

(** the flows of a leg that pay after today, each with the cash flow number
    it is classified under *)
Definition aliveFlows (leg : list (CashFlow Real)) : list (nat * CashFlow Real) :=
  imap pair (filter (fun flow => (today_ < flowDate flow)%Z) leg).
End DescriptorShapes.

(** *** The engine builder of the FX forward *)

(** [CamAmcFxForwardEngineBuilder::engineImpl]
    ([OREData/ored/portfolio/builders/fxforward.cpp]) projects the cross
    asset model of the builder onto the components an FX forward needs and
    hands the projected model, the simulation dates and the external model
    indices to the engine, which passes the latter two on to
    [McMultiLegBaseEngine]. *)
Module CamAmcFxForwardEngineBuilder.
Section Builder.
Context {Real : Type} `{RealOps Real}.

(** what the builder reads from the cross asset model [cam_] *)
Record Cam : Type := {
  components : AssetType -> nat;        (* cam_->components(t) *)
  currency : nat -> Currency;           (* cam_->irlgm1f(i)->currency() *)
  pIdx : AssetType -> nat -> nat;       (* cam_->pIdx(t, i) *)
  cIdx : AssetType -> nat -> nat;       (* cam_->cIdx(t, i) *)
  correlation : nat -> nat -> Real;     (* cam_->correlation()(i, j) *)
}.

(** The arguments the engine is made with.  [lgm] and [fx] hold the numbers
    of the components [cam_->lgm(i)] and [cam_->fxbs(i)] of the projected
    model and [corr] is its correlation matrix; [parameters] stands for the
    parsed engine parameters. *)
Record McCamFxForwardEngine {Parameters : Type} : Type := {
  lgm : list nat;
  fx : list nat;
  corr : list (list Real);
  domCcy : Currency;
  forCcy : Currency;
  npvCcy : Currency;
  parameters : Parameters;
  discountCurves : list nat;
  simulationDates : list Date;
  externalModelIndices : list nat;
}.
Arguments McCamFxForwardEngine Parameters : clear implicits.

Context {Parameters : Type}.

(** the members of the builder; [engineParameters] is the outcome of
    looking up and parsing the engine parameters *)
Variable cam_ : Cam.
Variable simulationDates_ : list Date.
Variable engineParameters : outcome Parameters.

(** the vectors filled by the loop over the interest rate components *)
Record Collected : Type := {
  collectedLgm : list nat;
  collectedFx : list nat;
  collectedExternalModelIndices : list nat;
  collectedCIdx : list nat;
}.

(** the condition under which a component is kept *)
Definition kept (forCcy' domCcy' : Currency) (i : nat) : bool :=
  (i =? 0)%nat || String.eqb (currency cam_ i) domCcy'
               || String.eqb (currency cam_ i) forCcy'.

(** the body of the loop over the interest rate components *)
Definition collectStep (forCcy' domCcy' : Currency) (st : Collected) (i : nat) : Collected :=
  if kept forCcy' domCcy' i then
    let withFx := (0 <? i)%nat in
    {| collectedLgm := collectedLgm st ++ [i];
       collectedFx := collectedFx st ++ (if withFx then [(i - 1)%nat] else []);
       collectedExternalModelIndices :=
         (collectedExternalModelIndices st ++ [pIdx cam_ IR i])
           ++ (if withFx then [pIdx cam_ FX (i - 1)] else []);
       collectedCIdx :=
         (collectedCIdx st ++ [cIdx cam_ IR i])
           ++ (if withFx then [cIdx cam_ FX (i - 1)] else []) |}
  else st.

Definition collect (forCcy' domCcy' : Currency) : Collected :=
  foldl (collectStep forCcy' domCcy')
        {| collectedLgm := []; collectedFx := [];
           collectedExternalModelIndices := []; collectedCIdx := [] |}
        (seq 0 (components cam_ IR)).

(** [m(i, j) = v] on a matrix kept as the list of its rows *)
Definition matrixSet (m : list (list Real)) (i j : nat) (v : Real) : list (list Real) :=
  match m !! i with
  | Some row => <[i := <[j := v]> row]> m
  | None => m
  end.

(** [m(i, j)] *)
Definition matrixGet (m : list (list Real)) (i j : nat) : option Real :=
  row ← m !! i; row !! j.

(** a matrix with [n] rows and [n] columns *)
Definition squareMatrix (n : nat) (m : list (list Real)) : Prop :=
  length m = n /\ Forall (fun row : list Real => length row = n) m.

(** The loops that fill the correlation matrix.  The indices [i] and [j]
    run below the size of [cIdx'], so that [cIdx'[i]] and [cIdx'[j]] are
    inside the vector. *)
Definition correlationRow (cIdx' : list nat) (m : list (list Real)) (i : nat)
    : list (list Real) :=
  foldl (fun m j =>
           let v := correlation cam_ (cIdx' !!! i) (cIdx' !!! j) in
           matrixSet (matrixSet m j i v) i j v)
        m (seq 0 i).

Definition correlationMatrix (cIdx' : list nat) : list (list Real) :=
  foldl (correlationRow cIdx')
        (replicate (length cIdx') (replicate (length cIdx') rone))
        (seq 0 (length cIdx')).

(** [CamAmcFxForwardEngineBuilder::engineImpl]; [std::sort] on the indices
    is the merge sort of the library, which returns the same vector *)
Definition engineImpl (forCcy' domCcy' : Currency)
    : outcome (McCamFxForwardEngine Parameters) :=
  _ ← require (negb (String.eqb domCcy' forCcy'))
        "CamAmcFxForwardEngineBuilder: domCcy = forCcy";
  let collected := collect forCcy' domCcy' in
  let externalModelIndices' := merge_sort le (collectedExternalModelIndices collected) in
  let cIdx' := merge_sort le (collectedCIdx collected) in
  let corr' := correlationMatrix cIdx' in
  parameters' ← engineParameters;
  Ok {| lgm := collectedLgm collected; fx := collectedFx collected; corr := corr';
        domCcy := domCcy'; forCcy := forCcy'; npvCcy := domCcy';
        parameters := parameters';
        discountCurves := [];
        simulationDates := simulationDates_;
        externalModelIndices := externalModelIndices' |}.
End Builder.
Arguments Cam Real : clear implicits.
Arguments McCamFxForwardEngine Real Parameters : clear implicits.
End CamAmcFxForwardEngineBuilder.

(** A cross asset model with the currencies EUR, USD and GBP, laid out with
    the interest rate states before the FX states, and with the correlation
    [1 / (1 + i + j)] between two different factors. *)
Definition Q_Cam : CamAmcFxForwardEngineBuilder.Cam Q := {|
  CamAmcFxForwardEngineBuilder.components :=
    fun a => match a with IR => 3 | FX => 2 end;
  CamAmcFxForwardEngineBuilder.currency :=
    fun i => match i with
             | 0 => "EUR"%string
             | 1 => "USD"%string
             | _ => "GBP"%string
             end;
  CamAmcFxForwardEngineBuilder.pIdx := fun a i => match a with IR => i | FX => (3 + i)%nat end;
  CamAmcFxForwardEngineBuilder.cIdx := fun a i => match a with IR => i | FX => (3 + i)%nat end;
  CamAmcFxForwardEngineBuilder.correlation :=
    fun i j => if (i =? j)%nat then 1%Q else Qred (1 / inject_Z (Z.of_nat (1 + i + j)))%Q;
|}.

(** what the builder of [Q_Cam] hands over for a forward of GBP against EUR *)
Definition engineGbpEur : CamAmcFxForwardEngineBuilder.McCamFxForwardEngine Q unit := {|
  CamAmcFxForwardEngineBuilder.lgm := [0; 2];
  CamAmcFxForwardEngineBuilder.fx := [1];
  CamAmcFxForwardEngineBuilder.corr :=
    [[1; 1 # 3; 1 # 5]; [1 # 3; 1; 1 # 7]; [1 # 5; 1 # 7; 1]]%Q;
  CamAmcFxForwardEngineBuilder.domCcy := "EUR"%string;
  CamAmcFxForwardEngineBuilder.forCcy := "GBP"%string;
  CamAmcFxForwardEngineBuilder.npvCcy := "EUR"%string;
  CamAmcFxForwardEngineBuilder.parameters := tt;
  CamAmcFxForwardEngineBuilder.discountCurves := [];
  CamAmcFxForwardEngineBuilder.simulationDates := [180%Z];
  CamAmcFxForwardEngineBuilder.externalModelIndices := [0; 2; 4];
|}.

(** ** Part II: properties *)

(** *** The outcome monad and the loops *)

Lemma bind_Ok {A B : Type} (m : outcome A) (f : A -> outcome B) (b : B) :
  m ≫= f = Ok b -> exists a, m = Ok a /\ f a = Ok b.
Proof. destruct m as [a|err]; simpl; [eauto | discriminate]. Qed.

Lemma require_Ok (b : bool) (msg : string) (u : unit) : require b msg = Ok u -> b = true.
Proof. destruct b; [reflexivity | discriminate]. Qed.

Lemma index_Ok {A : Type} (v : list A) (i : nat) (a : A) : index v i = Ok a -> v !! i = Some a.
Proof. unfold index. destruct (v !! i); congruence. Qed.

Lemma assign_Ok {A : Type} (v v' : list A) (i : nat) (x : A) :
  assign v i x = Ok v' -> i < length v /\ v' = <[i := x]> v.
Proof. unfold assign. destruct (decide (i < length v)); [intros [= <-]; auto | discriminate]. Qed.

(** Take apart a hypothesis that a sequence of fallible steps succeeded. *)
Ltac inv_outcome :=
  repeat match goal with
    | H : Ok _ = Ok _ |- _ => injection H as H; try subst
    | H : Fail _ = Ok _ |- _ => discriminate H
    | H : _ ≫= _ = Ok _ |- _ =>
        let a := fresh "a" in let Ha := fresh "Ha" in
        apply bind_Ok in H; destruct H as (a & Ha & H); simpl in H
    | H : (let '(_, _) := ?p in _) = Ok _ |- _ => destruct p; simpl in H
    | H : index _ _ = Ok _ |- _ => apply index_Ok in H
    | H : assign _ _ _ = Ok _ |- _ =>
        let Hlt := fresh "Hlt" in apply assign_Ok in H; destruct H as [Hlt H]; try subst
    end.

Lemma foldM_app {A S : Type} (f : S -> A -> outcome S) (l1 l2 : list A) (s : S) :
  foldM f (l1 ++ l2) s = foldM f l1 s ≫= foldM f l2.
Proof.
  revert s. induction l1 as [|a l1 IH]; intros s; simpl; [reflexivity|].
  destruct (f s a) as [s'|err]; simpl; [apply IH | reflexivity].
Qed.

Lemma foldM_split {A S : Type} (f : S -> A -> outcome S) (pre post : list A) (a : A) (s s' : S) :
  foldM f (pre ++ a :: post) s = Ok s' ->
  exists s1 s2, foldM f pre s = Ok s1 /\ f s1 a = Ok s2 /\ foldM f post s2 = Ok s'.
Proof.
  rewrite foldM_app. intros H. apply bind_Ok in H as (s1 & H1 & H). simpl in H.
  apply bind_Ok in H as (s2 & H2 & H). eauto.
Qed.

Lemma foldM_invariant {A S : Type} (P : S -> Prop) (f : S -> A -> outcome S) (l : list A) :
  (forall s a s', P s -> f s a = Ok s' -> P s') ->
  forall s s', P s -> foldM f l s = Ok s' -> P s'.
Proof.
  intros Hstep. induction l as [|a l IH]; intros s s' HP H; simpl in H.
  - injection H as <-. exact HP.
  - apply bind_Ok in H as (s1 & H1 & H). eauto.
Qed.

(** a loop fails as soon as its body fails on one element, whatever the state *)
Lemma foldM_fails {A S : Type} (f : S -> A -> outcome S) (l : list A) (a : A) :
  a ∈ l -> (forall s, exists err, f s a = Fail err) ->
  forall s, exists err, foldM f l s = Fail err.
Proof.
  intros Hin Hfail. induction l as [|b l IH]; intros s.
  - inversion Hin.
  - simpl. apply elem_of_cons in Hin as [<- | Hin].
    + destruct (Hfail s) as [err ->]. simpl. eauto.
    + destruct (f s b) as [s1|err]; simpl; eauto.
Qed.

(** *** Batched sample vectors *)

Section VectorFacts.
Context {Real : Type} `{RealOps Real}.

Lemma rmax_zero_zero : rmax rzero rzero = rzero.
Proof. unfold rmax. destruct (rltb rzero rzero); reflexivity. Qed.

Lemma rmax_zero_nonneg `{!RealLaws Real} (x : Real) : rleb rzero (rmax rzero x) = true.
Proof.
  unfold rmax. destruct (rltb rzero x) eqn:E; [by apply rltb_rleb | apply rleb_refl].
Qed.

Lemma rv_max_zero_nonneg `{!RealLaws Real} (n : nat) (x : list Real) :
  Forall (fun v => rleb rzero v = true) (rv_max (rv n rzero) x).
Proof.
  unfold rv_max, rv. revert x. induction n as [|n IH]; intros [|v x]; simpl; try constructor.
  - apply rmax_zero_nonneg.
  - apply IH.
Qed.

Lemma rv_zero_nonneg `{!RealLaws Real} (n : nat) :
  Forall (fun v => rleb rzero v = true) (rv n rzero).
Proof. unfold rv. apply Forall_replicate, rleb_refl. Qed.

Lemma lookup_conditionalResult (f : list bool) (x y : list Real) (p : nat) :
  conditionalResult f x y !! p =
    (b ← f !! p; u ← x !! p; v ← y !! p; Some (if b : bool then u else v)).
Proof.
  unfold conditionalResult. rewrite lookup_zip_with.
  destruct (f !! p) as [b|]; simpl; [|reflexivity].
  rewrite lookup_zip_with.
  destruct (x !! p); simpl; [|reflexivity]. destruct (y !! p); reflexivity.
Qed.

Lemma lookup_applyInverseFilter (x : list Real) (f : list bool) (p : nat) :
  applyInverseFilter x f !! p = (v ← x !! p; b ← f !! p; Some (if b : bool then rzero else v)).
Proof. unfold applyInverseFilter. by rewrite lookup_zip_with. Qed.

Lemma lookup_filter_or (f g : list bool) (p : nat) :
  filter_or f g !! p = (a ← f !! p; b ← g !! p; Some (a || b)).
Proof. unfold filter_or. by rewrite lookup_zip_with. Qed.

Lemma lookup_filter_and (f g : list bool) (p : nat) :
  filter_and f g !! p = (a ← f !! p; b ← g !! p; Some (a && b)).
Proof. unfold filter_and. by rewrite lookup_zip_with. Qed.

Lemma lookup_filter_not (f : list bool) (p : nat) :
  filter_not f !! p = negb <$> f !! p.
Proof. unfold filter_not. apply list_lookup_fmap. Qed.

Lemma lookup_rv_gt (x y : list Real) (p : nat) :
  rv_gt x y !! p = (u ← x !! p; v ← y !! p; Some (rgtb u v)).
Proof. unfold rv_gt. by rewrite lookup_zip_with. Qed.

Lemma lookup_rv_max (x y : list Real) (p : nat) :
  rv_max x y !! p = (u ← x !! p; v ← y !! p; Some (rmax u v)).
Proof. unfold rv_max. by rewrite lookup_zip_with. Qed.

Lemma lookup_rv (n : nat) (x : Real) (p : nat) :
  rv n x !! p = if decide (p < n) then Some x else None.
Proof.
  unfold rv. destruct (decide (p < n)) as [Hlt|Hge].
  - by apply lookup_replicate_2.
  - apply lookup_replicate_None. lia.
Qed.

(** on a valuation set kept in order, the lower bound of a time is the end
    exactly when every element is less than the time *)
Lemma lower_bound_None (s : list Real) (t : Real) :
  lower_bound s t = None <-> Forall (fun x => rltb x t = true) s.
Proof.
  induction s as [|x s IH]; simpl.
  - split; [constructor | reflexivity].
  - destruct (rltb x t) eqn:E.
    + rewrite Forall_cons. destruct (lower_bound s t); simpl.
      * split; [discriminate | intros [_ Hs]; by apply IH in Hs].
      * split; [intros _; split; [done | by apply IH] | done].
    + split; [discriminate | intros Hs; inversion Hs; congruence].
Qed.
End VectorFacts.

(** *** The forward replay calculator: the exercise indicators *)

Section IndicatorFacts.
Context {Real : Type} `{Regression Real}.
Variable calc : MultiLegBaseAmcCalculator Real.

(** The loop over the exercise times writes no indicator beyond the
    exercise times it has gone through. *)
Lemma exerciseLoop_frame (n : nat) (eff : list (list (list Real))) (init : list (list Real))
    (ts : list Real) :
  forall (k : nat) (ex ex' : list (list bool)),
    exerciseLoop calc n eff init ts k ex = Ok ex' ->
    forall j, k + length ts < j -> ex' !! j = ex !! j.
Proof.
  induction ts as [|t ts IH]; intros k ex ex' Hloop j Hj; simpl in Hloop.
  - by injection Hloop as <-.
  - destruct (set_find t (exerciseXvaTimes_ calc)) as [ind|]; [|discriminate].
    destruct (lower_bound (xvaTimes_ calc) t) as [k2|]; [|by injection Hloop as <-].
    inv_outcome. simpl in Hj.
    erewrite IH; [|eassumption|lia].
    apply list_lookup_insert_ne. lia.
Qed.

Lemma exerciseLoop_length (n : nat) (eff : list (list (list Real))) (init : list (list Real))
    (ts : list Real) :
  forall (k : nat) (ex ex' : list (list bool)),
    exerciseLoop calc n eff init ts k ex = Ok ex' -> length ex' = length ex.
Proof.
  induction ts as [|t ts IH]; intros k ex ex' Hloop; simpl in Hloop.
  - by injection Hloop as <-.
  - destruct (set_find t (exerciseXvaTimes_ calc)) as [ind|]; [|discriminate].
    destruct (lower_bound (xvaTimes_ calc) t) as [k2|]; [|by injection Hloop as <-].
    inv_outcome. erewrite IH; [|eassumption]. apply length_insert.
Qed.

(** The loop is left at an exercise time that lies after every valuation
    time: the exercise times from there on are not looked at. *)
Lemma exerciseLoop_break (n : nat) (eff : list (list (list Real))) (init : list (list Real))
    (pre post : list Real) (t : Real) :
  lower_bound (xvaTimes_ calc) t = None ->
  forall (k : nat) (ex ex' : list (list bool)),
    exerciseLoop calc n eff init (pre ++ t :: post) k ex = Ok ex' ->
    exerciseLoop calc n eff init pre k ex = Ok ex'.
Proof.
  intros Hlb. induction pre as [|u pre IH]; intros k ex ex' Hloop; simpl in *.
  - destruct (set_find t (exerciseXvaTimes_ calc)); [|discriminate].
    by rewrite Hlb in Hloop.
  - destruct (set_find u (exerciseXvaTimes_ calc)) as [ind|]; [|discriminate].
    destruct (lower_bound (xvaTimes_ calc) u) as [k2|]; [|done].
    destruct (index (xvaTimes_ calc) k2) as [time2|]; [simpl in *|done].
    destruct (index eff k2) as [s2|]; [simpl in *|done].
    match type of Hloop with (?m ≫= _) = _ => destruct m as [[time1 s1]|] end;
      [simpl in *|done].
    destruct (interpolate calc n u time1 time2 s1 s2) as [sp|]; [simpl in *|done].
    destruct (index (coeffsUndExInto_ calc) ind) as [cEx|]; [simpl in *|done].
    destruct (index (coeffsContinuationValue_ calc) ind) as [cCont|]; [simpl in *|done].
    destruct (index ex k) as [prev|]; [simpl in *|done].
    match type of Hloop with (?m ≫= _) = _ => destruct m as [ex1|] end;
      [simpl in *|done].
    by apply IH.
Qed.

Lemma alternating_start (m n : nat) : alternating (replicate m (filter_const n false)).
Proof.
  intros j p prev cur Hprev Hcur Hp.
  apply lookup_replicate in Hcur as [-> _].
  unfold filter_const in Hp. apply lookup_replicate in Hp as [? _]. discriminate.
Qed.

Lemma exerciseLoop_alternating (n : nat) (eff : list (list (list Real)))
    (init : list (list Real)) (ts : list Real) :
  forall (k : nat) (ex ex' : list (list bool)),
    alternating ex ->
    (forall j, k < j -> j < length ex -> ex !! j = Some (filter_const n false)) ->
    exerciseLoop calc n eff init ts k ex = Ok ex' ->
    alternating ex'.
Proof.
  induction ts as [|t ts IH]; intros k ex ex' Halt Hrest Hloop; simpl in Hloop.
  - by injection Hloop as <-.
  - destruct (set_find t (exerciseXvaTimes_ calc)) as [ind|]; [|discriminate].
    destruct (lower_bound (xvaTimes_ calc) t) as [k2|]; [|by injection Hloop as <-].
    inv_outcome.
    match goal with Hl : exerciseLoop _ _ _ _ _ _ (<[_ := ?v]> _) = _ |- _ =>
      eapply (IH _ _ _ _ _ Hl) end.
    Unshelve.
    + intros j p prev cur Hprev Hcur Hp.
      destruct (decide (S j = k + 1)) as [Heq|Hne].
      * assert (j = k) as -> by lia.
        rewrite list_lookup_insert_ne in Hprev by lia.
        replace (S k) with (k + 1) in Hcur by lia.
        rewrite list_lookup_insert_eq in Hcur by done.
        injection Hcur as <-.
        rewrite !lookup_filter_and, lookup_filter_not in Hp.
        match goal with Hi : ex !! k = Some ?a, Hj : ex !! k = Some prev |- _ =>
          rewrite Hi in Hj; injection Hj as <- end.
        destruct (a4 !! p) as [[|]|]; simpl in Hp; [|reflexivity|discriminate].
        destruct (rv_gt _ (conditionalExpectation _ _ a3) !! p); simpl in Hp; [|discriminate].
        destruct (rv_gt _ (rv n rzero) !! p); simpl in Hp; discriminate.
      * rewrite list_lookup_insert_ne in Hcur by lia.
        destruct (decide (j = k + 1)) as [->|Hne'].
        -- assert (S (k + 1) < length ex) as Hlen.
           { apply lookup_lt_Some in Hcur. done. }
           rewrite Hrest in Hcur by lia. injection Hcur as <-.
           unfold filter_const in Hp. apply lookup_replicate in Hp as [? _]. discriminate.
        -- rewrite list_lookup_insert_ne in Hprev by lia. eauto.
    + intros j Hj Hlen. rewrite length_insert in Hlen.
      rewrite list_lookup_insert_ne by lia. apply Hrest; lia.
Qed.
End IndicatorFacts.

(** *** The forward replay calculator: the loop that populates the result *)

Section ReplayFacts.
Context {Real : Type} `{Regression Real}.
Variable calc : MultiLegBaseAmcCalculator Real.
Variable p : (Prologue Real).
Variable exercised : list (list bool).

Lemma exCount_snoc (l : list Real) (t : Real) :
  exCount calc (l ++ [t]) =
    exCount calc l + (if set_mem t (exerciseTimes_ calc) then 1 else 0).
Proof.
  unfold exCount. rewrite filter_app, length_app. f_equal.
  rewrite filter_cons. destruct (set_mem t (exerciseTimes_ calc)); by case_decide.
Qed.

Lemma xvaCount_snoc (l : list Real) (t : Real) :
  xvaCount calc (l ++ [t]) =
    xvaCount calc l + (if set_mem t (xvaTimes_ calc) then 1 else 0).
Proof.
  unfold xvaCount. rewrite filter_app, length_app. f_equal.
  rewrite filter_cons. destruct (set_mem t (xvaTimes_ calc)); by case_decide.
Qed.

Lemma exercisedBy_snoc_in (n : nat) (l : list Real) (t : Real) (e : list bool) :
  set_mem t (exerciseTimes_ calc) = true ->
  exercised !! (exCount calc l + 1) = Some e ->
  exercisedBy calc n exercised (l ++ [t]) = filter_or (exercisedBy calc n exercised l) e.
Proof.
  intros Hmem He. unfold exercisedBy. rewrite exCount_snoc, Hmem.
  replace (exCount calc l + 1) with (S (exCount calc l)) in * by lia.
  rewrite (take_S_r _ _ e) by (by rewrite lookup_drop).
  by rewrite foldl_app.
Qed.

Lemma exercisedBy_snoc_out (n : nat) (l : list Real) (t : Real) :
  set_mem t (exerciseTimes_ calc) = false ->
  exercisedBy calc n exercised (l ++ [t]) = exercisedBy calc n exercised l.
Proof.
  intros Hmem. unfold exercisedBy. rewrite exCount_snoc, Hmem. by rewrite Nat.add_0_r.
Qed.

Lemma xvaPrefixesFrom_snoc (seen l : list Real) (t : Real) :
  xvaPrefixesFrom calc seen (l ++ [t]) =
    xvaPrefixesFrom calc seen l ++
      (if set_mem t (xvaTimes_ calc) then [seen ++ l ++ [t]] else []).
Proof.
  revert seen. induction l as [|u l IH]; intros seen; simpl.
  - by rewrite app_nil_r.
  - rewrite IH, <- !app_assoc. simpl. reflexivity.
Qed.

Lemma accountedBefore_snoc_in (n : nat) (l : list Real) (t : Real) :
  set_mem t (xvaTimes_ calc) = true ->
  accountedBefore calc n exercised (l ++ [t]) =
    filter_or (accountedBefore calc n exercised l) (exercisedBy calc n exercised (l ++ [t])).
Proof.
  intros Hmem. unfold accountedBefore.
  rewrite xvaPrefixesFrom_snoc, Hmem, map_app, foldl_app. reflexivity.
Qed.

Lemma accountedBefore_snoc_out (n : nat) (l : list Real) (t : Real) :
  set_mem t (xvaTimes_ calc) = false ->
  accountedBefore calc n exercised (l ++ [t]) = accountedBefore calc n exercised l.
Proof.
  intros Hmem. unfold accountedBefore.
  by rewrite xvaPrefixesFrom_snoc, Hmem, app_nil_r.
Qed.

Lemma ReplayInv_start : ReplayInv calc p exercised [] (replayStart p).
Proof. split; try reflexivity. simpl. by destruct (settlement_ calc). Qed.

(** one turn of the loop keeps the invariant, and at a valuation time it
    writes the entry [replayEntry] *)
Lemma replayStep_spec (l : list Real) (t : Real) (st st' : ReplayState Real) :
  ReplayInv calc p exercised l st ->
  replayStep calc (samples p) (effPaths p) exercised st t = Ok st' ->
  ReplayInv calc p exercised (l ++ [t]) st' /\
  if set_mem t (xvaTimes_ calc)
  then exists v, replayEntry calc p exercised l t = Some v /\
                 xvaCount calc l + 1 < length (result st) /\
                 result st' = <[xvaCount calc l + 1 := v]> (result st)
  else result st' = result st.
Proof.
  intros [Hc Hx He Hw Ha] Hstep. unfold replayStep in Hstep.
  apply bind_Ok in Hstep as ([ec1 w1] & Hex & Hstep). simpl in Hstep.
  assert (ec1 = exCount calc (l ++ [t]) /\
          w1 = exercisedBy calc (samples p) exercised (l ++ [t])) as [-> ->].
  { destruct (set_mem t (exerciseTimes_ calc)) eqn:Hmem.
    - inv_outcome. rewrite He in *. split.
      + rewrite exCount_snoc, Hmem. reflexivity.
      + rewrite Hw. symmetry. by apply exercisedBy_snoc_in.
    - inv_outcome. rewrite exCount_snoc, Hmem, Nat.add_0_r, He, Hw.
      split; [reflexivity|]. symmetry. by apply exercisedBy_snoc_out. }
  destruct (set_mem t (xvaTimes_ calc)) eqn:Hxva.
  - destruct (settlement_ calc) eqn:Hs; inv_outcome; rewrite Hx, Hc in *; simpl.
    all: split;
      [split; simpl; rewrite ?length_app, ?xvaCount_snoc, ?Hxva; simpl; try done|].
    + by rewrite Hs.
    + unfold replayEntry, settledValueAt, exercisedValueAt, regressionAt.
      repeat match goal with Hl : _ !! _ = Some _ |- _ => rewrite Hl; clear Hl end.
      simpl. rewrite Hs. eauto.
    + rewrite Hs, Ha. symmetry. by apply accountedBefore_snoc_in.
    + unfold replayEntry, settledValueAt, exercisedValueAt, regressionAt.
      repeat match goal with Hl : _ !! _ = Some _ |- _ => rewrite Hl; clear Hl end.
      simpl. rewrite Hs, <- Ha. eauto.
  - inv_outcome. simpl. split; [|reflexivity].
    split; simpl; rewrite ?length_app, ?xvaCount_snoc, ?Hxva; simpl; try lia; try done.
    rewrite Ha. destruct (settlement_ calc); [reflexivity|].
    symmetry. by apply accountedBefore_snoc_out.
Qed.
End ReplayFacts.

Section DisjunctionFacts.
(** disjunctions of filters, path by path *)

Lemma foldl_or_defined (vs : list (list bool)) :
  forall (f0 : list bool) (q : nat) (b : bool),
    foldl filter_or f0 vs !! q = Some b ->
    is_Some (f0 !! q) /\ forall v, v ∈ vs -> is_Some (v !! q).
Proof.
  induction vs as [|a vs IH]; intros f0 q b Hb; simpl in Hb.
  - split; [eauto | intros v Hv; inversion Hv].
  - apply IH in Hb as [[c Hc] Hvs]. unfold filter_or in Hc.
    rewrite lookup_zip_with in Hc.
    destruct (f0 !! q) as [x|]; simpl in Hc; [|discriminate].
    destruct (a !! q) as [y|] eqn:Ea; simpl in Hc; [|discriminate].
    split; [eauto|]. intros v [->|Hv]%elem_of_cons; [rewrite Ea|]; eauto.
Qed.

Lemma foldl_or_is_Some (vs : list (list bool)) :
  forall (f0 : list bool) (q : nat),
    is_Some (f0 !! q) -> (forall v, v ∈ vs -> is_Some (v !! q)) ->
    is_Some (foldl filter_or f0 vs !! q).
Proof.
  induction vs as [|a vs IH]; intros f0 q [x Hx] Hvs; simpl; [eauto|].
  apply IH.
  - destruct (Hvs a) as [y Hy]; [by left|].
    unfold filter_or. rewrite lookup_zip_with, Hx, Hy. simpl. eauto.
  - intros v Hv. apply Hvs. by right.
Qed.

Lemma foldl_or_true_inv (vs : list (list bool)) :
  forall (f0 : list bool) (q : nat),
    foldl filter_or f0 vs !! q = Some true ->
    f0 !! q = Some true \/ exists v, v ∈ vs /\ v !! q = Some true.
Proof.
  induction vs as [|a vs IH]; intros f0 q Hq; simpl in Hq; [by left|].
  apply IH in Hq as [Hq|(v & Hv & Hq)].
  - unfold filter_or in Hq. rewrite lookup_zip_with in Hq.
    destruct (f0 !! q) as [[|]|]; simpl in Hq; try discriminate; [by left|].
    destruct (a !! q) as [[|]|] eqn:Ea; simpl in Hq; try discriminate.
    right. exists a. split; [by left | done].
  - right. exists v. split; [by right | done].
Qed.

Lemma foldl_or_sticky (vs : list (list bool)) :
  forall (f0 : list bool) (q : nat) (b : bool),
    foldl filter_or f0 vs !! q = Some b ->
    (f0 !! q = Some true \/ exists v, v ∈ vs /\ v !! q = Some true) ->
    b = true.
Proof.
  induction vs as [|a vs IH]; intros f0 q b Hb Htrue; simpl in Hb.
  - destruct Htrue as [Ht|(v & Hv & _)]; [congruence | inversion Hv].
  - destruct (foldl_or_defined _ _ _ _ Hb) as [[c Hc] _].
    eapply IH; [exact Hb|].
    unfold filter_or in *. rewrite lookup_zip_with in *.
    destruct (f0 !! q) as [x|]; simpl in Hc; [|discriminate].
    destruct (a !! q) as [y|] eqn:Ea; simpl in Hc; [|discriminate]. simpl.
    destruct Htrue as [Ht|(v & [->|Hv]%elem_of_cons & Hq)].
    + injection Ht as ->. by left.
    + rewrite Ea in Hq. injection Hq as ->. left. by rewrite orb_true_r.
    + right. eauto.
Qed.
End DisjunctionFacts.

Section ReplayLoop.
Context {Real : Type} `{Regression Real}.
Variable calc : MultiLegBaseAmcCalculator Real.
Variable p : Prologue Real.
Variable exercised : list (list bool).

Lemma exCount_app_le (l l' : list Real) : exCount calc l <= exCount calc (l ++ l').
Proof. unfold exCount. rewrite filter_app, length_app. lia. Qed.

(** Once a path is exercised it stays exercised at all later times. *)
Lemma exercisedBy_sticky (n : nat) (l l' : list Real) (q : nat) (b : bool) :
  exercisedBy calc n exercised l !! q = Some true ->
  exercisedBy calc n exercised (l ++ l') !! q = Some b ->
  b = true.
Proof.
  unfold exercisedBy. intros Hl Hb.
  eapply foldl_or_sticky; [exact Hb|].
  apply foldl_or_true_inv in Hl as [Hl|(v & Hv & Hq)]; [by left|].
  right. exists v. split; [|done].
  apply elem_of_take in Hv as (i & Hi & Hlt). apply elem_of_take.
  exists i. split; [done|]. pose proof (exCount_app_le l l'). lia.
Qed.

Lemma exercisedBy_is_Some (n : nat) (l : list Real) (q : nat) :
  q < n -> (forall e, e ∈ exercised -> q < length e) ->
  is_Some (exercisedBy calc n exercised l !! q).
Proof.
  intros Hq Hall. unfold exercisedBy. apply foldl_or_is_Some.
  - unfold filter_const. rewrite lookup_replicate_2 by done. eauto.
  - intros v Hv. apply lookup_lt_is_Some, Hall.
    apply subseteq_take in Hv. by apply subseteq_drop in Hv.
Qed.

Lemma xvaPrefixesFrom_app (l1 l2 seen : list Real) :
  xvaPrefixesFrom calc seen (l1 ++ l2) =
    xvaPrefixesFrom calc seen l1 ++ xvaPrefixesFrom calc (seen ++ l1) l2.
Proof.
  revert seen. induction l1 as [|u l1 IH]; intros seen; simpl.
  - by rewrite app_nil_r.
  - rewrite IH, <- !app_assoc. reflexivity.
Qed.

(** A path exercised by a valuation time is accounted for at every later
    time. *)
Lemma accountedBefore_after (n : nat) (pre mid : list Real) (t : Real) (q : nat) (b : bool) :
  set_mem t (xvaTimes_ calc) = true ->
  exercisedBy calc n exercised (pre ++ [t]) !! q = Some true ->
  accountedBefore calc n exercised (pre ++ t :: mid) !! q = Some b ->
  b = true.
Proof.
  intros Hxva Hw Hb. unfold accountedBefore in Hb.
  eapply foldl_or_sticky; [exact Hb|]. right.
  exists (exercisedBy calc n exercised (pre ++ [t])). split; [|done].
  apply list_elem_of_fmap_2.
  replace (pre ++ t :: mid) with ((pre ++ [t]) ++ mid) by (by rewrite <- app_assoc).
  rewrite xvaPrefixesFrom_app, xvaPrefixesFrom_snoc, Hxva.
  apply elem_of_app. left. apply elem_of_app. right. by left.
Qed.

Lemma accountedBefore_is_Some (n : nat) (l : list Real) (q : nat) :
  q < n -> (forall e, e ∈ exercised -> q < length e) ->
  is_Some (accountedBefore calc n exercised l !! q).
Proof.
  intros Hq Hall. unfold accountedBefore. apply foldl_or_is_Some.
  - unfold filter_const. rewrite lookup_replicate_2 by done. eauto.
  - intros v (l' & -> & _)%list_elem_of_fmap_1. by apply exercisedBy_is_Some.
Qed.

(** the loop, from any point on: the invariant, the length of the result
    and the entries written before are kept *)
Lemma replayLoop_spec (l : list Real) :
  forall (l0 : list Real) (st0 st : ReplayState Real),
    ReplayInv calc p exercised l0 st0 ->
    foldM (replayStep calc (samples p) (effPaths p) exercised) l st0 = Ok st ->
    ReplayInv calc p exercised (l0 ++ l) st /\
    length (result st) = length (result st0) /\
    forall j, j <= xvaCount calc l0 -> result st !! j = result st0 !! j.
Proof.
  induction l as [|t l IH]; intros l0 st0 st Hinv Hloop; simpl in Hloop.
  - injection Hloop as <-. by rewrite app_nil_r.
  - apply bind_Ok in Hloop as (st1 & Hstep & Hloop).
    destruct (replayStep_spec _ _ _ _ _ _ _ Hinv Hstep) as [Hinv1 Hres].
    destruct (IH _ _ _ Hinv1 Hloop) as (Hinv' & Hlen & Hframe).
    rewrite <- app_assoc in Hinv'. split; [exact Hinv'|].
    assert (xvaCount calc l0 <= xvaCount calc (l0 ++ [t])) as Hle.
    { rewrite xvaCount_snoc. lia. }
    destruct (set_mem t (xvaTimes_ calc)).
    + destruct Hres as (v & _ & Hlt & Hres). rewrite Hres, length_insert in Hlen.
      split; [exact Hlen|]. intros j Hj. rewrite Hframe, Hres by lia.
      apply list_lookup_insert_ne. lia.
    + rewrite Hres in *. split; [exact Hlen|]. intros j Hj. apply Hframe. lia.
Qed.

(** The entry of the result for a valuation time is [replayEntry]. *)
Lemma populate_entry (pre post : list Real) (t : Real) (st : ReplayState Real) :
  populate calc p exercised (pre ++ t :: post) = Ok st ->
  set_mem t (xvaTimes_ calc) = true ->
  exists v, replayEntry calc p exercised pre t = Some v /\
            result st !! (xvaCount calc pre + 1) = Some v.
Proof.
  unfold populate. intros Hloop Hxva.
  apply foldM_split in Hloop as (s1 & s2 & Hpre & Hstep & Hpost).
  destruct (replayLoop_spec _ _ _ _ (ReplayInv_start calc p exercised) Hpre)
    as (Hinv1 & _ & _). simpl in Hinv1.
  destruct (replayStep_spec _ _ _ _ _ _ _ Hinv1 Hstep) as [Hinv2 Hres].
  rewrite Hxva in Hres. destruct Hres as (v & Hv & Hlt & Hres).
  destruct (replayLoop_spec _ _ _ _ Hinv2 Hpost) as (_ & _ & Hframe).
  exists v. split; [exact Hv|].
  rewrite Hframe by (rewrite xvaCount_snoc, Hxva; lia).
  rewrite Hres. by apply list_lookup_insert_eq.
Qed.
End ReplayLoop.

(** *** The forward replay calculator: [simulatePath] *)

Section SimulatePathFacts.
Context {Real : Type} `{Regression Real}.
Variable calc : MultiLegBaseAmcCalculator Real.

Lemma simulatePath_exercise_inv (exercised_ : list (list bool)) (pathTimes : list Real)
    (paths : list (list (list Real))) (isRelevantTime : list bool) (sticky : bool)
    (res : list (list Real)) (ex : list (list bool)) :
  exerciseTimes_ calc <> [] ->
  simulatePath calc exercised_ pathTimes paths isRelevantTime sticky = Ok (res, ex) ->
  exists p st,
    prologue calc pathTimes paths isRelevantTime sticky = Ok p /\
    indicators calc p exercised_ sticky = Ok ex /\
    populate calc p ex (exerciseXvaTimes_ calc) = Ok st /\
    res = result st.
Proof.
  intros Hne Hsim. unfold simulatePath in Hsim.
  apply bind_Ok in Hsim as (p & Hp & Hsim). simpl in Hsim.
  destruct (exerciseTimes_ calc) as [|t ts] eqn:Hts; [done|].
  apply bind_Ok in Hsim as (ex' & Hex & Hsim). simpl in Hsim.
  apply bind_Ok in Hsim as (st & Hst & Hsim). simpl in Hsim.
  injection Hsim as <- <-. exists p, st. eauto.
Qed.

Lemma prologue_result0 (pathTimes : list Real) (paths : list (list (list Real)))
    (isRelevantTime : list bool) (sticky : bool) (p : Prologue Real) :
  prologue calc pathTimes paths isRelevantTime sticky = Ok p ->
  exists m, result0 p =
              <[0 := rv (samples p) (resultValue_ calc)]>
                (replicate (m + 1) (rv (samples p) rzero)).
Proof.
  unfold prologue. intros Hp. inv_outcome. simpl. eauto.
Qed.

Lemma replayEntry_floored (p : Prologue Real) (ex : list (list bool)) (pre : list Real)
    (t : Real) (v : list Real) :
  replayEntry calc p ex pre t = Some v ->
  exists x, v = rv_max (rv (samples p) rzero) x.
Proof.
  unfold replayEntry. intros Hv.
  destruct (settledValueAt calc p ex pre t); simpl in Hv; [|discriminate].
  destruct (regressionAt calc p (coeffsOption_ calc) (length pre) (xvaCount calc pre));
    simpl in Hv; [|discriminate].
  injection Hv as <-. eauto.
Qed.

Lemma replayLoop_floored `{!RealLaws Real} (p : Prologue Real) (ex : list (list bool))
    (l : list Real) :
  forall (l0 : list Real) (st0 st : ReplayState Real),
    ReplayInv calc p ex l0 st0 -> floored (result st0) ->
    foldM (replayStep calc (samples p) (effPaths p) ex) l st0 = Ok st ->
    floored (result st).
Proof.
  induction l as [|t l IH]; intros l0 st0 st Hinv Hfl Hloop; simpl in Hloop.
  - by injection Hloop as <-.
  - apply bind_Ok in Hloop as (st1 & Hstep & Hloop).
    destruct (replayStep_spec _ _ _ _ _ _ _ Hinv Hstep) as [Hinv1 Hres].
    eapply IH; [exact Hinv1| |exact Hloop].
    destruct (set_mem t (xvaTimes_ calc)); [|by rewrite Hres].
    destruct Hres as (v & Hv & Hlt & ->).
    apply replayEntry_floored in Hv as [x ->].
    intros k w Hk Hw.
    destruct (decide (k = xvaCount calc l0 + 1)) as [->|Hne].
    + rewrite list_lookup_insert_eq in Hw by done. injection Hw as <-.
      apply rv_max_zero_nonneg.
    + rewrite list_lookup_insert_ne in Hw by done. eauto.
Qed.

(** the loop of the branch without exercise times, from any point on *)
Lemma dirtyLoop_spec (eff : list (list (list Real))) (l : list Real) :
  forall (k k' : nat) (res res' : list (list Real)),
    foldM (dirtyStep calc eff) l (k, res) = Ok (k', res') ->
    k' = k + length l /\ forall j, j <= k -> res' !! j = res !! j.
Proof.
  induction l as [|t l IH]; intros k k' res res' Hloop; simpl in Hloop.
  - simplify_eq. simpl. split; [lia | done].
  - apply bind_Ok in Hloop as ([k1 res1] & Hstep & Hloop).
    apply IH in Hloop as [-> Hframe]. unfold dirtyStep in Hstep.
    destruct (set_find t (exerciseXvaTimes_ calc)); [|discriminate].
    inv_outcome. simpl. split; [lia|].
    intros j Hj. rewrite Hframe by lia. apply list_lookup_insert_ne. lia.
Qed.

(** In the branch without exercise times, the entry of the result for a
    valuation time is the dirty value regression, as it is. *)
Lemma dirtyLoop_entry (eff : list (list (list Real))) (pre post : list Real) (t : Real)
    (res0 res : list (list Real)) (k : nat) :
  foldM (dirtyStep calc eff) (pre ++ t :: post) (0, res0) = Ok (k, res) ->
  exists ind e coeffs,
    set_find t (exerciseXvaTimes_ calc) = Some ind /\
    eff !! length pre = Some e /\
    coeffsUndDirty_ calc !! ind = Some coeffs /\
    res !! (length pre + 1) = Some (conditionalExpectation e (basisFns_ calc) coeffs).
Proof.
  intros Hloop.
  apply foldM_split in Hloop as ([k1 res1] & [k2 res2] & Hpre & Hstep & Hpost).
  apply dirtyLoop_spec in Hpre as [-> _]. simpl in Hstep.
  apply dirtyLoop_spec in Hpost as [_ Hframe]. unfold dirtyStep in Hstep.
  destruct (set_find t (exerciseXvaTimes_ calc)) as [ind|]; [|discriminate].
  apply bind_Ok in Hstep as (e & He%index_Ok & Hstep). simpl in Hstep.
  apply bind_Ok in Hstep as (coeffs & Hc%index_Ok & Hstep). simpl in Hstep.
  apply bind_Ok in Hstep as (res' & [Hlt ->]%assign_Ok & Hstep). simpl in Hstep.
  injection Hstep as <- <-.
  exists ind, e, coeffs. repeat split; try done.
  rewrite Hframe by lia. by apply list_lookup_insert_eq.
Qed.
End SimulatePathFacts.

(** *** The rational numbers satisfy the order laws *)

Lemma Qltb_lt (x y : Q) : Qltb x y = true <-> (x < y)%Q.
Proof.
  unfold Qltb. rewrite negb_true_iff, <- not_true_iff_false, Qle_bool_iff.
  split; [apply Qnot_le_lt | apply Qlt_not_le].
Qed.

#[global] Instance Q_RealLaws : RealLaws Q.
Proof.
  split; simpl.
  - intros x. apply Qle_bool_iff, Qle_refl.
  - intros x y Hlt%Qltb_lt. by apply Qle_bool_iff, Qlt_le_weak.
  - intros x y z Hxy%Qltb_lt Hyz%Qltb_lt. apply Qltb_lt. by eapply Qlt_trans.
Qed.

(** *** Properties of the forward replay calculator *)

Section ReplayProperties.
Context {Real : Type} `{Regression Real}.

(** C10.  In a call with [stickyCloseOutRun = false], when an exercise time
    [t] is greater than every valuation time, the loop that computes the
    indicators stops there: the indicators are those computed over the
    exercise times before [t], and the indicator of [t] and of every later
    exercise time is false on every path. *)
Theorem exercise_after_last_valuation_time (calc : MultiLegBaseAmcCalculator Real)
    (exercised_ : list (list bool)) (pathTimes : list Real)
    (paths : list (list (list Real))) (isRelevantTime : list bool)
    (res : list (list Real)) (ex : list (list bool)) (p : Prologue Real)
    (pre post : list Real) (t : Real) :
  exerciseTimes_ calc = pre ++ t :: post ->
  Forall (fun x => rltb x t = true) (xvaTimes_ calc) ->
  simulatePath calc exercised_ pathTimes paths isRelevantTime false = Ok (res, ex) ->
  prologue calc pathTimes paths isRelevantTime false = Ok p ->
  exerciseLoop calc (samples p) (effPaths p) (initialState p) pre 0
    (replicate (length (exerciseTimes_ calc) + 1) (filter_const (samples p) false)) = Ok ex /\
  forall j, length pre < j <= length (exerciseTimes_ calc) ->
            ex !! j = Some (filter_const (samples p) false).
Proof.
  intros Hts Hlast Hsim Hp.
  apply simulatePath_exercise_inv in Hsim as (p' & st & Hp' & Hex & _);
    [|rewrite Hts; by destruct pre].
  rewrite Hp in Hp'. injection Hp' as <-.
  unfold indicators in Hex. rewrite Hts in Hex at 1.
  apply exerciseLoop_break in Hex; [|by apply lower_bound_None].
  split; [exact Hex|]. intros j [Hlo Hhi].
  erewrite exerciseLoop_frame; [|exact Hex|simpl; lia].
  apply lookup_replicate_2. lia.
Qed.

(** C5, amended.  When the calculator has at least one exercise time, every
    value returned by [simulatePath] for a valuation time is greater than or
    equal to zero on every path.  When it has no exercise time, the value
    returned for a valuation time is the dirty value regression at the state
    supplied for that time, as it is: no floor is applied. *)
Theorem replay_values_floored `{!RealLaws Real} (calc : MultiLegBaseAmcCalculator Real)
    (exercised_ : list (list bool)) (pathTimes : list Real)
    (paths : list (list (list Real))) (isRelevantTime : list bool) (sticky : bool)
    (res : list (list Real)) (ex : list (list bool)) (p : Prologue Real) :
  simulatePath calc exercised_ pathTimes paths isRelevantTime sticky = Ok (res, ex) ->
  prologue calc pathTimes paths isRelevantTime sticky = Ok p ->
  (exerciseTimes_ calc <> [] ->
   forall (k q : nat) (x : Real),
     0 < k -> entryOf res k q = Some x -> rleb rzero x = true) /\
  (exerciseTimes_ calc = [] ->
   forall (pre post : list Real) (t : Real),
     xvaTimes_ calc = pre ++ t :: post ->
     exists (ind : nat) (eff : list (list Real)) (coeffs : list Real),
       set_find t (exerciseXvaTimes_ calc) = Some ind /\
       effPaths p !! length pre = Some eff /\
       coeffsUndDirty_ calc !! ind = Some coeffs /\
       res !! (length pre + 1) = Some (conditionalExpectation eff (basisFns_ calc) coeffs)).
Proof.
  intros Hsim Hp. split.
  - intros Hne k q x Hk Hx.
    apply simulatePath_exercise_inv in Hsim as (p' & st & Hp' & _ & Hpop & ->); [|done].
    rewrite Hp in Hp'. injection Hp' as <-.
    assert (floored (result st)) as Hfl.
    { eapply (replayLoop_floored calc p ex); [apply ReplayInv_start| |exact Hpop].
      simpl. apply prologue_result0 in Hp as [m ->].
      intros j v Hj Hv. rewrite list_lookup_insert_ne in Hv by lia.
      apply lookup_replicate in Hv as [-> _]. apply rv_zero_nonneg. }
    unfold entryOf in Hx. destruct (result st !! k) as [v|] eqn:Hv; [|discriminate].
    simpl in Hx. specialize (Hfl k v Hk Hv).
    rewrite Forall_lookup in Hfl. eauto.
  - intros Hnone pre post t Hts. unfold simulatePath in Hsim.
    rewrite Hp, Hnone in Hsim. simpl in Hsim.
    apply bind_Ok in Hsim as ([k res'] & Hloop & Hsim). simpl in Hsim.
    injection Hsim as <- <-. rewrite Hts in Hloop.
    by apply dirtyLoop_entry in Hloop.
Qed.

(** C1, amended.  In a call on a calculator with exercise times, the entry
    of the result for a valuation time is built per path from three cases:
    on the paths exercised at the latest exercise time up to this valuation
    time, the exercise-into regression; on the paths exercised at an earlier
    exercise time, the dirty value regression; on the paths not exercised,
    the option value regression; all evaluated at the state supplied for the
    valuation time.  Under cash settlement the first two cases are replaced
    by zero on the paths already accounted for.  The entry is then floored
    at zero. *)
Theorem replay_entry_three_cases (calc : MultiLegBaseAmcCalculator Real)
    (exercised_ : list (list bool)) (pathTimes : list Real)
    (paths : list (list (list Real))) (isRelevantTime : list bool) (sticky : bool)
    (res : list (list Real)) (ex : list (list bool)) (p : Prologue Real)
    (pre post : list Real) (t : Real) :
  exerciseTimes_ calc <> [] ->
  simulatePath calc exercised_ pathTimes paths isRelevantTime sticky = Ok (res, ex) ->
  prologue calc pathTimes paths isRelevantTime sticky = Ok p ->
  exerciseXvaTimes_ calc = pre ++ t :: post ->
  set_mem t (xvaTimes_ calc) = true ->
  exists v, replayEntry calc p ex pre t = Some v /\
            res !! (xvaCount calc pre + 1) = Some v.
Proof.
  intros Hne Hsim Hp Hts Hxva.
  apply simulatePath_exercise_inv in Hsim as (p' & st & Hp' & _ & Hpop & ->); [|done].
  rewrite Hp in Hp'. injection Hp' as <-.
  rewrite Hts in Hpop. by apply populate_entry in Hpop.
Qed.
End ReplayProperties.

Section ReplayPathProperties.
Context {Real : Type} `{Regression Real}.

(** the entry [replayEntry] read on one path *)
Lemma replayEntry_path (calc : MultiLegBaseAmcCalculator Real) (p : Prologue Real)
    (ex : list (list bool)) (pre : list Real) (t : Real)
    (E O v : list Real) (q : nat) (e o : Real) (a : bool) :
  replayEntry calc p ex pre t = Some v ->
  exercisedValueAt calc p ex pre t = Some E ->
  regressionAt calc p (coeffsOption_ calc) (length pre) (xvaCount calc pre) = Some O ->
  q < samples p ->
  exercisedBy calc (samples p) ex (pre ++ [t]) !! q = Some true ->
  accountedBefore calc (samples p) ex pre !! q = Some a ->
  E !! q = Some e -> O !! q = Some o ->
  v !! q = Some (rmax rzero match settlement_ calc with
                            | Cash => if a then rzero else e
                            | Physical => e
                            end).
Proof.
  intros Hv HE HO Hq Hw Ha He Ho.
  unfold replayEntry, settledValueAt in Hv. rewrite HE, HO in Hv. simpl in Hv.
  injection Hv as <-.
  rewrite lookup_rv_max, lookup_rv, decide_True by done. simpl.
  rewrite lookup_conditionalResult, Hw. simpl.
  destruct (settlement_ calc).
  - rewrite He, Ho. reflexivity.
  - rewrite lookup_applyInverseFilter, He, Ha, Ho. reflexivity.
Qed.

(** C6, amended.  Take a path [q] exercised by the valuation time [t], the
    first valuation time at or after its exercise (the path is not accounted
    for before [t]).  The entry of the result for [t] is the exercised value
    on this path, floored at zero; the exercised value is the exercise-into
    regression when the path is marked at the latest exercise time up to
    [t], and the dirty value regression otherwise.  At every later valuation
    time [t'] the entry is zero under cash settlement, the mask of the paths
    accounted for having removed the exercised value, and it is the
    exercised value at [t'], floored at zero, under physical settlement. *)
Theorem exercised_value_cash_once_physical_always
    (calc : MultiLegBaseAmcCalculator Real)
    (exercised_ : list (list bool)) (pathTimes : list Real)
    (paths : list (list (list Real))) (isRelevantTime : list bool) (sticky : bool)
    (res : list (list Real)) (ex : list (list bool)) (p : Prologue Real)
    (pre post : list Real) (t : Real) (q : nat) (E O : list Real) (e o : Real) :
  exerciseTimes_ calc <> [] ->
  simulatePath calc exercised_ pathTimes paths isRelevantTime sticky = Ok (res, ex) ->
  prologue calc pathTimes paths isRelevantTime sticky = Ok p ->
  exerciseXvaTimes_ calc = pre ++ t :: post ->
  set_mem t (xvaTimes_ calc) = true ->
  q < samples p ->
  (forall f, f ∈ ex -> q < length f) ->
  exercisedBy calc (samples p) ex (pre ++ [t]) !! q = Some true ->
  accountedBefore calc (samples p) ex pre !! q = Some false ->
  exercisedValueAt calc p ex pre t = Some E ->
  regressionAt calc p (coeffsOption_ calc) (length pre) (xvaCount calc pre) = Some O ->
  E !! q = Some e -> O !! q = Some o ->
  entryOf res (xvaCount calc pre + 1) q = Some (rmax rzero e) /\
  (forall (latest X : list _) (x : Real),
     ex !! exCount calc (pre ++ [t]) = Some latest -> latest !! q = Some true ->
     regressionAt calc p (coeffsUndExInto_ calc) (length pre) (xvaCount calc pre) = Some X ->
     X !! q = Some x ->
     e = x) /\
  forall (mid post' : list Real) (t' : Real) (E' O' : list Real) (e' o' : Real),
    post = mid ++ t' :: post' ->
    set_mem t' (xvaTimes_ calc) = true ->
    exercisedValueAt calc p ex (pre ++ t :: mid) t' = Some E' ->
    regressionAt calc p (coeffsOption_ calc) (length (pre ++ t :: mid))
      (xvaCount calc (pre ++ t :: mid)) = Some O' ->
    E' !! q = Some e' -> O' !! q = Some o' ->
    entryOf res (xvaCount calc (pre ++ t :: mid) + 1) q =
      Some match settlement_ calc with
           | Cash => rzero
           | Physical => rmax rzero e'
           end.
Proof.
  intros Hne Hsim Hp Hts Hxva Hq Hcover Hw Ha HE HO He Ho.
  apply simulatePath_exercise_inv in Hsim as (p' & st & Hp' & _ & Hpop & ->); [|done].
  rewrite Hp in Hp'. injection Hp' as <-. split; [|split].
  - rewrite Hts in Hpop. apply populate_entry in Hpop as (v & Hv & Hres); [|done].
    unfold entryOf. rewrite Hres. simpl.
    erewrite replayEntry_path; [|done..]. by destruct (settlement_ calc).
  - intros latest X x Hlatest Hl HX Hx. unfold exercisedValueAt in HE.
    rewrite Hlatest, HX in HE. simpl in HE.
    destruct (regressionAt calc p (coeffsUndDirty_ calc) (length pre) (xvaCount calc pre))
      as [D|]; simpl in HE; [|discriminate].
    injection HE as <-. rewrite lookup_conditionalResult, Hl, Hx in He. simpl in He.
    destruct (D !! q); simpl in He; congruence.
  - intros mid post' t' E' O' e' o' -> Hxva' HE' HO' He' Ho'.
    replace (pre ++ t :: mid ++ t' :: post') with ((pre ++ t :: mid) ++ t' :: post')
      in Hts by (by rewrite <- app_assoc).
    rewrite Hts in Hpop. apply populate_entry in Hpop as (v & Hv & Hres); [|done].
    unfold entryOf. rewrite Hres. simpl.
    destruct (exercisedBy_is_Some calc ex (samples p) ((pre ++ t :: mid) ++ [t']) q Hq Hcover)
      as [w' Hw'].
    assert (w' = true) as ->.
    { eapply (exercisedBy_sticky calc ex (samples p) (pre ++ [t]) (mid ++ [t'])); [done|].
      by rewrite <- !app_assoc in *. }
    destruct (accountedBefore_is_Some calc ex (samples p) (pre ++ t :: mid) q Hq Hcover)
      as [a' Ha'].
    assert (a' = true) as ->
      by exact (accountedBefore_after calc ex (samples p) pre mid t q a' Hxva Hw Ha').
    erewrite replayEntry_path; [|done..].
    destruct (settlement_ calc); [reflexivity|]. by rewrite rmax_zero_zero.
Qed.

(** C4, amended.  The indicator recorded for an exercise time marks the
    paths exercised at that time: it is true on a path only if the
    indicator recorded for the exercise time before is false on that path.
    The flag accumulated from the indicators over the increasing times,
    [wasExercised], is the one that never decreases: once true on a path it
    is true at every later time. *)
Theorem exercise_indicators_and_running_flag (calc : MultiLegBaseAmcCalculator Real)
    (exercised_ : list (list bool)) (pathTimes : list Real)
    (paths : list (list (list Real))) (isRelevantTime : list bool)
    (res : list (list Real)) (ex : list (list bool)) (p : Prologue Real) :
  exerciseTimes_ calc <> [] ->
  simulatePath calc exercised_ pathTimes paths isRelevantTime false = Ok (res, ex) ->
  prologue calc pathTimes paths isRelevantTime false = Ok p ->
  (forall (j q : nat) (prev cur : list bool),
     ex !! j = Some prev -> ex !! S j = Some cur -> cur !! q = Some true ->
     prev !! q = Some false) /\
  (forall (l1 l2 : list Real) (st1 st2 : ReplayState Real) (q : nat) (b : bool),
     populate calc p ex l1 = Ok st1 ->
     populate calc p ex (l1 ++ l2) = Ok st2 ->
     wasExercised st1 !! q = Some true ->
     wasExercised st2 !! q = Some b ->
     b = true).
Proof.
  intros Hne Hsim Hp.
  apply simulatePath_exercise_inv in Hsim as (p' & st & Hp' & Hex & _); [|done].
  rewrite Hp in Hp'. injection Hp' as <-. split.
  - unfold indicators in Hex.
    eapply exerciseLoop_alternating in Hex; [exact Hex|apply alternating_start|].
    intros j _ Hj. rewrite length_replicate in Hj. by apply lookup_replicate_2.
  - intros l1 l2 st1 st2 q b H1 H2 Hq1 Hq2. unfold populate in *.
    destruct (replayLoop_spec calc p ex _ _ _ _ (ReplayInv_start calc p ex) H1) as ([] & _).
    destruct (replayLoop_spec calc p ex _ _ _ _ (ReplayInv_start calc p ex) H2) as ([] & _).
    simpl in *.
    match goal with
    | Ha : wasExercised st1 = _, Hb : wasExercised st2 = _ |- _ =>
        rewrite Ha in Hq1; rewrite Hb in Hq2
    end.
    by eapply exercisedBy_sticky.
Qed.
End ReplayPathProperties.

(** *** Properties of the cash-flow classifier *)

Section ClassifierProperties.
Context {Real : Type} `{CrossAssetModel Real}.

Lemma unwrap_residualFlow (flow : CashFlow Real) : (unwrap flow).1 = residualFlow flow.
Proof.
  unfold unwrap, residualFlow.
  destruct flow as [| | |? ? ? ? ? ? ? und|? ? und|? ? ? ? und| | |]; simpl; try reflexivity;
    destruct und as [| | |? ? ? ? ? ? ? und'|? ? und'|? ? ? ? und'| | |]; simpl;
    try reflexivity;
    destruct und' ; reflexivity.
Qed.

(** what [createCashflowInfo] returns, when it returns *)
Lemma createCashflowInfo_Ok (flow : CashFlow Real) (payCcy : Currency) (payer' : Real)
    (legNo' cfNo' : nat) (info : CashflowInfo Real) :
  createCashflowInfo flow payCcy payer' legNo' cfNo' = Ok info ->
  payTime info = time (flowDate flow) /\
  match asCoupon flow with
  | Some start => (start < flowDate flow)%Z /\
                  exIntoCriterionTime info = radd (time start) tinyTime
  | None => exIntoCriterionTime info = payTime info
  end.
Proof.
  unfold createCashflowInfo. intros Hinfo.
  apply bind_Ok in Hinfo as (cutoff & Hcutoff & Hinfo). simpl in Hinfo.
  assert (payTime info = time (flowDate flow) /\ exIntoCriterionTime info = cutoff)
    as [Hpay Hex].
  { repeat case_match; simplify_eq; simpl; done. }
  split; [exact Hpay|].
  destruct (asCoupon flow) as [start|].
  - case_bool_decide; [|discriminate]. injection Hcutoff as <-. done.
  - injection Hcutoff as <-. congruence.
Qed.

(** When the time measure of the curve separates two different dates by
    [tinyTime] at least, the exercise-into cutoff time of a descriptor is
    less than or equal to its pay time: for a coupon the cutoff is the
    accrual start time plus [tinyTime], for any other flow it is the pay
    time. *)
Theorem exercise_into_cutoff_le_pay_time `{!RealLaws Real} (flow : CashFlow Real)
    (payCcy : Currency) (payer' : Real) (legNo' cfNo' : nat) (info : CashflowInfo Real) :
  (forall d1 d2 : Date, (d1 < d2)%Z -> rleb (radd (time d1) tinyTime) (time d2) = true) ->
  createCashflowInfo flow payCcy payer' legNo' cfNo' = Ok info ->
  rleb (exIntoCriterionTime info) (payTime info) = true /\
  exIntoCriterionTime info =
    match asCoupon flow with
    | Some start => radd (time start) tinyTime
    | None => payTime info
    end.
Proof.
  intros Hgap Hinfo. apply createCashflowInfo_Ok in Hinfo as [Hpay Hcut].
  destruct (asCoupon flow) as [start|].
  - destruct Hcut as [Hlt ->]. rewrite Hpay. split; [by apply Hgap | reflexivity].
  - rewrite Hcut. split; [apply rleb_refl | reflexivity].
Qed.

(** the failure of [createCashflowInfo] on a flow outside the supported
    shapes *)
Lemma createCashflowInfo_unsupported (flow : CashFlow Real) (payCcy : Currency)
    (payer' : Real) (legNo' cfNo' : nat) :
  supportedShape flow = false ->
  createCashflowInfo flow payCcy payer' legNo' cfNo' =
    Fail match asCoupon flow with
         | Some start =>
             if bool_decide (start < flowDate flow)%Z
             then UnhandledCoupon legNo' cfNo'
             else AccrualStartNotBeforePay legNo' cfNo'
         | None => UnhandledCoupon legNo' cfNo'
         end.
Proof.
  intros Hshape. unfold createCashflowInfo.
  pose proof (unwrap_residualFlow flow) as Hres.
  destruct (unwrap flow) as [flow' w]. simpl in Hres. subst flow'.
  unfold supportedShape in Hshape.
  destruct flow; try discriminate; simpl; try reflexivity;
    try (case_bool_decide; simpl; [|reflexivity]);
    destruct (residualFlow _); try discriminate; reflexivity.
Qed.
End ClassifierProperties.

(** *** Properties of the backward-induction calibrator *)

Section CalibratorProperties.
Context {Real : Type} `{RealOps Real} `{!CrossAssetModel Real} `{!Regression Real}.

Import McMultiLegBaseEngine.

(** the classification of the legs fails when that of one alive flow does *)
Lemma classifyLegs_fails (e : McMultiLegBaseEngine.t Real) (leg : list (CashFlow Real))
    (flow : CashFlow Real) :
  leg ∈ leg_ e -> flow ∈ leg -> (today_ < flowDate flow)%Z ->
  supportedShape flow = false ->
  exists err, classifyLegs e = Fail err.
Proof.
  intros Hleg Hflow Halive Hshape. unfold classifyLegs.
  match goal with |- context [foldM ?f ?l ?s0] =>
    assert (exists err, foldM f l s0 = Fail err) as [err Herr] end.
  { apply (foldM_fails _ _ leg Hleg). intros [legNo' acc].
    destruct (index (currency_ e) legNo') as [ccy|]; simpl; [|eauto].
    destruct (index (payer_ e) legNo') as [pay|]; simpl; [|eauto].
    unfold classifyLeg.
    match goal with |- context [foldM ?f ?l ?s0] =>
      assert (exists err, foldM f l s0 = Fail err) as [err Herr] end.
    { apply (foldM_fails _ _ flow Hflow). intros [cashflowNo acc'].
      rewrite bool_decide_eq_false_2 by lia.
      rewrite createCashflowInfo_unsupported by done. simpl. eauto. }
    rewrite Herr. simpl. eauto. }
  rewrite Herr. simpl. eauto.
Qed.

(** C8, amended.  For a flow paying after today whose shape is none of the
    supported ones, [createCashflowInfo] fails: with the unhandled coupon
    error that names the leg and the cash flow counter, or, when the flow is
    a coupon whose accrual start date is not before its pay date, with the
    accrual start error that the classifier checks first.  With such a flow
    in one of its legs, [calculate] fails before a single path is drawn. *)
Theorem unsupported_flow_aborts_valuation (e : McMultiLegBaseEngine.t Real)
    (leg : list (CashFlow Real)) (flow : CashFlow Real)
    (payCcy : Currency) (payer' : Real) (legNo' cfNo' : nat) :
  leg ∈ leg_ e -> flow ∈ leg -> (today_ < flowDate flow)%Z ->
  supportedShape flow = false ->
  createCashflowInfo flow payCcy payer' legNo' cfNo' =
    Fail match asCoupon flow with
         | Some start =>
             if bool_decide (start < flowDate flow)%Z
             then UnhandledCoupon legNo' cfNo'
             else AccrualStartNotBeforePay legNo' cfNo'
         | None => UnhandledCoupon legNo' cfNo'
         end /\
  exists err, calculate e = (0, Fail err).
Proof.
  intros Hleg Hflow Halive Hshape. split; [by apply createCashflowInfo_unsupported|].
  destruct (classifyLegs_fails e leg flow Hleg Hflow Halive Hshape) as [err Herr].
  unfold calculate, prepare. rewrite Herr.
  repeat (destruct (require _ _) as [[]|?]; simpl); eauto.
Qed.

(** C2.  For an instrument without exercise schedule, the option value set
    by [calculate] is the underlying value. *)
Theorem no_exercise_value_is_underlying_value (e : McMultiLegBaseEngine.t Real)
    (r : McMultiLegBaseEngine.Results Real) :
  exercise_ e = None ->
  (calculate e).2 = Ok r ->
  McMultiLegBaseEngine.resultValue_ r = resultUnderlyingNpv_ r.
Proof.
  intros Hnone Hcalc. unfold calculate in Hcalc.
  destruct (prepare e) as [[cashflowInfo ts]|err]; simpl in Hcalc; [|discriminate].
  unfold calibrate in Hcalc. rewrite Hnone in Hcalc.
  apply bind_Ok in Hcalc as (st & _ & Hcalc). simpl in Hcalc.
  apply bind_Ok in Hcalc as (dirty & _ & Hcalc). simpl in Hcalc.
  apply bind_Ok in Hcalc as (und & _ & Hcalc). simpl in Hcalc.
  injection Hcalc as <-. reflexivity.
Qed.

(** the loop over the cash flows leaves the option value, the counter and
    the coefficients alone *)
Lemma updateCashflows_frame
    (cashflowInfo : list (CashflowInfo Real)) (ts : TimeSets Real)
    (pathValues : list (list (list Real))) (t : Real) (l : list nat)
    (st st1 : CalibrationState Real) :
  foldM (updateCashflow cashflowInfo ts pathValues t) l st = Ok st1 ->
  pathValueOption st1 = pathValueOption st /\
  McMultiLegBaseEngine.counter st1 = McMultiLegBaseEngine.counter st /\
  coeffsUndExInto st1 = coeffsUndExInto st /\
  coeffsContinuationValue st1 = coeffsContinuationValue st /\
  coeffsOption st1 = coeffsOption st.
Proof.
  apply (foldM_invariant
           (fun s => pathValueOption s = pathValueOption st /\
                     McMultiLegBaseEngine.counter s = McMultiLegBaseEngine.counter st /\
                     coeffsUndExInto s = coeffsUndExInto st /\
                     coeffsContinuationValue s = coeffsContinuationValue st /\
                     coeffsOption s = coeffsOption st)); [|done].
  intros s i s' Hs Hstep. unfold updateCashflow in Hstep.
  apply bind_Ok in Hstep as (status & _ & Hstep). simpl in Hstep.
  apply bind_Ok in Hstep as (info & _ & Hstep). simpl in Hstep.
  destruct status; repeat case_match; inv_outcome; simpl; done.
Qed.

End CalibratorProperties.

(** *** The examples *)

(** The time measure of the example model separates two different dates by
    more than [tinyTime]. *)
Lemma Q_time_gap (d1 d2 : Date) :
  (d1 < d2)%Z -> rleb (radd (time d1) tinyTime) (time d2) = true.
Proof.
  intros Hlt. simpl. apply Qle_bool_iff. unfold time, tinyTime. simpl.
  assert (inject_Z d1 + 1 <= inject_Z d2)%Q as Hstep.
  { unfold Qle. simpl. lia. }
  unfold Qdiv. change (/ 365)%Q with (1 # 365)%Q.
  apply Qle_trans with ((inject_Z d1 + 1) * (1 # 365))%Q.
  - rewrite Qmult_plus_distr_l. apply Qplus_le_r. by vm_compute.
  - apply Qmult_le_compat_r; [exact Hstep | by vm_compute].
Qed.

(** C1, as stated, fails.  On [calcA] no path is exercised, and the entries
    of the result for the valuation times are the option value regression
    [5], not the dirty value regression [3]. *)
Lemma replay_entry_two_cases_counterexample :
  ~ (forall res ex p pre t post,
       simulatePath calcA [] [1; 2]%Q (flatPaths 2) [true; true] false = Ok (res, ex) ->
       prologue calcA [1; 2]%Q (flatPaths 2) [true; true] false = Ok p ->
       exerciseXvaTimes_ calcA = pre ++ t :: post ->
       set_mem t (xvaTimes_ calcA) = true ->
       res !! (xvaCount calcA pre + 1) = twoCaseEntry calcA p ex pre t).
Proof.
  intros Hclaim.
  specialize (Hclaim [[7]; [5]; [5]]%Q [[false]; [false]] (prologueFlat 2) [] 1%Q [2%Q]).
  discriminate Hclaim; by vm_compute.
Qed.

Lemma replay_entry_three_cases_witness :
  exists v, replayEntry calcA (prologueFlat 2) [[false]; [false]] [] 1%Q = Some v /\
            ([[7]; [5]; [5]]%Q : list (list Q)) !! (xvaCount calcA [] + 1) = Some v.
Proof.
  refine (replay_entry_three_cases calcA [] [1; 2]%Q (flatPaths 2) [true; true] false
           [[7]; [5]; [5]]%Q [[false]; [false]] (prologueFlat 2) [] [2%Q] 1%Q _ _ _ _ _).
  - discriminate.
  - vm_compute. reflexivity.
  - vm_compute. reflexivity.
  - reflexivity.
  - vm_compute. reflexivity.
Defined.

Lemma no_exercise_value_is_underlying_value_witness :
  McMultiLegBaseEngine.resultValue_ resultsA =
  McMultiLegBaseEngine.resultUnderlyingNpv_ resultsA.
Proof.
  refine (no_exercise_value_is_underlying_value (engineA None) resultsA _ _).
  - reflexivity.
  - vm_compute. reflexivity.
Defined.


(** C4, as stated, fails.  On [calcB] the path is exercised at the first
    exercise time; the indicator recorded for the first exercise time is
    true and the one recorded for the second exercise time is false. *)
Lemma exercise_indicator_reset_counterexample :
  ~ (forall res ex j j' q,
       simulatePath (calcB Physical) [] [1; 2; 3]%Q (flatPaths 3) [true; true; true] false
         = Ok (res, ex) ->
       j <= j' -> entryOf ex j q = Some true -> entryOf ex j' q = Some true).
Proof.
  intros Hclaim.
  specialize (Hclaim [[7]; [4]; [3]; [4]]%Q [[false]; [true]; [false]; [true]] 1 2 0).
  discriminate Hclaim; [by vm_compute | lia | reflexivity].
Qed.

Lemma exercise_indicators_and_running_flag_witness :
  (forall (j q : nat) (prev cur : list bool),
     [[false]; [true]; [false]; [true]] !! j = Some prev ->
     [[false]; [true]; [false]; [true]] !! S j = Some cur ->
     cur !! q = Some true -> prev !! q = Some false) /\
  (forall (l1 l2 : list Q) (st1 st2 : ReplayState Q) (q : nat) (b : bool),
     populate (calcB Physical) (prologueFlat 3) [[false]; [true]; [false]; [true]] l1 = Ok st1 ->
     populate (calcB Physical) (prologueFlat 3) [[false]; [true]; [false]; [true]] (l1 ++ l2)
       = Ok st2 ->
     wasExercised st1 !! q = Some true ->
     wasExercised st2 !! q = Some b ->
     b = true).
Proof.
  refine (exercise_indicators_and_running_flag (calcB Physical) [] [1; 2; 3]%Q (flatPaths 3)
           [true; true; true] [[7]; [4]; [3]; [4]]%Q [[false]; [true]; [false]; [true]]
           (prologueFlat 3) _ _ _).
  - discriminate.
  - vm_compute. reflexivity.
  - vm_compute. reflexivity.
Defined.

(** C5, as stated, fails.  [calcC] has no exercise time and its dirty value
    regression is [-3]: the value returned for the valuation time is
    [-3]. *)
Lemma no_exercise_value_negative_counterexample :
  ~ (forall res ex k q x,
       simulatePath calcC [] [1]%Q (flatPaths 1) [true] false = Ok (res, ex) ->
       0 < k -> entryOf res k q = Some x -> rleb 0%Q x = true).
Proof.
  intros Hclaim.
  specialize (Hclaim [[-3]; [-3]]%Q [] 1 0 (-3)%Q).
  discriminate Hclaim; [by vm_compute | lia | reflexivity].
Qed.

Lemma replay_values_floored_witness :
  (exerciseTimes_ (calcB Physical) <> [] ->
   forall (k q : nat) (x : Q),
     0 < k -> entryOf ([[7]; [4]; [3]; [4]]%Q : list (list Q)) k q = Some x ->
     rleb 0%Q x = true) /\
  (exerciseTimes_ (calcB Physical) = [] ->
   forall (pre post : list Q) (t : Q),
     xvaTimes_ (calcB Physical) = pre ++ t :: post ->
     exists (ind : nat) (eff : list (list Q)) (coeffs : list Q),
       set_find t (exerciseXvaTimes_ (calcB Physical)) = Some ind /\
       effPaths (prologueFlat 3) !! length pre = Some eff /\
       coeffsUndDirty_ (calcB Physical) !! ind = Some coeffs /\
       ([[7]; [4]; [3]; [4]]%Q : list (list Q)) !! (length pre + 1) =
         Some (conditionalExpectation eff (basisFns_ (calcB Physical)) coeffs)).
Proof.
  refine (replay_values_floored (calcB Physical) [] [1; 2; 3]%Q (flatPaths 3)
           [true; true; true] false [[7]; [4]; [3]; [4]]%Q
           [[false]; [true]; [false]; [true]] (prologueFlat 3) _ _).
  - vm_compute. reflexivity.
  - vm_compute. reflexivity.
Defined.

Lemma exercised_value_cash_once_physical_always_witness :
  entryOf ([[7]; [4]; [0]; [0]]%Q : list (list Q)) (xvaCount (calcB Cash) [] + 1) 0 =
    Some (rmax 0%Q 4%Q) /\
  (forall (latest : list bool) (X : list Q) (x : Q),
     [[false]; [true]; [false]; [true]] !! exCount (calcB Cash) ([] ++ [1%Q]) = Some latest ->
     latest !! 0 = Some true ->
     regressionAt (calcB Cash) (prologueFlat 3) (coeffsUndExInto_ (calcB Cash))
       (length ([] : list Q)) (xvaCount (calcB Cash) []) = Some X ->
     X !! 0 = Some x ->
     4%Q = x) /\
  forall (mid post' : list Q) (t' : Q) (E' O' : list Q) (e' o' : Q),
    [2; 3]%Q = mid ++ t' :: post' ->
    set_mem t' (xvaTimes_ (calcB Cash)) = true ->
    exercisedValueAt (calcB Cash) (prologueFlat 3) [[false]; [true]; [false]; [true]]
      ([] ++ 1%Q :: mid) t' = Some E' ->
    regressionAt (calcB Cash) (prologueFlat 3) (coeffsOption_ (calcB Cash))
      (length ([] ++ 1%Q :: mid)) (xvaCount (calcB Cash) ([] ++ 1%Q :: mid)) = Some O' ->
    E' !! 0 = Some e' -> O' !! 0 = Some o' ->
    entryOf ([[7]; [4]; [0]; [0]]%Q : list (list Q))
      (xvaCount (calcB Cash) ([] ++ 1%Q :: mid) + 1) 0 =
      Some match settlement_ (calcB Cash) with
           | Cash => 0%Q
           | Physical => rmax 0%Q e'
           end.
Proof.
  refine (exercised_value_cash_once_physical_always (calcB Cash) [] [1; 2; 3]%Q (flatPaths 3)
           [true; true; true] false [[7]; [4]; [0]; [0]]%Q
           [[false]; [true]; [false]; [true]] (prologueFlat 3) [] [2; 3]%Q 1%Q 0
           [4%Q] [5%Q] 4%Q 5%Q _ _ _ _ _ _ _ _ _ _ _ _ _).
  - discriminate.
  - vm_compute. reflexivity.
  - vm_compute. reflexivity.
  - reflexivity.
  - vm_compute. reflexivity.
  - simpl. lia.
  - intros f Hf. apply list_elem_of_In in Hf. simpl in Hf.
    repeat (destruct Hf as [<-|Hf]; [simpl; lia|]). destruct Hf.
  - vm_compute. reflexivity.
  - vm_compute. reflexivity.
  - vm_compute. reflexivity.
  - vm_compute. reflexivity.
  - reflexivity.
  - reflexivity.
Defined.

(** C6, as stated, fails.  Under cash settlement, on [calcE] the path is
    exercised at the first exercise time and not marked at the second; at
    the valuation time that follows, the first one after the exercise, the
    entry is the dirty value [3] and not the exercise-into value [4], which
    appears at no valuation time.  Under physical settlement, on [calcB]
    the path is exercised at the first valuation time, and at the second
    the entry is the dirty value [3], not the exercise-into value [4]. *)
Lemma exercise_into_contribution_counterexample :
  ~ (forall res ex p pre t post q X x,
       simulatePath calcE [] [3]%Q (flatPaths 1) [true] false = Ok (res, ex) ->
       prologue calcE [3]%Q (flatPaths 1) [true] false = Ok p ->
       exerciseXvaTimes_ calcE = pre ++ t :: post ->
       set_mem t (xvaTimes_ calcE) = true ->
       exercisedBy calcE (samples p) ex (pre ++ [t]) !! q = Some true ->
       accountedBefore calcE (samples p) ex pre !! q = Some false ->
       regressionAt calcE p (coeffsUndExInto_ calcE) (length pre) (xvaCount calcE pre)
         = Some X ->
       X !! q = Some x ->
       entryOf res (xvaCount calcE pre + 1) q = Some (rmax 0%Q x)) /\
  ~ (forall res ex p pre t mid t' post' q X' x',
       simulatePath (calcB Physical) [] [1; 2; 3]%Q (flatPaths 3) [true; true; true] false
         = Ok (res, ex) ->
       prologue (calcB Physical) [1; 2; 3]%Q (flatPaths 3) [true; true; true] false = Ok p ->
       exerciseXvaTimes_ (calcB Physical) = pre ++ t :: mid ++ t' :: post' ->
       set_mem t (xvaTimes_ (calcB Physical)) = true ->
       set_mem t' (xvaTimes_ (calcB Physical)) = true ->
       exercisedBy (calcB Physical) (samples p) ex (pre ++ [t]) !! q = Some true ->
       regressionAt (calcB Physical) p (coeffsUndExInto_ (calcB Physical))
         (length (pre ++ t :: mid)) (xvaCount (calcB Physical) (pre ++ t :: mid)) = Some X' ->
       X' !! q = Some x' ->
       entryOf res (xvaCount (calcB Physical) (pre ++ t :: mid) + 1) q =
         Some (rmax 0%Q x')).
Proof.
  split.
  - intros Hclaim.
    specialize (Hclaim [[7]; [3]]%Q [[false]; [true]; [false]] (prologueFlat 1)
                  [1; 2]%Q 3%Q [] 0 [4%Q] 4%Q).
    discriminate Hclaim; by vm_compute.
  - intros Hclaim.
    specialize (Hclaim [[7]; [4]; [3]; [4]]%Q [[false]; [true]; [false]; [true]]
                  (prologueFlat 3) [] 1%Q [] 2%Q [3%Q] 0 [4%Q] 4%Q).
    discriminate Hclaim; by vm_compute.
Qed.

(** C7.  On a curve that measures time with the day counter 30E/360, a
    fixed rate coupon that accrues from the 30th of January and pays on the
    31st passes the check of the accrual start date against the pay date,
    and its descriptor has an exercise-into cutoff time greater than its
    pay time: the two dates have the same time, and the cutoff time lies
    [tinyTime] after it. *)
Theorem cutoff_after_pay_time_on_thirty360 :
  exists info : CashflowInfo Q,
    @createCashflowInfo Q Q_RealOps Q_Model360 (FixedRateCoupon 30%Z 29%Z 100%Q)
      "EUR"%string 1%Q 0 0 = Ok info /\
    payTime info = @time Q Q_RealOps Q_Model360 29%Z /\
    rleb (exIntoCriterionTime info) (payTime info) = false /\
    rgtb (exIntoCriterionTime info) (payTime info) = true.
Proof.
  eexists. split; [reflexivity|]. split; [reflexivity|]. split; vm_compute; reflexivity.
Qed.

(** C9.  On a calculator with two external model indices whose exercise
    time lies at its first valuation time, a call with
    [stickyCloseOutRun = false] interpolates the state from the initial
    state, which it reads through [initialStatePointer]: the pointer to the
    first element was taken before the second [push_back] and may dangle,
    so that the read is undefined, and what the call returns is not fixed
    by its inputs. *)
Theorem replay_reads_dangling_initial_state :
  (p ← prologue calcTwo [1%Q] pathsTwo [true] false; Ok (initialState p))
    = Ok [[0%Q]; [0%Q]] /\
  initialStatePointer [[0%Q]; [0%Q]] = [None; Some [0%Q]] /\
  simulatePath calcTwo [] [1%Q] pathsTwo [true] false = Fail Undefined.
Proof. repeat split; vm_compute; reflexivity. Qed.

Lemma exercise_into_cutoff_le_pay_time_witness :
  rleb (exIntoCriterionTime infoFixed) (payTime infoFixed) = true /\
  exIntoCriterionTime infoFixed = radd (time 0%Z) tinyTime.
Proof.
  refine (exercise_into_cutoff_le_pay_time (FixedRateCoupon 365%Z 0%Z 100%Q)
           "EUR"%string 1%Q 0 0 infoFixed Q_time_gap _).
  reflexivity.
Defined.

(** C8, as stated, fails.  A coupon of an unknown class that pays after
    today and accrues from its pay date is outside the supported shapes, and
    [createCashflowInfo] fails on it with the accrual start error, not with
    the unhandled coupon error. *)
Lemma unsupported_coupon_accrual_error_counterexample :
  ~ (forall (flow : CashFlow Q) payCcy payer' legNo' cfNo',
       (today_ < flowDate flow)%Z -> supportedShape flow = false ->
       createCashflowInfo flow payCcy payer' legNo' cfNo' =
         Fail (UnhandledCoupon legNo' cfNo')).
Proof.
  intros Hclaim.
  specialize (Hclaim (OtherCoupon 100%Z 100%Z) "EUR"%string 1%Q 0 0).
  discriminate Hclaim; reflexivity.
Qed.

Lemma unsupported_flow_aborts_valuation_witness :
  createCashflowInfo (OtherCoupon 730%Z 365%Z : CashFlow Q) "EUR"%string 1%Q 0 1 =
    Fail (UnhandledCoupon 0 1) /\
  exists err, McMultiLegBaseEngine.calculate engineB = (0, Fail err).
Proof.
  refine (unsupported_flow_aborts_valuation engineB
           [SimpleCashFlow 365%Z 100%Q; OtherCoupon 730%Z 365%Z]
           (OtherCoupon 730%Z 365%Z) "EUR"%string 1%Q 0 1 _ _ _ _).
  - simpl. repeat constructor.
  - repeat constructor.
  - reflexivity.
  - reflexivity.
Defined.

Lemma exercise_after_last_valuation_time_witness :
  exerciseLoop calcD 1 [[[0%Q]]] [[0%Q]] [1%Q] 0 (replicate 3 [false]) =
    Ok [[false]; [true]; [false]] /\
  forall j, 1 < j <= 2 -> [[false]; [true]; [false]] !! j = Some [false].
Proof.
  refine (exercise_after_last_valuation_time calcD [] [2%Q] (flatPaths 1) [true]
           [[7]; [4]]%Q [[false]; [true]; [false]] (prologueFlat 1) [1%Q] [] 3%Q _ _ _ _).
  - reflexivity.
  - repeat constructor.
  - vm_compute. reflexivity.
  - vm_compute. reflexivity.
Defined.

(** ** Part III: further properties *)

(** *** The forward replay calculator: the checks of the input *)

Section ReplayInputFacts.
Context {Real : Type} `{Regression Real}.
Variable calc : MultiLegBaseAmcCalculator Real.

(** the loop over the path times adds one time and one row of states per
    path time flagged as relevant *)
Lemma gatherLoop_spec (pathTimes : list Real) (paths : list (list (list Real)))
    (isRelevantTime : list bool) (sticky : bool) (m : nat) :
  forall (a : nat) (st st' : list Real * list (list (list Real))),
    foldM (gatherStep calc pathTimes paths isRelevantTime sticky) (seq a m) st = Ok st' ->
    length st'.1 = length st.1 + length (filter (fun b : bool => b = true)
                                           (take m (drop a isRelevantTime))) /\
    length st'.2 = length st.2 + length (filter (fun b : bool => b = true)
                                           (take m (drop a isRelevantTime))).
Proof.
  induction m as [|m IH]; intros a st st' Hloop; simpl in Hloop.
  - injection Hloop as <-. rewrite take_0. simpl. lia.
  - apply bind_Ok in Hloop as (st1 & Hstep & Hloop).
    apply IH in Hloop as [H1 H2]. unfold gatherStep in Hstep.
    destruct st as [simTimes eff].
    apply bind_Ok in Hstep as (b & Hb%index_Ok & Hstep). simpl in Hstep.
    rewrite (drop_S _ b a) by done. rewrite firstn_cons, filter_cons.
    destruct b.
    + rewrite decide_True by done. inv_outcome. simpl in *.
      rewrite !length_app in *. simpl in *. lia.
    + rewrite decide_False by done. inv_outcome. simpl in *. lia.
Qed.

(** what a successful first part of [simulatePath] has checked and built *)
Lemma prologue_inv (pathTimes : list Real) (paths : list (list (list Real)))
    (isRelevantTime : list bool) (sticky : bool) (p : Prologue Real) :
  prologue calc pathTimes paths isRelevantTime sticky = Ok p ->
  paths <> [] /\ length pathTimes = length paths /\
  length (effPaths p) = length (xvaTimes_ calc) /\
  relevantCount isRelevantTime (length pathTimes) = length (xvaTimes_ calc) /\
  result0 p = <[0 := rv (samples p) (resultValue_ calc)]>
                (replicate (length (xvaTimes_ calc) + 1) (rv (samples p) rzero)) /\
  length (initialState p) = length (externalModelIndices_ calc).
Proof.
  unfold prologue. intros Hp.
  apply bind_Ok in Hp as ([] & Hne%require_Ok & Hp). simpl in Hp.
  apply bind_Ok in Hp as ([] & Hlen%require_Ok & Hp). simpl in Hp.
  apply bind_Ok in Hp as ([simTimes eff] & Hgather & Hp). simpl in Hp.
  apply bind_Ok in Hp as ([] & Hcount%require_Ok & Hp). simpl in Hp.
  apply bind_Ok in Hp as (front & _ & Hp). simpl in Hp.
  apply bind_Ok in Hp as (frontFront & _ & Hp). simpl in Hp.
  apply bind_Ok in Hp as (init & Hinit & Hp). simpl in Hp.
  injection Hp as <-. simpl.
  apply Nat.eqb_eq in Hlen, Hcount.
  apply gatherLoop_spec in Hgather as [H1 H2]. simpl in H1, H2. rewrite drop_0 in H1, H2.
  repeat split.
  - by destruct paths.
  - exact Hlen.
  - rewrite H2. unfold relevantCount in *. lia.
  - unfold relevantCount. lia.
  - by rewrite Hcount.
  - clear -Hinit. revert init Hinit.
    generalize 0 at 1. induction (length (externalModelIndices_ calc)) as [|n IH];
      intros a init Hinit; simpl in Hinit.
    + by injection Hinit as <-.
    + inv_outcome. simpl. f_equal. eauto.
Qed.

(** X1.  [simulatePath] rejects an empty list of paths, and a list of paths
    whose length is not that of the path times, with the errors of its first
    two checks; no other work is done before. *)
Theorem simulatePath_rejects_inconsistent_input (exercised_ : list (list bool))
    (pathTimes : list Real) (paths : list (list (list Real)))
    (isRelevantTime : list bool) (sticky : bool) :
  paths = [] \/ length pathTimes <> length paths ->
  simulatePath calc exercised_ pathTimes paths isRelevantTime sticky =
    Fail (RequireFailed
            match paths with
            | [] => "MultiLegBaseAmcCalculator::simulatePath(): no future path times, this is not allowed."
            | _ :: _ => "MultiLegBaseAmcCalculator::simulatePath(): inconsistent pathTimes size and paths size - internal error."
            end).
Proof.
  intros Hbad. unfold simulatePath, prologue.
  destruct paths as [|path0 paths']; [reflexivity|]. simpl.
  destruct Hbad as [|Hlen]; [discriminate|].
  apply Nat.eqb_neq in Hlen. simpl in Hlen. by rewrite Hlen.
Qed.

(** X2.  A sticky close-out run whose first path time is flagged as relevant
    fails: the state of a relevant time is paired with the path time one
    position before, and there is none before the first. *)
Theorem sticky_run_rejects_relevant_first_time (exercised_ : list (list bool))
    (pathTimes : list Real) (paths : list (list (list Real)))
    (isRelevantTime : list bool) :
  paths <> [] -> length pathTimes = length paths ->
  isRelevantTime !! 0 = Some true ->
  simulatePath calc exercised_ pathTimes paths isRelevantTime true =
    Fail (RequireFailed
            "MultiLegBaseAmcCalculator: sticky close out run time index is negative - internal error.").
Proof.
  intros Hne Hlen Hrel. unfold simulatePath, prologue.
  destruct paths as [|path0 paths']; [done|].
  destruct pathTimes as [|t0 pathTimes']; [discriminate|].
  simpl in Hlen. injection Hlen as Hlen. simpl. rewrite Hlen, Nat.eqb_refl. simpl.
  assert (index isRelevantTime 0 = Ok true) as -> by (unfold index; by rewrite Hrel).
  reflexivity.
Qed.

(** X3.  When [simulatePath] succeeds, the number of path times flagged as
    relevant is the number of valuation times of the calculator, the
    returned vector has one entry per valuation time after a first entry,
    and the first entry holds the reference date value on every path. *)
Theorem simulatePath_result_shape (exercised_ : list (list bool))
    (pathTimes : list Real) (paths : list (list (list Real)))
    (isRelevantTime : list bool) (sticky : bool)
    (res : list (list Real)) (ex : list (list bool)) (p : Prologue Real) :
  simulatePath calc exercised_ pathTimes paths isRelevantTime sticky = Ok (res, ex) ->
  prologue calc pathTimes paths isRelevantTime sticky = Ok p ->
  relevantCount isRelevantTime (length pathTimes) = length (xvaTimes_ calc) /\
  length res = length (xvaTimes_ calc) + 1 /\
  res !! 0 = Some (rv (samples p) (resultValue_ calc)).
Proof.
  intros Hsim Hp.
  destruct (prologue_inv _ _ _ _ _ Hp) as (_ & _ & _ & Hcount & Hres0 & _).
  split; [exact Hcount|].
  assert (length (result0 p) = length (xvaTimes_ calc) + 1 /\
          result0 p !! 0 = Some (rv (samples p) (resultValue_ calc))) as [Hlen0 Hfirst].
  { rewrite Hres0, length_insert, length_replicate. split; [reflexivity|].
    apply list_lookup_insert_eq. rewrite length_replicate. lia. }
  unfold simulatePath in Hsim. rewrite Hp in Hsim. simpl in Hsim.
  destruct (exerciseTimes_ calc) as [|t ts].
  - apply bind_Ok in Hsim as ([k res'] & Hloop & Hsim). simpl in Hsim.
    injection Hsim as <- <-.
    assert (length res' = length (result0 p)) as Hlen.
    { clear -Hloop. revert Hloop. generalize 0 at 1. generalize (result0 p).
      induction (xvaTimes_ calc) as [|u l IH]; intros r0 a Hloop; simpl in Hloop.
      - by injection Hloop as <- <-.
      - apply bind_Ok in Hloop as ([k1 r1] & Hstep & Hloop).
        apply IH in Hloop as ->. unfold dirtyStep in Hstep.
        destruct (set_find u (exerciseXvaTimes_ calc)); [|discriminate].
        inv_outcome. apply length_insert. }
    apply dirtyLoop_spec in Hloop as [_ Hframe].
    rewrite Hlen, Hframe by lia. done.
  - apply bind_Ok in Hsim as (ex' & _ & Hsim). simpl in Hsim.
    apply bind_Ok in Hsim as (st & Hpop & Hsim). simpl in Hsim.
    injection Hsim as <- <-.
    destruct (replayLoop_spec calc p ex' _ _ _ _ (ReplayInv_start calc p ex') Hpop)
      as (_ & Hlen & Hframe).
    simpl in Hlen, Hframe. rewrite Hlen, Hframe by lia. done.
Qed.
End ReplayInputFacts.

(** *** The forward replay calculator: the indicators and the entries *)

Section ReplayDecisionFacts.
Context {Real : Type} `{Regression Real}.
Variable calc : MultiLegBaseAmcCalculator Real.

(** X4.  A sticky close-out run, and any run of a calculator without
    exercise times, leaves the member [exercised_] as it found it. *)
Theorem sticky_run_keeps_indicators (exercised_ : list (list bool))
    (pathTimes : list Real) (paths : list (list (list Real)))
    (isRelevantTime : list bool) (sticky : bool)
    (res : list (list Real)) (ex : list (list bool)) :
  sticky = true \/ exerciseTimes_ calc = [] ->
  simulatePath calc exercised_ pathTimes paths isRelevantTime sticky = Ok (res, ex) ->
  ex = exercised_.
Proof.
  intros Hcase Hsim. unfold simulatePath in Hsim.
  apply bind_Ok in Hsim as (p & _ & Hsim). simpl in Hsim.
  destruct (exerciseTimes_ calc) as [|t ts].
  - apply bind_Ok in Hsim as ([k res'] & _ & Hsim). simpl in Hsim. by injection Hsim.
  - destruct Hcase as [->|]; [|discriminate].
    apply bind_Ok in Hsim as (ex' & Hex & Hsim). simpl in Hsim.
    apply bind_Ok in Hsim as (st & _ & Hsim). simpl in Hsim.
    injection Hsim as _ <-. by injection Hex.
Qed.

(** the loop over the exercise times does not touch the indicators of the
    exercise times it has left behind *)
Lemma exerciseLoop_frame_low (n : nat) (eff : list (list (list Real)))
    (init : list (list Real)) (ts : list Real) :
  forall (k : nat) (ex ex' : list (list bool)),
    exerciseLoop calc n eff init ts k ex = Ok ex' ->
    forall j, j <= k -> ex' !! j = ex !! j.
Proof.
  induction ts as [|t ts IH]; intros k ex ex' Hloop j Hj; simpl in Hloop.
  - by injection Hloop as <-.
  - destruct (set_find t (exerciseXvaTimes_ calc)) as [ind|]; [|discriminate].
    destruct (lower_bound (xvaTimes_ calc) t) as [k2|]; [|by injection Hloop as <-].
    inv_outcome. erewrite IH; [|eassumption|lia].
    apply list_lookup_insert_ne. lia.
Qed.

(** X5.  A run that is not sticky, on a calculator with exercise times,
    leaves one indicator per exercise time after a first one, and the first
    one is false on every path. *)
Theorem fresh_indicators_shape (exercised_ : list (list bool))
    (pathTimes : list Real) (paths : list (list (list Real)))
    (isRelevantTime : list bool)
    (res : list (list Real)) (ex : list (list bool)) (p : Prologue Real) :
  exerciseTimes_ calc <> [] ->
  simulatePath calc exercised_ pathTimes paths isRelevantTime false = Ok (res, ex) ->
  prologue calc pathTimes paths isRelevantTime false = Ok p ->
  length ex = length (exerciseTimes_ calc) + 1 /\
  ex !! 0 = Some (filter_const (samples p) false).
Proof.
  intros Hne Hsim Hp.
  apply simulatePath_exercise_inv in Hsim as (p' & st & Hp' & Hex & _); [|done].
  rewrite Hp in Hp'. injection Hp' as <-. unfold indicators in Hex. split.
  - apply exerciseLoop_length in Hex. by rewrite Hex, length_replicate.
  - erewrite exerciseLoop_frame_low; [|exact Hex|lia].
    apply lookup_replicate_2. lia.
Qed.

(** the indicator written for an exercise time, read on one path *)
Lemma exerciseLoop_indicator (p : Prologue Real) (t : Real) (post : list Real)
    (q : nat) (pre : list Real) :
  forall (k : nat) (ex ex' : list (list bool)) (cur : list bool),
    (forall j, k < j -> j < length ex -> ex !! j = Some (filter_const (samples p) false)) ->
    exerciseLoop calc (samples p) (effPaths p) (initialState p) (pre ++ t :: post) k ex
      = Ok ex' ->
    ex' !! (k + length pre + 1) = Some cur ->
    cur !! q = Some true ->
    exists (ev cv : list Real) (x c : Real),
      exerciseValuesAt calc p t = Some (ev, cv) /\
      ev !! q = Some x /\ cv !! q = Some c /\
      rgtb x c = true /\ rgtb x rzero = true.
Proof.
  assert (forall m, filter_const m false !! q = Some true -> False) as Hfalse.
  { intros m Hm. unfold filter_const in Hm. apply lookup_replicate in Hm as [? _].
    discriminate. }
  induction pre as [|u pre IH]; intros k ex ex' cur Hrest Hloop Hcur Hq; simpl in Hloop.
  - unfold exerciseValuesAt.
    destruct (set_find t (exerciseXvaTimes_ calc)) as [ind|]; [|discriminate].
    destruct (lower_bound (xvaTimes_ calc) t) as [k2|]; simpl.
    + apply bind_Ok in Hloop as (time2 & E1 & Hloop). simpl in Hloop.
      apply bind_Ok in Hloop as (s2 & E2 & Hloop). simpl in Hloop.
      apply bind_Ok in Hloop as ([time1 s1] & E3 & Hloop). simpl in Hloop.
      apply bind_Ok in Hloop as (sp & E4 & Hloop). simpl in Hloop.
      apply bind_Ok in Hloop as (cEx & E5 & Hloop). simpl in Hloop.
      apply bind_Ok in Hloop as (cCont & E6 & Hloop). simpl in Hloop.
      apply bind_Ok in Hloop as (prev & _ & Hloop). simpl in Hloop.
      apply bind_Ok in Hloop as (ex1 & [Hlt ->]%assign_Ok & Hloop). simpl in Hloop.
      rewrite E1; simpl. rewrite E2; simpl. rewrite E3; simpl. rewrite E4; simpl.
      rewrite E5; simpl. rewrite E6; simpl.
      simpl in Hcur. rewrite Nat.add_0_r in Hcur.
      erewrite exerciseLoop_frame_low in Hcur; [|exact Hloop|lia].
      rewrite list_lookup_insert_eq in Hcur by done. injection Hcur as <-.
      rewrite !lookup_filter_and, !lookup_rv_gt in Hq.
      destruct (filter_not prev !! q) as [b0|]; simpl in Hq; [|discriminate].
      destruct (conditionalExpectation sp (basisFns_ calc) cEx !! q) as [x|] eqn:Hx;
        simpl in Hq; [|discriminate].
      destruct (conditionalExpectation sp (basisFns_ calc) cCont !! q) as [c|] eqn:Hc;
        simpl in Hq; [|discriminate].
      destruct (rv (samples p) rzero !! q) as [z|] eqn:Hz; simpl in Hq; [|discriminate].
      rewrite lookup_rv in Hz. case_decide; [|discriminate]. injection Hz as <-.
      injection Hq as Hq. apply andb_true_iff in Hq as [[_ Hxc]%andb_true_iff Hx0].
      eexists _, _, x, c. split; [reflexivity|]. done.
    + injection Hloop as <-. simpl in Hcur. rewrite Nat.add_0_r in Hcur.
      rewrite Hrest in Hcur; [|lia|by apply lookup_lt_Some in Hcur].
      injection Hcur as <-. by apply Hfalse in Hq.
  - destruct (set_find u (exerciseXvaTimes_ calc)) as [ind|]; [|discriminate].
    destruct (lower_bound (xvaTimes_ calc) u) as [k2|].
    + inv_outcome.
      match goal with Hl : exerciseLoop _ _ _ _ _ _ _ = Ok ex' |- _ =>
        eapply (IH (k + 1) _ ex' cur); [|exact Hl| |exact Hq] end.
      * intros j Hj Hlen. rewrite length_insert in Hlen.
        rewrite list_lookup_insert_ne by lia. apply Hrest; lia.
      * simpl in Hcur. by replace (k + 1 + length pre + 1) with (k + S (length pre) + 1) by lia.
    + injection Hloop as <-.
      rewrite Hrest in Hcur; [|simpl; lia|by apply lookup_lt_Some in Hcur].
      injection Hcur as <-. by apply Hfalse in Hq.
Qed.

(** X6.  In a run that is not sticky, the indicator of an exercise time is
    true on a path only if, at the state interpolated to the exercise time,
    the exercise value regression is greater than the continuation value
    regression and greater than zero on that path. *)
Theorem replay_exercises_only_in_the_money (exercised_ : list (list bool))
    (pathTimes : list Real) (paths : list (list (list Real)))
    (isRelevantTime : list bool)
    (res : list (list Real)) (ex : list (list bool)) (p : Prologue Real)
    (pre post : list Real) (t : Real) (cur : list bool) (q : nat) :
  simulatePath calc exercised_ pathTimes paths isRelevantTime false = Ok (res, ex) ->
  prologue calc pathTimes paths isRelevantTime false = Ok p ->
  exerciseTimes_ calc = pre ++ t :: post ->
  ex !! (length pre + 1) = Some cur ->
  cur !! q = Some true ->
  exists (ev cv : list Real) (x c : Real),
    exerciseValuesAt calc p t = Some (ev, cv) /\
    ev !! q = Some x /\ cv !! q = Some c /\
    rgtb x c = true /\ rgtb x rzero = true.
Proof.
  intros Hsim Hp Hts Hcur Hq.
  apply simulatePath_exercise_inv in Hsim as (p' & st & Hp' & Hex & _);
    [|rewrite Hts; by destruct pre].
  rewrite Hp in Hp'. injection Hp' as <-. unfold indicators in Hex.
  rewrite Hts in Hex at 1.
  eapply (exerciseLoop_indicator p t post q pre 0); [|exact Hex|exact Hcur|exact Hq].
  intros j _ Hj. rewrite length_replicate in Hj. by apply lookup_replicate_2.
Qed.

End ReplayDecisionFacts.

(** *** The forward replay calculator: the statements at work *)

Lemma simulatePath_rejects_inconsistent_input_witness :
  simulatePath calcA [] [1%Q] (flatPaths 2) [true; true] false =
    Fail (RequireFailed
            "MultiLegBaseAmcCalculator::simulatePath(): inconsistent pathTimes size and paths size - internal error.").
Proof.
  refine (simulatePath_rejects_inconsistent_input calcA [] [1%Q] (flatPaths 2)
            [true; true] false _).
  right. simpl. lia.
Defined.

Lemma sticky_run_rejects_relevant_first_time_witness :
  simulatePath calcA [[false]; [true]] [1; 2]%Q (flatPaths 2) [true; true] true =
    Fail (RequireFailed
            "MultiLegBaseAmcCalculator: sticky close out run time index is negative - internal error.").
Proof.
  refine (sticky_run_rejects_relevant_first_time calcA [[false]; [true]] [1; 2]%Q
            (flatPaths 2) [true; true] _ _ _).
  - discriminate.
  - reflexivity.
  - reflexivity.
Defined.

Lemma simulatePath_result_shape_witness :
  relevantCount [false; true; true] (length [1; 2; 3]%Q) = length (xvaTimes_ calcA) /\
  length ([[7]; [0]; [0]]%Q : list (list Q)) = length (xvaTimes_ calcA) + 1 /\
  ([[7]; [0]; [0]]%Q : list (list Q)) !! 0 =
    Some (rv (samples (prologueFlat 2)) (resultValue_ calcA)).
Proof.
  refine (simulatePath_result_shape calcA [[false]; [true]] [1; 2; 3]%Q (flatPaths 3)
            [false; true; true] true [[7]; [0]; [0]]%Q [[false]; [true]] (prologueFlat 2) _ _).
  - vm_compute. reflexivity.
  - vm_compute. reflexivity.
Defined.

Lemma sticky_run_keeps_indicators_witness :
  ([[false]; [true]] : list (list bool)) = [[false]; [true]].
Proof.
  refine (sticky_run_keeps_indicators calcA [[false]; [true]] [1; 2; 3]%Q (flatPaths 3)
            [false; true; true] true [[7]; [0]; [0]]%Q [[false]; [true]] _ _).
  - by left.
  - vm_compute. reflexivity.
Defined.

Lemma fresh_indicators_shape_witness :
  length ([[false]; [true]; [false]; [true]] : list (list bool)) =
    length (exerciseTimes_ (calcB Physical)) + 1 /\
  ([[false]; [true]; [false]; [true]] : list (list bool)) !! 0 =
    Some (filter_const (samples (prologueFlat 3)) false).
Proof.
  refine (fresh_indicators_shape (calcB Physical) [[true]] [1; 2; 3]%Q (flatPaths 3)
            [true; true; true] [[7]; [4]; [3]; [4]]%Q [[false]; [true]; [false]; [true]]
            (prologueFlat 3) _ _ _).
  - discriminate.
  - vm_compute. reflexivity.
  - vm_compute. reflexivity.
Defined.

Lemma replay_exercises_only_in_the_money_witness :
  exists (ev cv : list Q) (x c : Q),
    exerciseValuesAt (calcB Physical) (prologueFlat 3) 1%Q = Some (ev, cv) /\
    ev !! 0 = Some x /\ cv !! 0 = Some c /\
    rgtb x c = true /\ rgtb x rzero = true.
Proof.
  refine (replay_exercises_only_in_the_money (calcB Physical) [] [1; 2; 3]%Q (flatPaths 3)
            [true; true; true] [[7]; [4]; [3]; [4]]%Q [[false]; [true]; [false]; [true]]
            (prologueFlat 3) [] [2; 3]%Q 1%Q [true] 0 _ _ _ _ _).
  - vm_compute. reflexivity.
  - vm_compute. reflexivity.
  - reflexivity.
  - reflexivity.
  - reflexivity.
Defined.

(** *** The cash-flow classifier: the descriptors *)

Section ClassifierFacts.
Context {Real : Type} `{CrossAssetModel Real}.

Lemma mapM_outcome_length {A B : Type} (f : A -> outcome B) (l : list A) (bs : list B) :
  mapM_outcome f l = Ok bs -> length bs = length l.
Proof.
  revert bs. induction l as [|a l IH]; intros bs Hbs; simpl in Hbs.
  - by injection Hbs as <-.
  - inv_outcome. simpl. f_equal. by apply IH.
Qed.

(** the fields of a descriptor that are copied from the arguments *)
Lemma createCashflowInfo_fields (flow : CashFlow Real) (payCcy : Currency) (payer' : Real)
    (legNo' cfNo' : nat) (info : CashflowInfo Real) :
  createCashflowInfo flow payCcy payer' legNo' cfNo' = Ok info ->
  legNo info = legNo' /\ cfNo info = cfNo' /\
  payCcyIndex info = ccyIndex payCcy /\ payer info = payer'.
Proof.
  unfold createCashflowInfo. intros Hinfo.
  apply bind_Ok in Hinfo as (cutoff & _ & Hinfo). simpl in Hinfo.
  repeat case_match; simplify_eq; simpl; done.
Qed.

(** the stripped and the cap and floor wrapper leave the FX data alone *)
Lemma unwrap_fx (flow : CashFlow Real) :
  isFxLinked (unwrap flow).2 = isFxLinked (unwrapFxLinked flow noWrappers).2 /\
  fxLinkedForeignNominal (unwrap flow).2 =
    fxLinkedForeignNominal (unwrapFxLinked flow noWrappers).2 /\
  fxLinkedSourceCcyIdx (unwrap flow).2 =
    fxLinkedSourceCcyIdx (unwrapFxLinked flow noWrappers).2 /\
  fxLinkedTargetCcyIdx (unwrap flow).2 =
    fxLinkedTargetCcyIdx (unwrapFxLinked flow noWrappers).2 /\
  fxLinkedFixedFxRate (unwrap flow).2 =
    fxLinkedFixedFxRate (unwrapFxLinked flow noWrappers).2 /\
  fxLinkedSimTime (unwrap flow).2 = fxLinkedSimTime (unwrapFxLinked flow noWrappers).2 /\
  fxLinkedModelIndices (unwrap flow).2 =
    fxLinkedModelIndices (unwrapFxLinked flow noWrappers).2.
Proof.
  unfold unwrap. destruct (unwrapFxLinked flow noWrappers) as [f1 w1].
  destruct f1; simpl; try done;
    match goal with |- context [unwrapCapFloored ?f _] => destruct f end; done.
Qed.

(** the FX data the wrappers end up with *)
Lemma unwrap_fx_cases (flow : CashFlow Real) :
  match flow with
  | FloatingRateFXLinkedNotionalCoupon _ _ fxFixingDate src tgt _ _ _ =>
      isFxLinked (unwrap flow).2 = true /\
      fxLinkedSourceCcyIdx (unwrap flow).2 = ccyIndex src /\
      fxLinkedTargetCcyIdx (unwrap flow).2 = ccyIndex tgt /\
      if bool_decide (fxFixingDate <= today_)%Z
      then is_Some (fxLinkedFixedFxRate (unwrap flow).2) /\
           fxLinkedSimTime (unwrap flow).2 = None
      else fxLinkedFixedFxRate (unwrap flow).2 = None /\
           fxLinkedSimTime (unwrap flow).2 = Some (time fxFixingDate) /\
           fxLinkedModelIndices (unwrap flow).2 = fxModelIndices (ccyIndex src) (ccyIndex tgt)
  | _ => isFxLinked (unwrap flow).2 = false /\ fxLinkedSimTime (unwrap flow).2 = None
  end.
Proof.
  destruct (unwrap_fx flow) as (-> & _ & -> & -> & -> & -> & ->).
  destruct flow; simpl; try done. case_bool_decide; repeat split; eauto.
Qed.

(** the three ways a descriptor is made *)
Lemma createCashflowInfo_inv (flow : CashFlow Real) (payCcy : Currency) (payer' : Real)
    (legNo' cfNo' : nat) (info : CashflowInfo Real) :
  createCashflowInfo flow payCcy payer' legNo' cfNo' = Ok info ->
  (fixedRateFutureFx flow = false /\
   exists amount, simulationTimes info = [] /\ modelIndices info = [] /\
                  amountCalculator info = fun n _ => Ok (rv n amount)) \/
  (fixedRateFutureFx flow = false /\
   exists s t foreignAmount fxTime,
     simulationTimes info = [fxTime] /\ modelIndices info = [fxModelIndices s t] /\
     amountCalculator info =
       fun n states =>
         fx ← simulatedFxRates n s t 0 states;
         Ok (rv_div (rv_mul (rv n foreignAmount) fx.1) fx.2)) \/
  (exists (c : FloatingRateCoupon Real) (needed : bool) (simTime : Real)
          (fixedRate : option Real),
     residualFlow flow = FloatingCoupon c /\
     (match flow with
      | FixedRateCoupon _ _ _ | SimpleCashFlow _ _ | FXLinkedCashFlow _ _ _ _ _ _ => False
      | _ => True
      end) /\
     needed = match kind c with
              | IborCoupon | CmsCoupon => negb (bool_decide (fixingDate c <= today_)%Z)
              | _ => true
              end /\
     (needed = false -> is_Some fixedRate) /\
     simulationTimes info =
       (declareTimes (unwrap flow).2 needed simTime (ccyIndex (indexCurrency c))).1 /\
     modelIndices info =
       (declareTimes (unwrap flow).2 needed simTime (ccyIndex (indexCurrency c))).2 /\
     amountCalculator info =
       couponAmount (unwrap flow).2 c (ccyIndex (indexCurrency c)) simTime fixedRate).
Proof.
  unfold createCashflowInfo. intros Hinfo.
  apply bind_Ok in Hinfo as (cutoff & _ & Hinfo). simpl in Hinfo.
  pose proof (unwrap_residualFlow flow) as Hres.
  destruct flow;
    try (left; injection Hinfo as <-; split; [reflexivity|]; eexists; done);
    try (case_bool_decide;
         [right; left|left]; injection Hinfo as <-; (split; [reflexivity|]);
         repeat eexists; done);
    right; right;
    destruct (unwrap _) as [flow' w]; simpl in Hres; subst flow';
    (destruct (residualFlow _) as [| | | | | |cpn| |]; try discriminate);
    destruct (kind cpn) eqn:Hkind; simpl in Hinfo;
    injection Hinfo as <-; simpl;
    eexists cpn, _, _, _; rewrite Hkind;
    (split; [reflexivity|]); (split; [exact I|]); (split; [reflexivity|]);
    (split; [|unfold declareTimes; simpl; done]);
    try discriminate; case_bool_decide; simpl; try discriminate; eauto.
Qed.

Lemma fxModelIndices_length (s t : nat) : length (fxModelIndices s t) <= 2.
Proof. unfold fxModelIndices. destruct (0 <? s)%nat, (0 <? t)%nat; simpl; lia. Qed.

(** the FX states are declared with the model indices of the two currencies *)
Lemma unwrap_fx_indices (flow : CashFlow Real) :
  fxLinkedSimTime (unwrap flow).2 = None \/
  (isFxLinked (unwrap flow).2 = true /\
   fxLinkedFixedFxRate (unwrap flow).2 = None /\
   fxLinkedModelIndices (unwrap flow).2 =
     fxModelIndices (fxLinkedSourceCcyIdx (unwrap flow).2)
                    (fxLinkedTargetCcyIdx (unwrap flow).2)).
Proof.
  pose proof (unwrap_fx_cases flow) as Hfx.
  destruct flow; try (left; by destruct Hfx).
  destruct Hfx as (Hl & -> & -> & Hfx). case_bool_decide.
  - left. by destruct Hfx.
  - right. by destruct Hfx as (? & ? & ?).
Qed.

(** X7.  A descriptor made by [createCashflowInfo] declares one list of
    model indices for each of its simulation times; it has at most two
    simulation times, with at most two model indices each. *)
Theorem descriptor_declares_indices_per_time (flow : CashFlow Real) (payCcy : Currency)
    (payer' : Real) (legNo' cfNo' : nat) (info : CashflowInfo Real) :
  createCashflowInfo flow payCcy payer' legNo' cfNo' = Ok info ->
  length (simulationTimes info) = length (modelIndices info) /\
  length (simulationTimes info) <= 2 /\
  Forall (fun ixs : list nat => length ixs <= 2) (modelIndices info).
Proof.
  intros Hinfo.
  apply createCashflowInfo_inv in Hinfo
    as [(_ & amount & -> & -> & _)|[(_ & s & t & fa & ft & -> & -> & _)|Hinfo]].
  - simpl. repeat split; [lia | constructor].
  - simpl. repeat split; [lia|].
    apply Forall_cons_2; [apply fxModelIndices_length | apply Forall_nil_2].
  - destruct Hinfo as (c & needed & simTime & fixedRate & _ & _ & _ & _ & -> & -> & _).
    unfold declareTimes. simpl. rewrite !length_fmap. split; [reflexivity|].
    destruct (unwrap_fx_indices flow) as [->|(_ & _ & ->)].
    + destruct needed; simpl; (split; [lia|]);
        repeat (apply Forall_cons_2 || apply Forall_nil_2); simpl; lia.
    + destruct needed, (fxLinkedSimTime _); simpl; (split; [lia|]);
        repeat (apply Forall_cons_2 || apply Forall_nil_2);
        try apply fxModelIndices_length; simpl; lia.
Qed.

(** the FX rates read from declared states *)
Lemma simulatedFxRates_Ok (n s t pos : nat) (states : list (list (list Real)))
    (st : list (list Real)) :
  states !! pos = Some st -> length st = length (fxModelIndices s t) ->
  exists fx, simulatedFxRates n s t pos states = Ok fx.
Proof.
  intros Hst Hlen. unfold simulatedFxRates, at_, fxModelIndices in *.
  destruct (0 <? s)%nat, (0 <? t)%nat; simpl in *; rewrite ?Hst; simpl;
    destruct st as [|x [|y st]]; simplify_eq/=; eauto.
Qed.

Lemma simulatedFx_Ok (n s t pos : nat) (states : list (list (list Real)))
    (st : list (list Real)) :
  states !! pos = Some st -> length st = length (fxModelIndices s t) ->
  exists v, simulatedFx n s t pos states = Ok v.
Proof.
  intros Hst Hlen. unfold simulatedFx.
  destruct (simulatedFxRates_Ok n s t pos states st Hst Hlen) as [fx ->]. simpl. eauto.
Qed.

(** the FX rate read beyond the states at hand *)
Lemma simulatedFx_out_of_range (n s t pos : nat) (states : list (list (list Real))) :
  states !! pos = None -> (0 <? s)%nat || (0 <? t)%nat = true ->
  simulatedFx n s t pos states = Fail OutOfRange.
Proof.
  intros Hst Hccy. unfold simulatedFx, simulatedFxRates, at_.
  destruct (0 <? s)%nat, (0 <? t)%nat; try discriminate; rewrite ?Hst; reflexivity.
Qed.

(** the three states of the FX data of the wrappers *)
Lemma unwrap_fx_states (flow : CashFlow Real) :
  (isFxLinked (unwrap flow).2 = false /\ fxLinkedSimTime (unwrap flow).2 = None) \/
  (isFxLinked (unwrap flow).2 = true /\ is_Some (fxLinkedFixedFxRate (unwrap flow).2) /\
   fxLinkedSimTime (unwrap flow).2 = None) \/
  (isFxLinked (unwrap flow).2 = true /\ fxLinkedFixedFxRate (unwrap flow).2 = None /\
   is_Some (fxLinkedSimTime (unwrap flow).2) /\
   fxLinkedModelIndices (unwrap flow).2 =
     fxModelIndices (fxLinkedSourceCcyIdx (unwrap flow).2)
                    (fxLinkedTargetCcyIdx (unwrap flow).2)).
Proof.
  pose proof (unwrap_fx_cases flow) as Hfx.
  destruct flow; try (left; exact Hfx).
  destruct Hfx as (Hl & -> & -> & Hfx). case_bool_decide.
  - right; left. by destruct Hfx.
  - right; right. destruct Hfx as (-> & -> & ->). eauto.
Qed.

(** the flows singled out by [fixedRateFutureFx], in terms of the wrappers *)
Lemma fixedRateFutureFx_spec (flow : CashFlow Real) (c : FloatingRateCoupon Real) :
  residualFlow flow = FloatingCoupon c ->
  fixedRateFutureFx flow =
    negb match kind c with
         | IborCoupon | CmsCoupon => negb (bool_decide (fixingDate c <= today_)%Z)
         | _ => true
         end &&
    bool_decide (is_Some (fxLinkedSimTime (unwrap flow).2)) &&
    ((0 <? fxLinkedSourceCcyIdx (unwrap flow).2)%nat ||
     (0 <? fxLinkedTargetCcyIdx (unwrap flow).2)%nat).
Proof.
  intros Hres. pose proof (unwrap_fx_cases flow) as Hfx.
  unfold fixedRateFutureFx.
  destruct flow;
    try (destruct Hfx as [_ ->]; rewrite (bool_decide_eq_false_2 _ is_Some_None);
         by rewrite andb_false_r).
  rewrite Hres. destruct Hfx as (_ & -> & -> & Hfx).
  destruct (bool_decide (fxFixingDate <= today_)%Z) eqn:Hfixed.
  - destruct Hfx as [_ ->].
    rewrite (bool_decide_eq_false_2 (today_ < fxFixingDate)%Z)
      by (apply bool_decide_eq_true_1 in Hfixed; lia).
    rewrite (bool_decide_eq_false_2 _ is_Some_None).
    destruct (kind c); simpl; by rewrite ?andb_false_r.
  - destruct Hfx as (_ & -> & _).
    rewrite (bool_decide_eq_true_2 (today_ < fxFixingDate)%Z)
      by (apply bool_decide_eq_false_1 in Hfixed; lia).
    rewrite (bool_decide_eq_true_2 (is_Some (Some _))) by eauto.
    destruct (kind c); simpl; try reflexivity; by rewrite negb_involutive, andb_true_r.
Qed.

(** a coupon amount on states of the declared shape *)
Lemma couponAmount_Ok (flow : CashFlow Real) (c : FloatingRateCoupon Real) (idx : nat)
    (simTime : Real) (fixedRate : option Real) (needed : bool) (n : nat)
    (states : list (list (list Real))) :
  needed = match kind c with
           | IborCoupon | CmsCoupon => negb (bool_decide (fixingDate c <= today_)%Z)
           | _ => true
           end ->
  (needed = false -> is_Some fixedRate) ->
  negb needed && bool_decide (is_Some (fxLinkedSimTime (unwrap flow).2)) &&
    ((0 <? fxLinkedSourceCcyIdx (unwrap flow).2)%nat ||
     (0 <? fxLinkedTargetCcyIdx (unwrap flow).2)%nat) = false ->
  Forall2 (fun (st : list (list Real)) (ixs : list nat) => length st = length ixs) states
          (declareTimes (unwrap flow).2 needed simTime idx).2 ->
  exists v, couponAmount (unwrap flow).2 c idx simTime fixedRate n states = Ok v.
Proof.
  intros Hneeded Hrate Hcase Hfit.
  assert (exists fxv, fxFixingOf (unwrap flow).2 n states = Ok fxv) as [fxv Hfx].
  { unfold fxFixingOf.
    destruct (unwrap_fx_states flow) as [[-> _]|[(-> & [r ->] & _)|(-> & -> & [t Ht] & Hix)]];
      eauto.
    unfold declareTimes in Hfit. rewrite Ht, Hix in Hfit.
    rewrite Ht, (bool_decide_eq_true_2 (is_Some (Some t))) in Hcase by eauto.
    destruct needed; simpl in Hfit, Hcase.
    - apply Forall2_cons_inv_r in Hfit as (st0 & rest & _ & Hrest & ->).
      apply Forall2_cons_inv_r in Hrest as (st1 & rest' & Hlen & _ & ->).
      by apply (simulatedFx_Ok n _ _ 1 _ st1).
    - apply orb_false_iff in Hcase as [Hs Ht'].
      unfold simulatedFx, simulatedFxRates. rewrite Hs, Ht'. simpl. eauto. }
  assert (needed = true -> exists st x, at_ states 0 = Ok st /\ at_ st 0 = Ok x) as Hread.
  { intros ->. unfold declareTimes in Hfit. simpl in Hfit.
    apply Forall2_cons_inv_r in Hfit as (st0 & rest & Hlen & _ & ->).
    destruct st0 as [|x st0]; [discriminate|]. by exists (x :: st0), x. }
  unfold couponAmount. rewrite Hfx.
  destruct (kind c); subst needed;
    try (destruct (Hread eq_refl) as (st & x & -> & Hx); simpl; rewrite Hx; simpl; eauto).
  - destruct fixedRate as [r|]; simpl; [eauto|].
    destruct (bool_decide (fixingDate c <= today_)%Z); simpl in *.
    + by destruct (Hrate eq_refl).
    + destruct (Hread eq_refl) as (st & x & -> & Hx). simpl. rewrite Hx. simpl. eauto.
  - destruct fixedRate as [r|]; simpl; [eauto|].
    destruct (bool_decide (fixingDate c <= today_)%Z); simpl in *.
    + by destruct (Hrate eq_refl).
    + destruct (Hread eq_refl) as (st & x & -> & Hx). simpl. rewrite Hx. simpl. eauto.
Qed.

(** X8.  On states of the shape a descriptor declares, its amount function
    returns a value, for every flow but the ones singled out by
    [fixedRateFutureFx]. *)
Theorem amount_defined_on_declared_states (flow : CashFlow Real) (payCcy : Currency)
    (payer' : Real) (legNo' cfNo' : nat) (info : CashflowInfo Real)
    (n : nat) (states : list (list (list Real))) :
  createCashflowInfo flow payCcy payer' legNo' cfNo' = Ok info ->
  fixedRateFutureFx flow = false ->
  statesFit info states ->
  exists v, amountCalculator info n states = Ok v.
Proof.
  intros Hinfo Hcase [Hlen Hfit].
  apply createCashflowInfo_inv in Hinfo
    as [(_ & amount & _ & _ & ->)|[(_ & s & t & fa & ft & _ & Hix & ->)|Hinfo]].
  - eauto.
  - rewrite Hix in Hfit.
    apply Forall2_cons_inv_r in Hfit as (st0 & rest & Hlen0 & _ & ->).
    destruct (simulatedFxRates_Ok n s t 0 (st0 :: rest) st0 eq_refl Hlen0) as [fx ->].
    simpl. eauto.
  - destruct Hinfo as (c & needed & simTime & fixedRate & Hres & _ & Hneeded & Hrate
                       & _ & Hix & ->).
    rewrite Hix in Hfit. rewrite (fixedRateFutureFx_spec flow c Hres), <- Hneeded in Hcase.
    by eapply couponAmount_Ok.
Qed.

(** the amount function of a flow singled out by [fixedRateFutureFx] *)
Lemma fixedRateFutureFx_amount (flow : CashFlow Real) (payCcy : Currency)
    (payer' : Real) (legNo' cfNo' : nat) (info : CashflowInfo Real) :
  createCashflowInfo flow payCcy payer' legNo' cfNo' = Ok info ->
  fixedRateFutureFx flow = true ->
  length (simulationTimes info) = 1 /\
  (forall (n : nat) (states : list (list (list Real))),
     length states = length (simulationTimes info) ->
     amountCalculator info n states = Fail OutOfRange).
Proof.
  intros Hinfo Hcase.
  apply createCashflowInfo_inv in Hinfo as [[Hno _]|[[Hno _]|Hinfo]]; [congruence..|].
  destruct Hinfo as (c & needed & simTime & fixedRate & Hres & _ & Hneeded & Hrate
                     & Hts & _ & Hamount).
  rewrite (fixedRateFutureFx_spec flow c Hres), <- Hneeded in Hcase.
  apply andb_true_iff in Hcase as [[Hn Hsim]%andb_true_iff Hccy].
  apply negb_true_iff in Hn. apply bool_decide_eq_true_1 in Hsim as [t Ht].
  assert (length (simulationTimes info) = 1) as Hone.
  { rewrite Hts. unfold declareTimes. rewrite Hn, Ht. reflexivity. }
  split; [exact Hone|].
  intros n states Hlen. rewrite Hone in Hlen. rewrite Hamount.
  destruct (Hrate Hn) as [r ->].
  assert (fxFixingOf (unwrap flow).2 n states = Fail OutOfRange) as Hfx.
  { unfold fxFixingOf.
    destruct (unwrap_fx_states flow) as [[_ Hnone]|[(_ & _ & Hnone)|(-> & -> & _)]];
      [congruence..|].
    apply simulatedFx_out_of_range; [|exact Hccy].
    apply lookup_ge_None_2. lia. }
  unfold couponAmount. rewrite Hfx.
  destruct (kind c); subst needed; try discriminate; reflexivity.
Qed.

(** a descriptor whose amount function fails on every list of states of the
    declared length has no path value *)
Lemma cashflowPathValue_amount_fails (info : CashflowInfo Real) :
  (forall (n : nat) (states : list (list (list Real))),
     length states = length (simulationTimes info) ->
     exists err, amountCalculator info n states = Fail err) ->
  forall (pathValues : list (list (list Real))) (times : list Real),
    exists err, cashflowPathValue info pathValues times = Fail err.
Proof.
  intros Hfail pathValues times. unfold cashflowPathValue.
  destruct (index pathValues 0) as [front|]; simpl; [|eauto].
  destruct (index front 0) as [frontFront|]; simpl; [|eauto].
  destruct (timeIndex _ _) as [payIdx|]; simpl; [|eauto].
  destruct (mapM_outcome _ _) as [states|] eqn:Hstates; simpl; [|eauto].
  apply mapM_outcome_length in Hstates. rewrite length_seq in Hstates.
  destruct (Hfail (length frontFront) _ Hstates) as [err ->]. simpl. eauto.
Qed.

(** X9.  For a flow singled out by [fixedRateFutureFx], the descriptor
    declares one simulation time, the one of the FX fixing, and its amount
    function reads the FX state from a second row of states: on states with
    as many rows as the descriptor declares, it fails with the out of range
    error, and so [cashflowPathValue] returns no value for the
    descriptor. *)
Theorem fixed_rate_future_fx_amount_out_of_range (flow : CashFlow Real) (payCcy : Currency)
    (payer' : Real) (legNo' cfNo' : nat) (info : CashflowInfo Real) :
  createCashflowInfo flow payCcy payer' legNo' cfNo' = Ok info ->
  fixedRateFutureFx flow = true ->
  length (simulationTimes info) = 1 /\
  (forall (n : nat) (states : list (list (list Real))),
     length states = length (simulationTimes info) ->
     amountCalculator info n states = Fail OutOfRange) /\
  (forall (pathValues : list (list (list Real))) (times : list Real),
     exists err, cashflowPathValue info pathValues times = Fail err).
Proof.
  intros Hinfo Hcase.
  destruct (fixedRateFutureFx_amount _ _ _ _ _ _ Hinfo Hcase) as [Hone Hfail].
  split; [exact Hone|]. split; [exact Hfail|].
  apply cashflowPathValue_amount_fails. intros n states Hlen.
  rewrite (Hfail n states Hlen). eauto.
Qed.

(** X10.  [createCashflowInfo] returns a descriptor for exactly the flows of
    a supported shape that are not coupons whose accrual starts on the pay
    date or later. *)
Theorem createCashflowInfo_succeeds_iff (flow : CashFlow Real) (payCcy : Currency)
    (payer' : Real) (legNo' cfNo' : nat) :
  (exists info, createCashflowInfo flow payCcy payer' legNo' cfNo' = Ok info) <->
  supportedShape flow = true /\
  match asCoupon flow with
  | Some start => (start < flowDate flow)%Z
  | None => True
  end.
Proof.
  split.
  - intros [info Hinfo]. split.
    + destruct (supportedShape flow) eqn:Hshape; [reflexivity|].
      rewrite createCashflowInfo_unsupported in Hinfo by done. discriminate.
    + apply createCashflowInfo_Ok in Hinfo as [_ Hcut].
      destruct (asCoupon flow); [by destruct Hcut | exact I].
  - intros [Hshape Hstart]. unfold createCashflowInfo.
    assert (exists cutoff,
              match asCoupon flow with
              | Some start =>
                  if bool_decide (start < flowDate flow)%Z
                  then Ok (radd (time start) tinyTime)
                  else Fail (AccrualStartNotBeforePay legNo' cfNo')
              | None => Ok (time (flowDate flow))
              end = Ok cutoff) as [cutoff ->].
    { destruct (asCoupon flow); [rewrite bool_decide_eq_true_2 by done|]; eauto. }
    simpl. clear Hstart.
    pose proof (unwrap_residualFlow flow) as Hres.
    unfold supportedShape in Hshape.
    destruct flow; try (by eauto); try (case_bool_decide; by eauto);
      destruct (unwrap _) as [flow' w]; simpl in Hres; subst flow';
      (destruct (residualFlow _) as [| | | | | |cpn| |]; try discriminate);
      destruct (kind cpn); simpl; eauto.
Qed.
End ClassifierFacts.

(** *** The backward-induction calibrator: the descriptors of the legs *)

Section LegFacts.
Context {Real : Type} `{RealOps Real} `{!CrossAssetModel Real} `{!Regression Real}.

Import McMultiLegBaseEngine.

(** the loop over the cash flows of a leg, from the cash flow number [k] *)
Lemma classifyLeg_loop (legNo' : nat) (currency : Currency) (payer' : Real)
    (leg : list (CashFlow Real)) :
  forall (k : nat) (acc : list (CashflowInfo Real)) (k' : nat)
         (acc' : list (CashflowInfo Real)),
    foldM (fun (st : nat * list (CashflowInfo Real)) cashflow =>
             let '(cashflowNo, acc) := st in
             if bool_decide (flowDate cashflow <= today_)%Z then Ok st
             else
               info ← createCashflowInfo cashflow currency payer' legNo' cashflowNo;
               Ok ((cashflowNo + 1)%nat, acc ++ [info]))
          leg (k, acc) = Ok (k', acc') <->
    exists infos,
      acc' = acc ++ infos /\ k' = k + length infos /\
      Forall2 (fun (kf : nat * CashFlow Real) info =>
                 createCashflowInfo kf.2 currency payer' legNo' kf.1 = Ok info)
              (imap (fun i flow => (k + i, flow))
                    (filter (fun flow => (today_ < flowDate flow)%Z) leg))
              infos.
Proof.
  induction leg as [|flow leg IH]; intros k acc k' acc'; simpl.
  - split.
    + intros [= <- <-]. exists []. rewrite app_nil_r. repeat split; [simpl; lia | constructor].
    + intros (infos & -> & -> & Hall). apply Forall2_nil_inv_l in Hall as ->.
      rewrite app_nil_r. simpl. do 2 f_equal. lia.
  - rewrite filter_cons. case_bool_decide as Hpaid.
    + rewrite decide_False by lia. simpl. apply IH.
    + rewrite decide_True by lia. simpl. split.
      * intros Hloop. apply bind_Ok in Hloop as (st & Hstep & Hloop).
        apply bind_Ok in Hstep as (info & Hinfo & Hstep). simpl in Hstep.
        injection Hstep as <-.
        apply IH in Hloop as (infos & -> & -> & Hall).
        exists (info :: infos). rewrite <- app_assoc. simpl.
        split; [reflexivity|]. split; [lia|].
        constructor; [by rewrite Nat.add_0_r|].
        erewrite imap_ext; [exact Hall|]. intros i x _. simpl. f_equal. lia.
      * intros (infos & -> & -> & Hall).
        apply Forall2_cons_inv_l in Hall as (info & infos' & Hinfo & Hall & ->).
        simpl in Hinfo. rewrite Nat.add_0_r in Hinfo. rewrite Hinfo. simpl.
        apply IH. exists infos'. rewrite <- app_assoc. simpl.
        split; [reflexivity|]. split; [lia|].
        erewrite imap_ext; [exact Hall|]. intros i x _. simpl. f_equal. lia.
Qed.

(** what the loop over the cash flows of a leg returns, when it returns *)
Lemma classifyLeg_Ok_inv (legNo' : nat) (currency : Currency) (payer' : Real)
    (leg : list (CashFlow Real)) (acc acc' : list (CashflowInfo Real)) :
  classifyLeg legNo' currency payer' leg acc = Ok acc' ->
  exists infos,
    acc' = acc ++ infos /\
    Forall2 (fun (kf : nat * CashFlow Real) info =>
               createCashflowInfo kf.2 currency payer' legNo' kf.1 = Ok info)
            (aliveFlows leg) infos.
Proof.
  unfold classifyLeg, aliveFlows. intros Hleg.
  apply bind_Ok in Hleg as ([k' acc''] & Hloop & Hleg). simpl in Hleg.
  injection Hleg as <-. apply classifyLeg_loop in Hloop as (infos & -> & _ & Hall).
  by exists infos.
Qed.

(** a leg whose flows are all paid leaves the descriptors as they are *)
Lemma classifyLeg_paid (legNo' : nat) (currency : Currency) (payer' : Real)
    (leg : list (CashFlow Real)) (acc : list (CashflowInfo Real)) :
  Forall (fun flow : CashFlow Real => (flowDate flow <= today_)%Z) leg ->
  classifyLeg legNo' currency payer' leg acc = Ok acc.
Proof.
  intros Hleg. unfold classifyLeg.
  assert (forall k,
            foldM (fun (st : nat * list (CashflowInfo Real)) cashflow =>
                     let '(cashflowNo, acc) := st in
                     if bool_decide (flowDate cashflow <= today_)%Z then Ok st
                     else
                       info ← createCashflowInfo cashflow currency payer' legNo' cashflowNo;
                       Ok ((cashflowNo + 1)%nat, acc ++ [info]))
                  leg (k, acc) = Ok (k, acc)) as ->; [|reflexivity].
  induction Hleg as [|flow leg Hflow _ IH]; intros k; simpl; [reflexivity|].
  rewrite bool_decide_eq_true_2 by done. simpl. apply IH.
Qed.

(** X11.  The loop over the cash flows of a leg appends to the descriptors
    one descriptor for each flow of the leg that pays after today, in the
    order of the leg and under consecutive cash flow numbers from zero; it
    returns exactly when [createCashflowInfo] returns for each of these
    flows. *)
Theorem classifyLeg_descriptors (legNo' : nat) (currency : Currency) (payer' : Real)
    (leg : list (CashFlow Real)) (acc acc' : list (CashflowInfo Real)) :
  classifyLeg legNo' currency payer' leg acc = Ok acc' <->
  exists infos,
    acc' = acc ++ infos /\
    Forall2 (fun (kf : nat * CashFlow Real) info =>
               createCashflowInfo kf.2 currency payer' legNo' kf.1 = Ok info)
            (aliveFlows leg) infos.
Proof.
  unfold classifyLeg, aliveFlows. split.
  - intros Hleg. apply bind_Ok in Hleg as ([k' acc''] & Hloop & Hleg). simpl in Hleg.
    injection Hleg as <-. apply classifyLeg_loop in Hloop as (infos & -> & _ & Hall).
    by exists infos.
  - intros (infos & -> & Hall).
    assert (foldM (fun (st : nat * list (CashflowInfo Real)) cashflow =>
                     let '(cashflowNo, acc) := st in
                     if bool_decide (flowDate cashflow <= today_)%Z then Ok st
                     else
                       info ← createCashflowInfo cashflow currency payer' legNo' cashflowNo;
                       Ok ((cashflowNo + 1)%nat, acc ++ [info]))
                  leg (0, acc) = Ok (0 + length infos, acc ++ infos)) as ->.
    { apply classifyLeg_loop. by exists infos. }
    reflexivity.
Qed.

(** the loop over the legs, from the leg number [i] *)
Lemma classifyLegs_loop (e : McMultiLegBaseEngine.t Real) (legs : list (list (CashFlow Real))) :
  forall (i : nat) (acc : list (CashflowInfo Real)) (i' : nat)
         (acc' : list (CashflowInfo Real)),
    foldM (fun (st : nat * list (CashflowInfo Real)) leg =>
             let '(legNo, acc) := st in
             currency ← index (currency_ e) legNo;
             payer ← index (payer_ e) legNo;
             acc' ← classifyLeg legNo currency payer leg acc;
             Ok ((legNo + 1)%nat, acc'))
          legs (i, acc) = Ok (i', acc') ->
    exists infoss,
      acc' = acc ++ concat infoss /\
      Forall2 (fun (il : nat * list (CashFlow Real)) infos =>
                 exists ccy pay,
                   currency_ e !! il.1 = Some ccy /\ payer_ e !! il.1 = Some pay /\
                   Forall2 (fun (kf : nat * CashFlow Real) info =>
                              createCashflowInfo kf.2 ccy pay il.1 kf.1 = Ok info)
                           (aliveFlows il.2) infos)
              (imap (fun j leg => (i + j, leg)) legs) infoss.
Proof.
  induction legs as [|leg legs IH]; intros i acc i' acc' Hloop; simpl in Hloop.
  - injection Hloop as <- <-. exists []. simpl. rewrite app_nil_r. split; [done|constructor].
  - apply bind_Ok in Hloop as (st & Hstep & Hloop).
    apply bind_Ok in Hstep as (ccy & Hccy & Hstep). simpl in Hstep.
    apply bind_Ok in Hstep as (pay & Hpay & Hstep). simpl in Hstep.
    apply bind_Ok in Hstep as (acc1 & Hleg & Hstep). simpl in Hstep.
    injection Hstep as <-.
    apply classifyLeg_Ok_inv in Hleg as (infos & -> & Hinfos).
    apply IH in Hloop as (infoss & -> & Hall).
    exists (infos :: infoss). simpl. rewrite <- app_assoc. split; [reflexivity|].
    constructor.
    + simpl. rewrite Nat.add_0_r. exists ccy, pay.
      apply index_Ok in Hccy. apply index_Ok in Hpay. done.
    + erewrite imap_ext; [exact Hall|]. intros j x _. simpl. f_equal. lia.
Qed.

(** X12.  When the first part of [calculate] goes through, the currencies
    and the payer flags are as many as the legs, the time sets are the
    ones built from the descriptors and hold a simulation time, and the
    descriptors are those of the flows of the legs that pay after today:
    leg by leg, made with the currency and the payer flag of the leg and
    numbered with the position of the leg. *)
Theorem prepare_descriptors (e : McMultiLegBaseEngine.t Real)
    (cashflowInfo : list (CashflowInfo Real)) (ts : McMultiLegBaseEngine.TimeSets Real) :
  prepare e = Ok (cashflowInfo, ts) ->
  length (currency_ e) = length (leg_ e) /\
  length (payer_ e) = length (leg_ e) /\
  ts = buildTimes e cashflowInfo /\
  McMultiLegBaseEngine.simulationTimes ts <> [] /\
  exists infoss,
    cashflowInfo = concat infoss /\
    Forall2 (fun (il : nat * list (CashFlow Real)) infos =>
               exists ccy pay,
                 currency_ e !! il.1 = Some ccy /\ payer_ e !! il.1 = Some pay /\
                 Forall2 (fun (kf : nat * CashFlow Real) info =>
                            createCashflowInfo kf.2 ccy pay il.1 kf.1 = Ok info)
                         (aliveFlows il.2) infos)
            (imap pair (leg_ e)) infoss.
Proof.
  unfold prepare. intros Hprep.
  apply bind_Ok in Hprep as ([] & Hccy%require_Ok & Hprep). simpl in Hprep.
  apply bind_Ok in Hprep as ([] & Hpay%require_Ok & Hprep). simpl in Hprep.
  apply bind_Ok in Hprep as (infos & Hlegs & Hprep). simpl in Hprep.
  apply bind_Ok in Hprep as ([] & Htimes%require_Ok & Hprep). simpl in Hprep.
  injection Hprep as <- <-.
  apply Nat.eqb_eq in Hccy. apply Nat.eqb_eq in Hpay.
  repeat split; try done.
  - intros Hnone. unfold buildTimes in Hnone. simpl in Hnone.
    rewrite Hnone in Htimes. discriminate.
  - unfold classifyLegs in Hlegs.
    apply bind_Ok in Hlegs as ([i' acc'] & Hloop & Hlegs). simpl in Hlegs.
    injection Hlegs as <-.
    apply classifyLegs_loop in Hloop as (infoss & -> & Hall). by exists infoss.
Qed.

(** the legs whose flows are all paid leave the descriptors as they are *)
Lemma classifyLegs_loop_paid (e : McMultiLegBaseEngine.t Real)
    (legs : list (list (CashFlow Real))) :
  forall (i : nat) (acc : list (CashflowInfo Real)),
    i + length legs <= length (currency_ e) ->
    i + length legs <= length (payer_ e) ->
    Forall (Forall (fun flow : CashFlow Real => (flowDate flow <= today_)%Z)) legs ->
    foldM (fun (st : nat * list (CashflowInfo Real)) leg =>
             let '(legNo, acc) := st in
             currency ← index (currency_ e) legNo;
             payer ← index (payer_ e) legNo;
             acc' ← classifyLeg legNo currency payer leg acc;
             Ok ((legNo + 1)%nat, acc'))
          legs (i, acc) = Ok (i + length legs, acc).
Proof.
  induction legs as [|leg legs IH]; intros i acc Hccy Hpay Hpaid; simpl in *.
  - by rewrite Nat.add_0_r.
  - apply Forall_cons in Hpaid as [Hleg Hpaid].
    destruct (lookup_lt_is_Some_2 (currency_ e) i) as [ccy Hc]; [lia|].
    destruct (lookup_lt_is_Some_2 (payer_ e) i) as [pay Hp]; [lia|].
    assert (index (currency_ e) i = Ok ccy) as -> by (unfold index; by rewrite Hc).
    assert (index (payer_ e) i = Ok pay) as -> by (unfold index; by rewrite Hp).
    simpl.
    rewrite classifyLeg_paid by done.
    simpl. rewrite IH by (done || lia). do 2 f_equal. lia.
Qed.

(** X13.  An engine that has nothing left to simulate is not valued: when
    every flow of every leg is paid by today, there is no simulation date
    and no exercise date after today, [calculate] fails with the error on
    the missing simulation times, before a path is drawn. *)
Theorem calculate_rejects_nothing_to_simulate (e : McMultiLegBaseEngine.t Real) :
  length (currency_ e) = length (leg_ e) ->
  length (payer_ e) = length (leg_ e) ->
  Forall (Forall (fun flow : CashFlow Real => (flowDate flow <= today_)%Z)) (leg_ e) ->
  simulationDates_ e = [] ->
  match exercise_ e with
  | Some dates => Forall (fun d : Date => (d <= today_)%Z) dates
  | None => True
  end ->
  calculate e =
    (0, Fail (RequireFailed
                "McMultiLegBaseEngine::calculate(): no simulation times, this is not expected.")).
Proof.
  intros Hccy Hpay Hpaid Hdates Hex. unfold calculate, prepare.
  rewrite Hccy, Hpay, Nat.eqb_refl. simpl.
  unfold classifyLegs.
  rewrite (classifyLegs_loop_paid e (leg_ e) 0 []) by (done || simpl; lia). simpl.
  unfold buildTimes. simpl. rewrite Hdates. simpl.
  assert (match exercise_ e with
          | Some dates =>
              set_insert_all (map time (filter (fun d => ~ (d <= today_)%Z) dates)) []
          | None => []
          end = []) as ->; [|reflexivity].
  destruct (exercise_ e) as [dates|]; [|reflexivity].
  assert (filter (fun d => ~ (d <= today_)%Z) dates = []) as ->; [|reflexivity].
  induction Hex as [|d dates Hd _ IH]; [done|].
  rewrite filter_cons, decide_False by (intros Hn; by apply Hn). exact IH.
Qed.
End LegFacts.

(** *** Ordered sets of times *)

Section SetFacts.
Context {Real : Type} `{RealOps Real}.

Lemma set_mem_cons (t x : Real) (s : list Real) :
  set_mem t (x :: s) = requiv x t || set_mem t s.
Proof.
  unfold set_mem. simpl. destruct (requiv x t); [reflexivity|].
  by destruct (set_find t s).
Qed.

(** an element that was found is found after an insertion *)
Lemma set_mem_insert_mono (t u : Real) (s : list Real) :
  set_mem t s = true -> set_mem t (set_insert u s) = true.
Proof.
  induction s as [|x s IH]; [discriminate|]. simpl.
  destruct (rltb u x); [|destruct (rltb x u)]; rewrite ?set_mem_cons; intros Hmem.
  - rewrite Hmem. apply orb_true_r.
  - apply orb_true_iff in Hmem as [->|Hmem]; [reflexivity|].
    rewrite IH by done. apply orb_true_r.
  - exact Hmem.
Qed.

(** the element inserted is found *)
Lemma set_mem_insert_same (t : Real) (s : list Real) :
  rltb t t = false -> set_mem t (set_insert t s) = true.
Proof.
  intros Hirr. induction s as [|x s IH]; simpl.
  - rewrite set_mem_cons. unfold requiv. by rewrite Hirr.
  - destruct (rltb t x) eqn:Htx; [|destruct (rltb x t) eqn:Hxt]; rewrite !set_mem_cons.
    + unfold requiv at 1. by rewrite Hirr.
    + rewrite IH. apply orb_true_r.
    + unfold requiv. by rewrite Htx, Hxt.
Qed.

Lemma set_mem_insert_all_mono (t : Real) (us s : list Real) :
  set_mem t s = true -> set_mem t (set_insert_all us s) = true.
Proof.
  unfold set_insert_all. revert s. induction us as [|u us IH]; intros s Hmem; simpl; [done|].
  apply IH. by apply set_mem_insert_mono.
Qed.

Lemma set_mem_insert_all_elem (t : Real) (us s : list Real) :
  rltb t t = false -> t ∈ us -> set_mem t (set_insert_all us s) = true.
Proof.
  unfold set_insert_all. intros Hirr. revert s.
  induction us as [|u us IH]; intros s Hin; simpl; [by apply elem_of_nil in Hin|].
  apply elem_of_cons in Hin as [->|Hin].
  - apply (set_mem_insert_all_mono _ us). by apply set_mem_insert_same.
  - by apply IH.
Qed.

(** an insertion adds no other element *)
Lemma elem_of_set_insert (x t : Real) (s : list Real) :
  x ∈ set_insert t s -> x = t \/ x ∈ s.
Proof.
  induction s as [|y s IH]; simpl.
  - intros ->%list_elem_of_singleton. by left.
  - destruct (rltb t y); [|destruct (rltb y t)]; intros Hin.
    + apply elem_of_cons in Hin as [->|Hin]; [by left | by right].
    + apply elem_of_cons in Hin as [->|Hin]; [right; left|].
      destruct (IH Hin) as [->|Hs]; [by left | right; by right].
    + by right.
Qed.

Lemma elem_of_set_insert_all (x : Real) (us s : list Real) :
  x ∈ set_insert_all us s -> x ∈ us \/ x ∈ s.
Proof.
  unfold set_insert_all. revert s. induction us as [|u us IH]; intros s Hin; simpl in Hin.
  - by right.
  - destruct (IH _ Hin) as [Hus|Hs]; [left; by right|].
    apply elem_of_set_insert in Hs as [->|Hs]; [left; by left | by right].
Qed.

(** an insertion keeps the order *)
Lemma set_sorted_insert (t : Real) (s : list Real) :
  set_sorted s = true -> set_sorted (set_insert t s) = true.
Proof.
  induction s as [|x s IH]; [reflexivity|]. intros Hs.
  change (set_insert t (x :: s)) with
    (if rltb t x then t :: x :: s else
       if rltb x t then x :: set_insert t s else x :: s).
  destruct (rltb t x) eqn:Htx; [|destruct (rltb x t) eqn:Hxt; [|exact Hs]].
  - change (rltb t x && set_sorted (x :: s) = true). by rewrite Htx, Hs.
  - assert (set_sorted s = true) as Hs'.
    { destruct s as [|y s]; [reflexivity|]. simpl in Hs. by apply andb_true_iff in Hs as [_ ?]. }
    specialize (IH Hs').
    destruct s as [|y s]; simpl.
    + by rewrite Hxt.
    + simpl in Hs. apply andb_true_iff in Hs as [Hxy _].
      simpl in IH. destruct (rltb t y); [|destruct (rltb y t)].
      * rewrite Hxt. exact IH.
      * rewrite Hxy. exact IH.
      * rewrite Hxy. exact IH.
Qed.

Lemma set_sorted_insert_all (us s : list Real) :
  set_sorted s = true -> set_sorted (set_insert_all us s) = true.
Proof.
  unfold set_insert_all. revert s. induction us as [|u us IH]; intros s Hs; simpl; [done|].
  apply IH. by apply set_sorted_insert.
Qed.
End SetFacts.

(** *** The backward-induction calibrator: the time sets and the tables *)

Section CalibrationFacts.
Context {Real : Type} `{RealOps Real} `{!CrossAssetModel Real} `{!Regression Real}.

(** the exercise and valuation times are found in the sets built from them *)
Lemma buildTimes_found (e : McMultiLegBaseEngine.t Real)
    (cashflowInfo : list (CashflowInfo Real)) :
  (forall x : Real, rltb x x = false) ->
  (forall t : Real,
     t ∈ McMultiLegBaseEngine.exerciseTimes (McMultiLegBaseEngine.buildTimes e cashflowInfo) \/
     t ∈ McMultiLegBaseEngine.xvaTimes (McMultiLegBaseEngine.buildTimes e cashflowInfo) ->
     set_mem t (McMultiLegBaseEngine.exerciseXvaTimes
                  (McMultiLegBaseEngine.buildTimes e cashflowInfo)) = true) /\
  (forall t : Real,
     t ∈ McMultiLegBaseEngine.exerciseXvaTimes
           (McMultiLegBaseEngine.buildTimes e cashflowInfo) ->
     set_mem t (McMultiLegBaseEngine.simulationTimes
                  (McMultiLegBaseEngine.buildTimes e cashflowInfo)) = true).
Proof.
  intros Hirr. unfold McMultiLegBaseEngine.buildTimes. simpl. split.
  - intros t [Hex|Hxva].
    + apply set_mem_insert_all_mono.
      apply set_mem_insert_all_elem; [apply Hirr | exact Hex].
    + apply set_mem_insert_all_elem; [apply Hirr | exact Hxva].
  - intros t Hin.
    destruct (elem_of_set_insert_all _ _ _ Hin) as [Hxva|Hex].
    + apply set_mem_insert_all_elem; [apply Hirr | exact Hxva].
    + apply set_mem_insert_all_mono.
      destruct (elem_of_set_insert_all _ _ _ Hex) as [Hex'|Hnil];
        [|by apply elem_of_nil in Hnil].
      apply set_mem_insert_all_elem; [apply Hirr | exact Hex'].
Qed.

(** X14.  The time sets built by [calculate] are strictly increasing; every
    exercise time and every valuation time is found among the exercise and
    valuation times, and each of these among the simulation times.  The
    comparison of the numbers is required to be irreflexive. *)
Theorem time_sets_ordered_and_nested (e : McMultiLegBaseEngine.t Real)
    (cashflowInfo : list (CashflowInfo Real)) :
  (forall x : Real, rltb x x = false) ->
  set_sorted (McMultiLegBaseEngine.exerciseTimes
                (McMultiLegBaseEngine.buildTimes e cashflowInfo)) = true /\
  set_sorted (McMultiLegBaseEngine.xvaTimes
                (McMultiLegBaseEngine.buildTimes e cashflowInfo)) = true /\
  set_sorted (McMultiLegBaseEngine.exerciseXvaTimes
                (McMultiLegBaseEngine.buildTimes e cashflowInfo)) = true /\
  set_sorted (McMultiLegBaseEngine.simulationTimes
                (McMultiLegBaseEngine.buildTimes e cashflowInfo)) = true /\
  (forall t : Real,
     t ∈ McMultiLegBaseEngine.exerciseTimes (McMultiLegBaseEngine.buildTimes e cashflowInfo) \/
     t ∈ McMultiLegBaseEngine.xvaTimes (McMultiLegBaseEngine.buildTimes e cashflowInfo) ->
     set_mem t (McMultiLegBaseEngine.exerciseXvaTimes
                  (McMultiLegBaseEngine.buildTimes e cashflowInfo)) = true) /\
  (forall t : Real,
     t ∈ McMultiLegBaseEngine.exerciseXvaTimes
           (McMultiLegBaseEngine.buildTimes e cashflowInfo) ->
     set_mem t (McMultiLegBaseEngine.simulationTimes
                  (McMultiLegBaseEngine.buildTimes e cashflowInfo)) = true).
Proof.
  intros Hirr. destruct (buildTimes_found e cashflowInfo Hirr) as [Hfound Hsim].
  unfold McMultiLegBaseEngine.buildTimes in *. simpl in *.
  split; [|split; [|split; [|split; [|by split]]]].
  - destruct (McMultiLegBaseEngine.exercise_ e); [|reflexivity].
    by apply set_sorted_insert_all.
  - by apply set_sorted_insert_all.
  - by do 2 apply set_sorted_insert_all.
  - by do 3 apply set_sorted_insert_all.
Qed.

(** the loop over the cash flows leaves the dirty value coefficients alone
    and keeps the sizes of the status and of the cache *)
Lemma updateCashflows_sizes
    (cashflowInfo : list (CashflowInfo Real)) (ts : McMultiLegBaseEngine.TimeSets Real)
    (pathValues : list (list (list Real))) (t : Real) (l : list nat)
    (st st1 : McMultiLegBaseEngine.CalibrationState Real) :
  foldM (McMultiLegBaseEngine.updateCashflow cashflowInfo ts pathValues t) l st = Ok st1 ->
  McMultiLegBaseEngine.coeffsUndDirty st1 = McMultiLegBaseEngine.coeffsUndDirty st /\
  length (McMultiLegBaseEngine.cfStatus st1) = length (McMultiLegBaseEngine.cfStatus st) /\
  length (McMultiLegBaseEngine.amountCache st1) = length (McMultiLegBaseEngine.amountCache st).
Proof.
  apply (foldM_invariant
           (fun s =>
              McMultiLegBaseEngine.coeffsUndDirty s = McMultiLegBaseEngine.coeffsUndDirty st /\
              length (McMultiLegBaseEngine.cfStatus s) =
                length (McMultiLegBaseEngine.cfStatus st) /\
              length (McMultiLegBaseEngine.amountCache s) =
                length (McMultiLegBaseEngine.amountCache st))); [|done].
  intros s i s' Hs Hstep. unfold McMultiLegBaseEngine.updateCashflow in Hstep.
  apply bind_Ok in Hstep as (status & _ & Hstep). simpl in Hstep.
  apply bind_Ok in Hstep as (info & _ & Hstep). simpl in Hstep.
  destruct status; repeat case_match; inv_outcome; simpl; rewrite ?length_insert; done.
Qed.

(** a turn of the backward loop keeps the sizes of the four tables of
    coefficients *)
Lemma timeStep_sizes (e : McMultiLegBaseEngine.t Real)
    (cashflowInfo : list (CashflowInfo Real)) (ts : McMultiLegBaseEngine.TimeSets Real)
    (pathValues : list (list (list Real))) (t : Real)
    (st st' : McMultiLegBaseEngine.CalibrationState Real) :
  McMultiLegBaseEngine.timeStep e cashflowInfo ts pathValues st t = Ok st' ->
  length (McMultiLegBaseEngine.coeffsUndDirty st') =
    length (McMultiLegBaseEngine.coeffsUndDirty st) /\
  length (McMultiLegBaseEngine.coeffsUndExInto st') =
    length (McMultiLegBaseEngine.coeffsUndExInto st) /\
  length (McMultiLegBaseEngine.coeffsContinuationValue st') =
    length (McMultiLegBaseEngine.coeffsContinuationValue st) /\
  length (McMultiLegBaseEngine.coeffsOption st') =
    length (McMultiLegBaseEngine.coeffsOption st).
Proof.
  intros Hstep. unfold McMultiLegBaseEngine.timeStep in Hstep.
  apply bind_Ok in Hstep as (st1 & Hst1 & Hstep). simpl in Hstep.
  pose proof (updateCashflows_frame _ _ _ _ _ _ _ Hst1) as (_ & _ & Hex & Hcont & Hopt).
  apply updateCashflows_sizes in Hst1 as (Hdirty & _ & _).
  apply bind_Ok in Hstep as (regressor & _ & Hstep). simpl in Hstep.
  apply bind_Ok in Hstep as (cExTable & HcEx & Hstep). simpl in Hstep.
  apply bind_Ok in Hstep as ([[cContTable option1] cOption1] & Hdecide & Hstep).
  simpl in Hstep.
  apply bind_Ok in Hstep as (cDirty & HcDirty & Hstep). simpl in Hstep.
  apply bind_Ok in Hstep as (cOption2 & HcOption & Hstep). simpl in Hstep.
  injection Hstep as <-. simpl.
  rewrite <- Hdirty, <- Hex, <- Hcont, <- Hopt.
  assert (length cExTable = length (McMultiLegBaseEngine.coeffsUndExInto st1)) as HlEx.
  { destruct (bool_decide _); inv_outcome; by rewrite ?length_insert. }
  assert (length cContTable = length (McMultiLegBaseEngine.coeffsContinuationValue st1) /\
          length cOption1 = length (McMultiLegBaseEngine.coeffsOption st1)) as [HlCont HlOpt].
  { destruct (set_mem t (McMultiLegBaseEngine.exerciseTimes ts)); inv_outcome;
      by rewrite ?length_insert. }
  assert (length cDirty = length (McMultiLegBaseEngine.coeffsUndDirty st1)) as HlDirty.
  { destruct (set_mem t (McMultiLegBaseEngine.xvaTimes ts)); inv_outcome;
      by rewrite ?length_insert. }
  assert (length cOption2 = length cOption1) as HlOpt2.
  { destruct (bool_decide _); inv_outcome; by rewrite ?length_insert. }
  repeat split; congruence.
Qed.

(** the backward loop keeps the sizes of the four tables of coefficients *)
Lemma timeLoop_sizes (e : McMultiLegBaseEngine.t Real)
    (cashflowInfo : list (CashflowInfo Real)) (ts : McMultiLegBaseEngine.TimeSets Real)
    (pathValues : list (list (list Real))) (l : list Real)
    (st st' : McMultiLegBaseEngine.CalibrationState Real) :
  foldM (McMultiLegBaseEngine.timeStep e cashflowInfo ts pathValues) l st = Ok st' ->
  length (McMultiLegBaseEngine.coeffsUndDirty st') =
    length (McMultiLegBaseEngine.coeffsUndDirty st) /\
  length (McMultiLegBaseEngine.coeffsUndExInto st') =
    length (McMultiLegBaseEngine.coeffsUndExInto st) /\
  length (McMultiLegBaseEngine.coeffsContinuationValue st') =
    length (McMultiLegBaseEngine.coeffsContinuationValue st) /\
  length (McMultiLegBaseEngine.coeffsOption st') =
    length (McMultiLegBaseEngine.coeffsOption st).
Proof.
  apply (foldM_invariant
           (fun s =>
              length (McMultiLegBaseEngine.coeffsUndDirty s) =
                length (McMultiLegBaseEngine.coeffsUndDirty st) /\
              length (McMultiLegBaseEngine.coeffsUndExInto s) =
                length (McMultiLegBaseEngine.coeffsUndExInto st) /\
              length (McMultiLegBaseEngine.coeffsContinuationValue s) =
                length (McMultiLegBaseEngine.coeffsContinuationValue st) /\
              length (McMultiLegBaseEngine.coeffsOption s) =
                length (McMultiLegBaseEngine.coeffsOption st))); [|done].
  intros s t s' (H1 & H2 & H3 & H4) Hstep.
  apply timeStep_sizes in Hstep as (-> & -> & -> & ->). done.
Qed.

(** the backward loop, run from the start, leaves tables with one row for
    each exercise and valuation time *)
Lemma calibration_sizes (e : McMultiLegBaseEngine.t Real)
    (cashflowInfo : list (CashflowInfo Real)) (ts : McMultiLegBaseEngine.TimeSets Real)
    (pathValues : list (list (list Real))) (l : list Real)
    (st : McMultiLegBaseEngine.CalibrationState Real) :
  foldM (McMultiLegBaseEngine.timeStep e cashflowInfo ts pathValues) l
        (McMultiLegBaseEngine.calibrationStart e cashflowInfo ts) = Ok st ->
  length (McMultiLegBaseEngine.coeffsUndDirty st) =
    length (McMultiLegBaseEngine.exerciseXvaTimes ts) /\
  length (McMultiLegBaseEngine.coeffsUndExInto st) =
    length (McMultiLegBaseEngine.exerciseXvaTimes ts) /\
  length (McMultiLegBaseEngine.coeffsContinuationValue st) =
    length (McMultiLegBaseEngine.exerciseXvaTimes ts) /\
  length (McMultiLegBaseEngine.coeffsOption st) =
    length (McMultiLegBaseEngine.exerciseXvaTimes ts).
Proof.
  intros Hloop. apply timeLoop_sizes in Hloop as (-> & -> & -> & ->).
  simpl. rewrite !length_replicate. done.
Qed.

(** what [calculate] is made of, when it returns *)
Lemma calculate_inv (e : McMultiLegBaseEngine.t Real) (r : McMultiLegBaseEngine.Results Real) :
  (McMultiLegBaseEngine.calculate e).2 = Ok r ->
  exists cashflowInfo st,
    McMultiLegBaseEngine.prepare e =
      Ok (cashflowInfo, McMultiLegBaseEngine.buildTimes e cashflowInfo) /\
    foldM (McMultiLegBaseEngine.timeStep e cashflowInfo
             (McMultiLegBaseEngine.buildTimes e cashflowInfo)
             (McMultiLegBaseEngine.simulatePaths e
                (McMultiLegBaseEngine.buildTimes e cashflowInfo)))
          (rev (McMultiLegBaseEngine.exerciseXvaTimes
                  (McMultiLegBaseEngine.buildTimes e cashflowInfo)))
          (McMultiLegBaseEngine.calibrationStart e cashflowInfo
             (McMultiLegBaseEngine.buildTimes e cashflowInfo)) = Ok st /\
    (exists dirty,
       McMultiLegBaseEngine.addRemaining cashflowInfo
         (McMultiLegBaseEngine.buildTimes e cashflowInfo)
         (McMultiLegBaseEngine.simulatePaths e
            (McMultiLegBaseEngine.buildTimes e cashflowInfo)) st = Ok dirty) /\
    McMultiLegBaseEngine.amcCalculator_ r =
      Build_MultiLegBaseAmcCalculator
        (McMultiLegBaseEngine.externalModelIndices_ e)
        (McMultiLegBaseEngine.optionSettlement_ e)
        (McMultiLegBaseEngine.exerciseXvaTimes (McMultiLegBaseEngine.buildTimes e cashflowInfo))
        (McMultiLegBaseEngine.exerciseTimes (McMultiLegBaseEngine.buildTimes e cashflowInfo))
        (McMultiLegBaseEngine.xvaTimes (McMultiLegBaseEngine.buildTimes e cashflowInfo))
        (McMultiLegBaseEngine.coeffsUndDirty st) (McMultiLegBaseEngine.coeffsUndExInto st)
        (McMultiLegBaseEngine.coeffsContinuationValue st)
        (McMultiLegBaseEngine.coeffsOption st)
        (McMultiLegBaseEngine.basisFns e)
        (McMultiLegBaseEngine.resultValue_ r) initialValues.
Proof.
  intros Hcalc. unfold McMultiLegBaseEngine.calculate in Hcalc.
  destruct (McMultiLegBaseEngine.prepare e) as [[cashflowInfo ts]|err] eqn:Hprep;
    simpl in Hcalc; [|discriminate].
  assert (ts = McMultiLegBaseEngine.buildTimes e cashflowInfo) as ->.
  { unfold McMultiLegBaseEngine.prepare in Hprep.
    apply bind_Ok in Hprep as ([] & _ & Hprep). simpl in Hprep.
    apply bind_Ok in Hprep as ([] & _ & Hprep). simpl in Hprep.
    apply bind_Ok in Hprep as (infos & _ & Hprep).
    apply bind_Ok in Hprep as ([] & _ & Hprep). by injection Hprep as <- <-. }
  unfold McMultiLegBaseEngine.calibrate in Hcalc.
  apply bind_Ok in Hcalc as (st & Hst & Hcalc). simpl in Hcalc.
  apply bind_Ok in Hcalc as (dirty & Hdirty & Hcalc). simpl in Hcalc.
  apply bind_Ok in Hcalc as (und & _ & Hcalc). simpl in Hcalc.
  apply bind_Ok in Hcalc as (resultValue & _ & Hcalc). simpl in Hcalc.
  injection Hcalc as <-. simpl. exists cashflowInfo, st. eauto.
Qed.

(** X15.  The calculator that [calculate] hands over carries the model
    indices, the settlement type and the basis system of the engine, the
    option value as its time-zero value and the initial values of the state
    process as its initial state; each of its four tables of coefficients
    has one row for each of its exercise and valuation times. *)
Theorem calculator_tables_cover_time_grid (e : McMultiLegBaseEngine.t Real)
    (r : McMultiLegBaseEngine.Results Real) :
  (McMultiLegBaseEngine.calculate e).2 = Ok r ->
  externalModelIndices_ (McMultiLegBaseEngine.amcCalculator_ r) =
    McMultiLegBaseEngine.externalModelIndices_ e /\
  settlement_ (McMultiLegBaseEngine.amcCalculator_ r) =
    McMultiLegBaseEngine.optionSettlement_ e /\
  basisFns_ (McMultiLegBaseEngine.amcCalculator_ r) = McMultiLegBaseEngine.basisFns e /\
  resultValue_ (McMultiLegBaseEngine.amcCalculator_ r) = McMultiLegBaseEngine.resultValue_ r /\
  initialState_ (McMultiLegBaseEngine.amcCalculator_ r) = initialValues /\
  length (coeffsUndDirty_ (McMultiLegBaseEngine.amcCalculator_ r)) =
    length (exerciseXvaTimes_ (McMultiLegBaseEngine.amcCalculator_ r)) /\
  length (coeffsUndExInto_ (McMultiLegBaseEngine.amcCalculator_ r)) =
    length (exerciseXvaTimes_ (McMultiLegBaseEngine.amcCalculator_ r)) /\
  length (coeffsContinuationValue_ (McMultiLegBaseEngine.amcCalculator_ r)) =
    length (exerciseXvaTimes_ (McMultiLegBaseEngine.amcCalculator_ r)) /\
  length (coeffsOption_ (McMultiLegBaseEngine.amcCalculator_ r)) =
    length (exerciseXvaTimes_ (McMultiLegBaseEngine.amcCalculator_ r)).
Proof.
  intros Hcalc. apply calculate_inv in Hcalc as (cashflowInfo & st & _ & Hloop & _ & ->).
  apply calibration_sizes in Hloop as (Hd & Hx & Hc & Ho). done.
Qed.

Lemma set_find_lt (t : Real) (s : list Real) (i : nat) :
  set_find t s = Some i -> i < length s.
Proof.
  revert i. induction s as [|x s IH]; intros i Hfind; simpl in *; [discriminate|].
  destruct (requiv x t); [injection Hfind as <-; lia|].
  destruct (set_find t s) as [j|]; [|discriminate].
  injection Hfind as <-. specialize (IH j eq_refl). lia.
Qed.

(** X16.  In the calculator that [calculate] hands over, every exercise
    time and every valuation time is found among the exercise and valuation
    times, at a position where each of the four tables of coefficients has
    a row: the look-ups of [simulatePath] in these tables stay inside the
    tables.  The comparison of the numbers is required to be irreflexive. *)
Theorem calculator_lookups_in_range (e : McMultiLegBaseEngine.t Real)
    (r : McMultiLegBaseEngine.Results Real) (t : Real) :
  (forall x : Real, rltb x x = false) ->
  (McMultiLegBaseEngine.calculate e).2 = Ok r ->
  t ∈ exerciseTimes_ (McMultiLegBaseEngine.amcCalculator_ r) \/
  t ∈ xvaTimes_ (McMultiLegBaseEngine.amcCalculator_ r) ->
  exists ind,
    set_find t (exerciseXvaTimes_ (McMultiLegBaseEngine.amcCalculator_ r)) = Some ind /\
    is_Some (coeffsUndDirty_ (McMultiLegBaseEngine.amcCalculator_ r) !! ind) /\
    is_Some (coeffsUndExInto_ (McMultiLegBaseEngine.amcCalculator_ r) !! ind) /\
    is_Some (coeffsContinuationValue_ (McMultiLegBaseEngine.amcCalculator_ r) !! ind) /\
    is_Some (coeffsOption_ (McMultiLegBaseEngine.amcCalculator_ r) !! ind).
Proof.
  intros Hirr Hcalc Ht.
  apply calculate_inv in Hcalc as (cashflowInfo & st & _ & Hloop & _ & Hcalc).
  rewrite Hcalc in Ht |- *.
  cbn [exerciseXvaTimes_ exerciseTimes_ xvaTimes_ coeffsUndDirty_ coeffsUndExInto_
       coeffsContinuationValue_ coeffsOption_] in Ht |- *.
  apply calibration_sizes in Hloop as (Hd & Hx & Hc & Ho).
  destruct (buildTimes_found e cashflowInfo Hirr) as [Hfound _].
  specialize (Hfound t Ht). unfold set_mem in Hfound.
  destruct (set_find t _) as [ind|] eqn:Hind; [|discriminate].
  apply set_find_lt in Hind. exists ind. split; [reflexivity|].
  repeat split; apply lookup_lt_is_Some_2; lia.
Qed.

(** without exercise, a turn of the backward loop leaves the exercise-into,
    continuation and option coefficients and the option value alone *)
Lemma timeStep_no_exercise (e : McMultiLegBaseEngine.t Real)
    (cashflowInfo : list (CashflowInfo Real)) (ts : McMultiLegBaseEngine.TimeSets Real)
    (pathValues : list (list (list Real))) (t : Real)
    (st st' : McMultiLegBaseEngine.CalibrationState Real) :
  McMultiLegBaseEngine.exercise_ e = None ->
  McMultiLegBaseEngine.exerciseTimes ts = [] ->
  McMultiLegBaseEngine.timeStep e cashflowInfo ts pathValues st t = Ok st' ->
  McMultiLegBaseEngine.coeffsUndExInto st' = McMultiLegBaseEngine.coeffsUndExInto st /\
  McMultiLegBaseEngine.coeffsContinuationValue st' =
    McMultiLegBaseEngine.coeffsContinuationValue st /\
  McMultiLegBaseEngine.coeffsOption st' = McMultiLegBaseEngine.coeffsOption st /\
  McMultiLegBaseEngine.pathValueOption st' = McMultiLegBaseEngine.pathValueOption st.
Proof.
  intros Hnone Hex Hstep. unfold McMultiLegBaseEngine.timeStep in Hstep.
  rewrite Hnone, Hex in Hstep.
  rewrite (bool_decide_eq_false_2 _ is_Some_None) in Hstep.
  change (set_mem t []) with false in Hstep.
  apply bind_Ok in Hstep as (st1 & Hst1 & Hstep). simpl in Hstep.
  apply updateCashflows_frame in Hst1 as (Hopt & _ & Hx & Hc & Ho).
  apply bind_Ok in Hstep as (regressor & _ & Hstep). simpl in Hstep.
  apply bind_Ok in Hstep as (cDirty & _ & Hstep). simpl in Hstep.
  injection Hstep as <-. simpl. done.
Qed.

(** X17.  For an instrument without exercise schedule, the calculator that
    [calculate] hands over has no exercise time, and the rows of its
    exercise-into, continuation and option coefficients are all empty, as
    they were set up. *)
Theorem no_exercise_leaves_option_tables_empty (e : McMultiLegBaseEngine.t Real)
    (r : McMultiLegBaseEngine.Results Real) :
  McMultiLegBaseEngine.exercise_ e = None ->
  (McMultiLegBaseEngine.calculate e).2 = Ok r ->
  exerciseTimes_ (McMultiLegBaseEngine.amcCalculator_ r) = [] /\
  coeffsUndExInto_ (McMultiLegBaseEngine.amcCalculator_ r) =
    replicate (length (exerciseXvaTimes_ (McMultiLegBaseEngine.amcCalculator_ r))) [] /\
  coeffsContinuationValue_ (McMultiLegBaseEngine.amcCalculator_ r) =
    replicate (length (exerciseXvaTimes_ (McMultiLegBaseEngine.amcCalculator_ r))) [] /\
  coeffsOption_ (McMultiLegBaseEngine.amcCalculator_ r) =
    replicate (length (exerciseXvaTimes_ (McMultiLegBaseEngine.amcCalculator_ r))) [].
Proof.
  intros Hnone Hcalc.
  apply calculate_inv in Hcalc as (cashflowInfo & st & _ & Hloop & _ & ->).
  cbn [exerciseXvaTimes_ exerciseTimes_ coeffsUndExInto_ coeffsContinuationValue_
       coeffsOption_].
  assert (McMultiLegBaseEngine.exerciseTimes
            (McMultiLegBaseEngine.buildTimes e cashflowInfo) = []) as Hex.
  { unfold McMultiLegBaseEngine.buildTimes. simpl. by rewrite Hnone. }
  split; [exact Hex|].
  revert Hloop.
  apply (foldM_invariant
           (fun s =>
              McMultiLegBaseEngine.coeffsUndExInto s =
                replicate (length (McMultiLegBaseEngine.exerciseXvaTimes
                                     (McMultiLegBaseEngine.buildTimes e cashflowInfo))) [] /\
              McMultiLegBaseEngine.coeffsContinuationValue s =
                replicate (length (McMultiLegBaseEngine.exerciseXvaTimes
                                     (McMultiLegBaseEngine.buildTimes e cashflowInfo))) [] /\
              McMultiLegBaseEngine.coeffsOption s =
                replicate (length (McMultiLegBaseEngine.exerciseXvaTimes
                                     (McMultiLegBaseEngine.buildTimes e cashflowInfo))) []));
    [|done].
  intros s t s' (Hx & Hc & Ho) Hstep.
  apply timeStep_no_exercise in Hstep as (-> & -> & -> & _); done.
Qed.

(** a descriptor without path value stays open through the loop over the
    cash flows *)
Lemma updateCashflows_keep_open
    (cashflowInfo : list (CashflowInfo Real)) (ts : McMultiLegBaseEngine.TimeSets Real)
    (pathValues : list (list (list Real))) (t : Real) (l : list nat)
    (j : nat) (info : CashflowInfo Real)
    (st st1 : McMultiLegBaseEngine.CalibrationState Real) :
  cashflowInfo !! j = Some info ->
  (forall (pv : list (list (list Real))) (times : list Real),
     exists err, cashflowPathValue info pv times = Fail err) ->
  McMultiLegBaseEngine.cfStatus st !! j = Some McMultiLegBaseEngine.open ->
  foldM (McMultiLegBaseEngine.updateCashflow cashflowInfo ts pathValues t) l st = Ok st1 ->
  McMultiLegBaseEngine.cfStatus st1 !! j = Some McMultiLegBaseEngine.open.
Proof.
  intros Hj Hfail Hopen.
  apply (foldM_invariant
           (fun s => McMultiLegBaseEngine.cfStatus s !! j = Some McMultiLegBaseEngine.open));
    [|done].
  clear st Hopen. intros s i s' Hs Hstep.
  unfold McMultiLegBaseEngine.updateCashflow in Hstep.
  apply bind_Ok in Hstep as (status & Hstatus%index_Ok & Hstep). simpl in Hstep.
  apply bind_Ok in Hstep as (info' & Hinfo'%index_Ok & Hstep). simpl in Hstep.
  destruct (decide (i = j)) as [->|Hne].
  - rewrite Hs in Hstatus. injection Hstatus as <-.
    rewrite Hj in Hinfo'. injection Hinfo' as <-.
    destruct (Hfail pathValues (McMultiLegBaseEngine.simulationTimes ts)) as [err Herr].
    rewrite Herr in Hstep. simpl in Hstep.
    repeat case_match; simplify_eq; done.
  - destruct status; repeat case_match; inv_outcome; simpl;
      rewrite ?list_lookup_insert_ne by done; done.
Qed.

(** a descriptor without path value stays open through the backward loop *)
Lemma timeLoop_keeps_open (e : McMultiLegBaseEngine.t Real)
    (cashflowInfo : list (CashflowInfo Real)) (ts : McMultiLegBaseEngine.TimeSets Real)
    (pathValues : list (list (list Real))) (l : list Real)
    (j : nat) (info : CashflowInfo Real)
    (st st' : McMultiLegBaseEngine.CalibrationState Real) :
  cashflowInfo !! j = Some info ->
  (forall (pv : list (list (list Real))) (times : list Real),
     exists err, cashflowPathValue info pv times = Fail err) ->
  McMultiLegBaseEngine.cfStatus st !! j = Some McMultiLegBaseEngine.open ->
  foldM (McMultiLegBaseEngine.timeStep e cashflowInfo ts pathValues) l st = Ok st' ->
  McMultiLegBaseEngine.cfStatus st' !! j = Some McMultiLegBaseEngine.open.
Proof.
  intros Hj Hfail Hopen.
  apply (foldM_invariant
           (fun s => McMultiLegBaseEngine.cfStatus s !! j = Some McMultiLegBaseEngine.open));
    [|done].
  clear st Hopen. intros s t s' Hs Hstep.
  unfold McMultiLegBaseEngine.timeStep in Hstep.
  apply bind_Ok in Hstep as (st1 & Hst1 & Hstep). simpl in Hstep.
  apply (updateCashflows_keep_open _ _ _ _ _ j info _ _ Hj Hfail Hs) in Hst1.
  apply bind_Ok in Hstep as (regressor & _ & Hstep). simpl in Hstep.
  apply bind_Ok in Hstep as (cExTable & _ & Hstep). simpl in Hstep.
  apply bind_Ok in Hstep as ([[cContTable option1] cOption1] & _ & Hstep). simpl in Hstep.
  apply bind_Ok in Hstep as (cDirty & _ & Hstep). simpl in Hstep.
  apply bind_Ok in Hstep as (cOption2 & _ & Hstep). simpl in Hstep.
  injection Hstep as <-. exact Hst1.
Qed.

(** with a descriptor without path value, the valuation does not return *)
Lemma calculate_fails_without_path_value (e : McMultiLegBaseEngine.t Real)
    (cashflowInfo : list (CashflowInfo Real)) (info : CashflowInfo Real) :
  McMultiLegBaseEngine.prepare e =
    Ok (cashflowInfo, McMultiLegBaseEngine.buildTimes e cashflowInfo) ->
  info ∈ cashflowInfo ->
  (forall (pv : list (list (list Real))) (times : list Real),
     exists err, cashflowPathValue info pv times = Fail err) ->
  exists err, (McMultiLegBaseEngine.calculate e).2 = Fail err.
Proof.
  intros Hprep Hin Hfail.
  destruct (McMultiLegBaseEngine.calculate e).2 as [r|err] eqn:Hcalc; [|eauto].
  exfalso.
  apply calculate_inv in Hcalc as (cashflowInfo' & st & Hprep' & Hloop & [dirty Hrem] & _).
  rewrite Hprep in Hprep'. injection Hprep' as <-.
  apply list_elem_of_lookup in Hin as [j Hj].
  eapply (timeLoop_keeps_open _ _ _ _ _ j info) in Hloop; [|exact Hj|exact Hfail|].
  2:{ simpl. apply lookup_replicate_2. by apply lookup_lt_Some in Hj. }
  unfold McMultiLegBaseEngine.addRemaining in Hrem.
  match type of Hrem with foldM ?f ?l ?s0 = _ =>
    assert (exists err, foldM f l s0 = Fail err) as [err Herr] end;
    [|congruence].
  apply (foldM_fails _ _ j).
  - apply elem_of_seq. apply lookup_lt_Some in Hj. lia.
  - intros dirty'.
    assert (index (McMultiLegBaseEngine.cfStatus st) j = Ok McMultiLegBaseEngine.open)
      as -> by (unfold index; by rewrite Hloop).
    assert (index cashflowInfo j = Ok info) as -> by (unfold index; by rewrite Hj).
    simpl.
    match goal with |- context [cashflowPathValue info ?pv ?tm] =>
      destruct (Hfail pv tm) as [err' ->] end.
    simpl. eauto.
Qed.

(** every flow of a leg that pays after today has its descriptor among
    those of the engine *)
Lemma prepare_descriptor_of_flow (e : McMultiLegBaseEngine.t Real)
    (cashflowInfo : list (CashflowInfo Real)) (ts : McMultiLegBaseEngine.TimeSets Real)
    (leg : list (CashFlow Real)) (flow : CashFlow Real) :
  McMultiLegBaseEngine.prepare e = Ok (cashflowInfo, ts) ->
  leg ∈ McMultiLegBaseEngine.leg_ e -> flow ∈ leg -> (today_ < flowDate flow)%Z ->
  ts = McMultiLegBaseEngine.buildTimes e cashflowInfo /\
  exists info ccy pay i k,
    info ∈ cashflowInfo /\ createCashflowInfo flow ccy pay i k = Ok info.
Proof.
  unfold McMultiLegBaseEngine.prepare. intros Hprep Hleg Hflow Halive.
  apply bind_Ok in Hprep as ([] & _ & Hprep). simpl in Hprep.
  apply bind_Ok in Hprep as ([] & _ & Hprep). simpl in Hprep.
  apply bind_Ok in Hprep as (infos & Hlegs & Hprep).
  apply bind_Ok in Hprep as ([] & _ & Hprep). injection Hprep as <- <-.
  split; [reflexivity|].
  unfold McMultiLegBaseEngine.classifyLegs in Hlegs.
  apply bind_Ok in Hlegs as ([i' acc'] & Hloop & Hlegs). simpl in Hlegs.
  injection Hlegs as <-.
  apply classifyLegs_loop in Hloop as (infoss & -> & Hall). simpl.
  apply list_elem_of_lookup in Hleg as [i Hi].
  assert (imap (fun j leg => (0 + j, leg)) (McMultiLegBaseEngine.leg_ e) !! i = Some (i, leg))
    as Himap by (by rewrite list_lookup_imap, Hi).
  destruct (Forall2_lookup_l _ _ _ _ _ Hall Himap)
    as (infos_i & Hinfos & ccy & pay & _ & _ & Hflows).
  simpl in Hflows.
  assert (flow ∈ filter (fun flow => (today_ < flowDate flow)%Z) leg) as Hin
    by (by apply list_elem_of_filter).
  apply list_elem_of_lookup in Hin as [k Hk].
  assert (aliveFlows leg !! k = Some (k, flow)) as Hlive
    by (unfold aliveFlows; by rewrite list_lookup_imap, Hk).
  destruct (Forall2_lookup_l _ _ _ _ _ Hflows Hlive) as (info & Hinfo & Hmade).
  exists info, ccy, pay, i, k. split; [|exact Hmade].
  apply list_elem_of_In, in_concat. exists infos_i.
  split; apply list_elem_of_In; by eapply list_elem_of_lookup_2.
Qed.

(** X18.  An engine one of whose legs holds a flow singled out by
    [fixedRateFutureFx] that pays after today is not valued: [calculate]
    returns no result. *)
Theorem fixed_rate_future_fx_flow_aborts_valuation (e : McMultiLegBaseEngine.t Real)
    (leg : list (CashFlow Real)) (flow : CashFlow Real) :
  leg ∈ McMultiLegBaseEngine.leg_ e -> flow ∈ leg -> (today_ < flowDate flow)%Z ->
  fixedRateFutureFx flow = true ->
  exists err, (McMultiLegBaseEngine.calculate e).2 = Fail err.
Proof.
  intros Hleg Hflow Halive Hcase.
  destruct (McMultiLegBaseEngine.prepare e) as [[cashflowInfo ts]|err] eqn:Hprep.
  - destruct (prepare_descriptor_of_flow e cashflowInfo ts leg flow Hprep Hleg Hflow Halive)
      as (-> & info & ccy & pay & i & k & Hin & Hinfo).
    apply (calculate_fails_without_path_value e cashflowInfo info Hprep Hin).
    destruct (fixedRateFutureFx_amount _ _ _ _ _ _ Hinfo Hcase) as [_ Hfail].
    apply cashflowPathValue_amount_fails. intros n states Hlen.
    rewrite (Hfail n states Hlen). eauto.
  - exists err. unfold McMultiLegBaseEngine.calculate. by rewrite Hprep.
Qed.
End CalibrationFacts.

(** *** The backward-induction calibrator: the status of the cash flows *)

Section StatusFacts.
Context {Real : Type} `{RealOps Real} `{!CrossAssetModel Real} `{!Regression Real}.

(** the body of the loop over the cash flows changes the status of its own
    cash flow only *)
Lemma updateCashflow_frame
    (cashflowInfo : list (CashflowInfo Real)) (ts : McMultiLegBaseEngine.TimeSets Real)
    (pathValues : list (list (list Real))) (t : Real) (i j : nat)
    (st st1 : McMultiLegBaseEngine.CalibrationState Real) :
  McMultiLegBaseEngine.updateCashflow cashflowInfo ts pathValues t st i = Ok st1 ->
  i <> j ->
  McMultiLegBaseEngine.cfStatus st1 !! j = McMultiLegBaseEngine.cfStatus st !! j.
Proof.
  intros Hstep Hne. unfold McMultiLegBaseEngine.updateCashflow in Hstep.
  apply bind_Ok in Hstep as (status & _ & Hstep). simpl in Hstep.
  apply bind_Ok in Hstep as (info & _ & Hstep). simpl in Hstep.
  destruct status; repeat case_match; inv_outcome; simpl;
    rewrite ?list_lookup_insert_ne by done; done.
Qed.

Lemma updateCashflows_frame_status
    (cashflowInfo : list (CashflowInfo Real)) (ts : McMultiLegBaseEngine.TimeSets Real)
    (pathValues : list (list (list Real))) (t : Real) (l : list nat) (j : nat) :
  forall st st1 : McMultiLegBaseEngine.CalibrationState Real,
    foldM (McMultiLegBaseEngine.updateCashflow cashflowInfo ts pathValues t) l st = Ok st1 ->
    j ∉ l ->
    McMultiLegBaseEngine.cfStatus st1 !! j = McMultiLegBaseEngine.cfStatus st !! j.
Proof.
  induction l as [|i l IH]; intros st st1 Hloop Hnot; simpl in Hloop.
  - by injection Hloop as <-.
  - apply bind_Ok in Hloop as (s & Hstep & Hloop).
    apply not_elem_of_cons in Hnot as [Hne Hnot].
    rewrite (IH _ _ Hloop Hnot). by eapply updateCashflow_frame.
Qed.

(** the status of a cash flow after the body of the loop has looked at it *)
Lemma updateCashflow_status
    (cashflowInfo : list (CashflowInfo Real)) (ts : McMultiLegBaseEngine.TimeSets Real)
    (pathValues : list (list (list Real))) (t : Real) (i : nat) (info : CashflowInfo Real)
    (st st1 : McMultiLegBaseEngine.CalibrationState Real) :
  McMultiLegBaseEngine.updateCashflow cashflowInfo ts pathValues t st i = Ok st1 ->
  cashflowInfo !! i = Some info ->
  exists before after,
    McMultiLegBaseEngine.cfStatus st !! i = Some before /\
    McMultiLegBaseEngine.cfStatus st1 !! i = Some after /\
    after =
      match before with
      | McMultiLegBaseEngine.open =>
          if rgtb (exIntoCriterionTime info) t then McMultiLegBaseEngine.done
          else if rgtb (payTime info) t then McMultiLegBaseEngine.cached
          else McMultiLegBaseEngine.open
      | McMultiLegBaseEngine.cached =>
          if rgtb (exIntoCriterionTime info) t then McMultiLegBaseEngine.done
          else McMultiLegBaseEngine.cached
      | McMultiLegBaseEngine.done => McMultiLegBaseEngine.done
      end.
Proof.
  intros Hstep Hinfo. unfold McMultiLegBaseEngine.updateCashflow in Hstep.
  apply bind_Ok in Hstep as (status & Hstatus%index_Ok & Hstep). simpl in Hstep.
  apply bind_Ok in Hstep as (info' & Hinfo'%index_Ok & Hstep). simpl in Hstep.
  rewrite Hinfo in Hinfo'. injection Hinfo' as <-.
  pose proof (lookup_lt_Some _ _ _ Hstatus) as Hlt.
  exists status. destruct status;
    repeat (destruct (rgtb _ t)); inv_outcome; simpl;
    rewrite ?list_lookup_insert_eq by done; eauto.
Qed.

(** X19.  A turn of the backward loop at the time [t] moves a cash flow
    that was open to done when its exercise-into cutoff time is after [t],
    else to cached when its pay time is after [t], and else leaves it open;
    it moves a cached cash flow to done when the cutoff time is after [t];
    a cash flow that is done stays so. *)
Theorem cash_flow_status_after_time_step (e : McMultiLegBaseEngine.t Real)
    (cashflowInfo : list (CashflowInfo Real)) (ts : McMultiLegBaseEngine.TimeSets Real)
    (pathValues : list (list (list Real))) (t : Real) (i : nat) (info : CashflowInfo Real)
    (st st' : McMultiLegBaseEngine.CalibrationState Real) :
  McMultiLegBaseEngine.timeStep e cashflowInfo ts pathValues st t = Ok st' ->
  cashflowInfo !! i = Some info ->
  exists before after,
    McMultiLegBaseEngine.cfStatus st !! i = Some before /\
    McMultiLegBaseEngine.cfStatus st' !! i = Some after /\
    after =
      match before with
      | McMultiLegBaseEngine.open =>
          if rgtb (exIntoCriterionTime info) t then McMultiLegBaseEngine.done
          else if rgtb (payTime info) t then McMultiLegBaseEngine.cached
          else McMultiLegBaseEngine.open
      | McMultiLegBaseEngine.cached =>
          if rgtb (exIntoCriterionTime info) t then McMultiLegBaseEngine.done
          else McMultiLegBaseEngine.cached
      | McMultiLegBaseEngine.done => McMultiLegBaseEngine.done
      end.
Proof.
  intros Hstep Hinfo. unfold McMultiLegBaseEngine.timeStep in Hstep.
  apply bind_Ok in Hstep as (st1 & Hst1 & Hstep). simpl in Hstep.
  assert (McMultiLegBaseEngine.cfStatus st' = McMultiLegBaseEngine.cfStatus st1) as ->.
  { apply bind_Ok in Hstep as (regressor & _ & Hstep). simpl in Hstep.
    apply bind_Ok in Hstep as (cExTable & _ & Hstep). simpl in Hstep.
    apply bind_Ok in Hstep as ([[cContTable option1] cOption1] & _ & Hstep). simpl in Hstep.
    apply bind_Ok in Hstep as (cDirty & _ & Hstep). simpl in Hstep.
    apply bind_Ok in Hstep as (cOption2 & _ & Hstep). simpl in Hstep.
    by injection Hstep as <-. }
  clear Hstep. pose proof (lookup_lt_Some _ _ _ Hinfo) as Hlt.
  assert (seq 0 (length cashflowInfo) =
          seq 0 i ++ i :: seq (S i) (length cashflowInfo - S i)) as Hseq.
  { replace (length cashflowInfo) with (i + S (length cashflowInfo - S i)) at 1 by lia.
    by rewrite seq_app. }
  rewrite Hseq in Hst1.
  apply foldM_split in Hst1 as (s1 & s2 & Hpre & Hat & Hpost).
  apply updateCashflows_frame_status with (j := i) in Hpre;
    [|intros Hin%elem_of_seq; lia].
  apply updateCashflows_frame_status with (j := i) in Hpost;
    [|intros Hin%elem_of_seq; lia].
  destruct (updateCashflow_status _ _ _ _ _ _ _ _ Hat Hinfo)
    as (before & after & Hbefore & Hafter & Hrule).
  exists before, after. rewrite Hpost, Hafter, <- Hpre, Hbefore. done.
Qed.
End StatusFacts.

(** *** The classifier and the calibrator: the statements at work *)

Lemma Qltb_irrefl (x : Q) : rltb x x = false.
Proof.
  change (negb (Qle_bool x x) = false).
  rewrite (proj2 (Qle_bool_iff x x)) by apply Qle_refl. reflexivity.
Qed.

Lemma descriptor_declares_indices_per_time_witness :
  length (simulationTimes (infoFx 1%Z)) = length (modelIndices (infoFx 1%Z)) /\
  length (simulationTimes (infoFx 1%Z)) <= 2 /\
  Forall (fun ixs : list nat => length ixs <= 2) (modelIndices (infoFx 1%Z)).
Proof.
  refine (@descriptor_declares_indices_per_time Q Q_RealOps Q_Model2 (flowFx 1%Z)
            "EUR"%string 1%Q 0 0 (infoFx 1%Z) _).
  vm_compute. reflexivity.
Defined.

Lemma amount_defined_on_declared_states_witness :
  exists v, amountCalculator (infoFx 1%Z) 1 [[[0%Q]]; [[0%Q]]] = Ok v.
Proof.
  refine (@amount_defined_on_declared_states Q Q_RealOps Q_Model2 (flowFx 1%Z)
            "EUR"%string 1%Q 0 0 (infoFx 1%Z) 1 [[[0%Q]]; [[0%Q]]] _ _ _).
  - vm_compute. reflexivity.
  - vm_compute. reflexivity.
  - split; [reflexivity|]. vm_compute. repeat constructor.
Defined.

Lemma fixed_rate_future_fx_amount_out_of_range_witness :
  length (simulationTimes (infoFx 0%Z)) = 1 /\
  (forall (n : nat) (states : list (list (list Q))),
     length states = length (simulationTimes (infoFx 0%Z)) ->
     amountCalculator (infoFx 0%Z) n states = Fail OutOfRange) /\
  (forall (pathValues : list (list (list Q))) (times : list Q),
     exists err,
       @cashflowPathValue Q Q_RealOps Q_Model2 (infoFx 0%Z) pathValues times = Fail err).
Proof.
  refine (@fixed_rate_future_fx_amount_out_of_range Q Q_RealOps Q_Model2 (flowFx 0%Z)
            "EUR"%string 1%Q 0 0 (infoFx 0%Z) _ _).
  - vm_compute. reflexivity.
  - vm_compute. reflexivity.
Defined.

Lemma prepare_descriptors_witness :
  length (McMultiLegBaseEngine.currency_ engineX) = length (McMultiLegBaseEngine.leg_ engineX) /\
  length (McMultiLegBaseEngine.payer_ engineX) = length (McMultiLegBaseEngine.leg_ engineX) /\
  timesX = McMultiLegBaseEngine.buildTimes engineX cashflowInfoX /\
  McMultiLegBaseEngine.simulationTimes timesX <> [] /\
  exists infoss,
    cashflowInfoX = concat infoss /\
    Forall2 (fun (il : nat * list (CashFlow Q)) infos =>
               exists ccy pay,
                 McMultiLegBaseEngine.currency_ engineX !! il.1 = Some ccy /\
                 McMultiLegBaseEngine.payer_ engineX !! il.1 = Some pay /\
                 Forall2 (fun (kf : nat * CashFlow Q) info =>
                            createCashflowInfo kf.2 ccy pay il.1 kf.1 = Ok info)
                         (aliveFlows il.2) infos)
            (imap pair (McMultiLegBaseEngine.leg_ engineX)) infoss.
Proof.
  refine (prepare_descriptors engineX cashflowInfoX timesX _).
  vm_compute. reflexivity.
Defined.

Lemma calculate_rejects_nothing_to_simulate_witness :
  McMultiLegBaseEngine.calculate enginePaid =
    (0, Fail (RequireFailed
                "McMultiLegBaseEngine::calculate(): no simulation times, this is not expected.")).
Proof.
  refine (calculate_rejects_nothing_to_simulate enginePaid _ _ _ _ _).
  - reflexivity.
  - reflexivity.
  - repeat constructor. vm_compute. discriminate.
  - reflexivity.
  - repeat constructor. vm_compute. discriminate.
Defined.

Lemma time_sets_ordered_and_nested_witness :
  set_sorted (McMultiLegBaseEngine.exerciseTimes
                (McMultiLegBaseEngine.buildTimes engineX cashflowInfoX)) = true /\
  set_sorted (McMultiLegBaseEngine.xvaTimes
                (McMultiLegBaseEngine.buildTimes engineX cashflowInfoX)) = true /\
  set_sorted (McMultiLegBaseEngine.exerciseXvaTimes
                (McMultiLegBaseEngine.buildTimes engineX cashflowInfoX)) = true /\
  set_sorted (McMultiLegBaseEngine.simulationTimes
                (McMultiLegBaseEngine.buildTimes engineX cashflowInfoX)) = true /\
  (forall t : Q,
     t ∈ McMultiLegBaseEngine.exerciseTimes
           (McMultiLegBaseEngine.buildTimes engineX cashflowInfoX) \/
     t ∈ McMultiLegBaseEngine.xvaTimes
           (McMultiLegBaseEngine.buildTimes engineX cashflowInfoX) ->
     set_mem t (McMultiLegBaseEngine.exerciseXvaTimes
                  (McMultiLegBaseEngine.buildTimes engineX cashflowInfoX)) = true) /\
  (forall t : Q,
     t ∈ McMultiLegBaseEngine.exerciseXvaTimes
           (McMultiLegBaseEngine.buildTimes engineX cashflowInfoX) ->
     set_mem t (McMultiLegBaseEngine.simulationTimes
                  (McMultiLegBaseEngine.buildTimes engineX cashflowInfoX)) = true).
Proof.
  refine (time_sets_ordered_and_nested engineX cashflowInfoX _).
  exact Qltb_irrefl.
Defined.

Lemma calculator_tables_cover_time_grid_witness :
  externalModelIndices_ (McMultiLegBaseEngine.amcCalculator_ resultsA) =
    McMultiLegBaseEngine.externalModelIndices_ (engineA None) /\
  settlement_ (McMultiLegBaseEngine.amcCalculator_ resultsA) =
    McMultiLegBaseEngine.optionSettlement_ (engineA None) /\
  basisFns_ (McMultiLegBaseEngine.amcCalculator_ resultsA) =
    McMultiLegBaseEngine.basisFns (engineA None) /\
  resultValue_ (McMultiLegBaseEngine.amcCalculator_ resultsA) =
    McMultiLegBaseEngine.resultValue_ resultsA /\
  initialState_ (McMultiLegBaseEngine.amcCalculator_ resultsA) = initialValues /\
  length (coeffsUndDirty_ (McMultiLegBaseEngine.amcCalculator_ resultsA)) =
    length (exerciseXvaTimes_ (McMultiLegBaseEngine.amcCalculator_ resultsA)) /\
  length (coeffsUndExInto_ (McMultiLegBaseEngine.amcCalculator_ resultsA)) =
    length (exerciseXvaTimes_ (McMultiLegBaseEngine.amcCalculator_ resultsA)) /\
  length (coeffsContinuationValue_ (McMultiLegBaseEngine.amcCalculator_ resultsA)) =
    length (exerciseXvaTimes_ (McMultiLegBaseEngine.amcCalculator_ resultsA)) /\
  length (coeffsOption_ (McMultiLegBaseEngine.amcCalculator_ resultsA)) =
    length (exerciseXvaTimes_ (McMultiLegBaseEngine.amcCalculator_ resultsA)).
Proof.
  refine (calculator_tables_cover_time_grid (engineA None) resultsA _).
  vm_compute. reflexivity.
Defined.

Lemma calculator_lookups_in_range_witness :
  exists ind,
    set_find (180 # 365)%Q
      (exerciseXvaTimes_ (McMultiLegBaseEngine.amcCalculator_ resultsA)) = Some ind /\
    is_Some (coeffsUndDirty_ (McMultiLegBaseEngine.amcCalculator_ resultsA) !! ind) /\
    is_Some (coeffsUndExInto_ (McMultiLegBaseEngine.amcCalculator_ resultsA) !! ind) /\
    is_Some (coeffsContinuationValue_ (McMultiLegBaseEngine.amcCalculator_ resultsA) !! ind) /\
    is_Some (coeffsOption_ (McMultiLegBaseEngine.amcCalculator_ resultsA) !! ind).
Proof.
  refine (calculator_lookups_in_range (engineA None) resultsA (180 # 365)%Q
            Qltb_irrefl _ _).
  - vm_compute. reflexivity.
  - right. simpl. constructor.
Defined.

Lemma no_exercise_leaves_option_tables_empty_witness :
  exerciseTimes_ (McMultiLegBaseEngine.amcCalculator_ resultsA) = [] /\
  coeffsUndExInto_ (McMultiLegBaseEngine.amcCalculator_ resultsA) =
    replicate (length (exerciseXvaTimes_ (McMultiLegBaseEngine.amcCalculator_ resultsA))) [] /\
  coeffsContinuationValue_ (McMultiLegBaseEngine.amcCalculator_ resultsA) =
    replicate (length (exerciseXvaTimes_ (McMultiLegBaseEngine.amcCalculator_ resultsA))) [] /\
  coeffsOption_ (McMultiLegBaseEngine.amcCalculator_ resultsA) =
    replicate (length (exerciseXvaTimes_ (McMultiLegBaseEngine.amcCalculator_ resultsA))) [].
Proof.
  refine (no_exercise_leaves_option_tables_empty (engineA None) resultsA _ _).
  - reflexivity.
  - vm_compute. reflexivity.
Defined.

Lemma fixed_rate_future_fx_flow_aborts_valuation_witness :
  exists err,
    (@McMultiLegBaseEngine.calculate Q Q_RealOps Q_Model2 Q_Regression engineF).2 = Fail err.
Proof.
  refine (@fixed_rate_future_fx_flow_aborts_valuation Q Q_RealOps Q_Model2 Q_Regression
            engineF [flowFx 0%Z] (flowFx 0%Z) _ _ _ _).
  - simpl. constructor.
  - constructor.
  - vm_compute. reflexivity.
  - vm_compute. reflexivity.
Defined.

Lemma cash_flow_status_after_time_step_witness :
  exists before after,
    McMultiLegBaseEngine.cfStatus
      (McMultiLegBaseEngine.calibrationStart engineX cashflowInfoX timesX) !! 0 = Some before /\
    McMultiLegBaseEngine.cfStatus stateX !! 0 = Some after /\
    after =
      match before with
      | McMultiLegBaseEngine.open =>
          if rgtb (exIntoCriterionTime infoX) (180 # 365)%Q then McMultiLegBaseEngine.done
          else if rgtb (payTime infoX) (180 # 365)%Q then McMultiLegBaseEngine.cached
          else McMultiLegBaseEngine.open
      | McMultiLegBaseEngine.cached =>
          if rgtb (exIntoCriterionTime infoX) (180 # 365)%Q then McMultiLegBaseEngine.done
          else McMultiLegBaseEngine.cached
      | McMultiLegBaseEngine.done => McMultiLegBaseEngine.done
      end.
Proof.
  refine (cash_flow_status_after_time_step engineX cashflowInfoX timesX pathValuesX
            (180 # 365)%Q 0 infoX
            (McMultiLegBaseEngine.calibrationStart engineX cashflowInfoX timesX) stateX _ _).
  - vm_compute. reflexivity.
  - vm_compute. reflexivity.
Defined.

(** *** The engine builder of the FX forward *)

Section BuilderFacts.
Context {Real : Type} `{RealOps Real} {Parameters : Type}.

Import CamAmcFxForwardEngineBuilder.

Variable cam_ : Cam Real.
Variable simulationDates_ : list Date.
Variable engineParameters : outcome Parameters.

(** a loop over [0, n) with an invariant that depends on the index *)
Lemma foldl_seq_invariant {S : Type} (P : nat -> S -> Prop) (f : S -> nat -> S)
    (n : nat) (s0 : S) :
  P 0 s0 ->
  (forall k s, k < n -> P k s -> P (Datatypes.S k) (f s k)) ->
  P n (foldl f s0 (seq 0 n)).
Proof.
  intros H0 Hstep. induction n as [|n IH]; [exact H0|].
  rewrite seq_S, foldl_app. simpl. apply Hstep; [lia|].
  apply IH. intros k s Hk. apply Hstep. lia.
Qed.

(** the vectors filled by the loop over the interest rate components *)
Lemma collect_spec (forCcy' domCcy' : Currency) :
  let kept' := filter (fun i => kept cam_ forCcy' domCcy' i = true)
                      (seq 0 (components cam_ IR)) in
  collectedLgm (collect cam_ forCcy' domCcy') = kept' /\
  collectedFx (collect cam_ forCcy' domCcy') =
    (fun i => i - 1) <$> filter (fun i => 0 < i) kept' /\
  collectedExternalModelIndices (collect cam_ forCcy' domCcy') =
    kept' ≫= (fun i => pIdx cam_ IR i :: if (0 <? i)%nat then [pIdx cam_ FX (i - 1)] else []) /\
  collectedCIdx (collect cam_ forCcy' domCcy') =
    kept' ≫= (fun i => cIdx cam_ IR i :: if (0 <? i)%nat then [cIdx cam_ FX (i - 1)] else []).
Proof.
  unfold collect.
  apply (foldl_seq_invariant
           (fun n st =>
              collectedLgm st = filter (fun i => kept cam_ forCcy' domCcy' i = true) (seq 0 n) /\
              collectedFx st =
                (fun i => i - 1) <$>
                  filter (fun i => 0 < i)
                         (filter (fun i => kept cam_ forCcy' domCcy' i = true) (seq 0 n)) /\
              collectedExternalModelIndices st =
                filter (fun i => kept cam_ forCcy' domCcy' i = true) (seq 0 n)
                  ≫= (fun i => pIdx cam_ IR i ::
                                 if (0 <? i)%nat then [pIdx cam_ FX (i - 1)] else []) /\
              collectedCIdx st =
                filter (fun i => kept cam_ forCcy' domCcy' i = true) (seq 0 n)
                  ≫= (fun i => cIdx cam_ IR i ::
                                 if (0 <? i)%nat then [cIdx cam_ FX (i - 1)] else []))).
  - done.
  - intros k st _ (Hl & Hf & He & Hc).
    rewrite seq_S, filter_app, filter_cons, filter_nil. simpl.
    unfold collectStep. destruct (kept cam_ forCcy' domCcy' k) eqn:Hk.
    + rewrite decide_True by done. simpl.
      rewrite filter_app, fmap_app, !bind_app, Hl, Hf, He, Hc. simpl.
      rewrite filter_cons, filter_nil.
      destruct (Nat.ltb_spec 0 k).
      * rewrite decide_True by lia. simpl. rewrite <- !app_assoc. done.
      * rewrite decide_False by lia. simpl. rewrite !app_nil_r. done.
    + rewrite decide_False by done. rewrite !app_nil_r. done.
Qed.

(** the indices collected, sorted out by asset type *)
Lemma collected_Permutation (a b : nat -> nat) (l : list nat) :
  l ≫= (fun i => a i :: if (0 <? i)%nat then [b (i - 1)] else [])
  ≡ₚ (a <$> l) ++ (b <$> ((fun i => i - 1) <$> filter (fun i => 0 < i) l)).
Proof.
  induction l as [|i l IH]; [done|].
  change ((i :: l) ≫= (fun i => a i :: if (0 <? i)%nat then [b (i - 1)] else []))
    with ((a i :: if (0 <? i)%nat then [b (i - 1)] else [])
            ++ (l ≫= (fun i => a i :: if (0 <? i)%nat then [b (i - 1)] else []))).
  rewrite IH, filter_cons. simpl. destruct (Nat.ltb_spec 0 i).
  - rewrite decide_True by lia. simpl. f_equiv.
    by rewrite <- Permutation_middle.
  - rewrite decide_False by lia. simpl. done.
Qed.

(** X20.  [engineImpl] returns only when the two currencies differ.  The
    projected model then keeps the interest rate components of the base
    currency and of the two currencies, in the order of the model, and the
    FX component of each of them but the first; the external model indices
    are sorted and are the state indices of these components, one for
    each. *)
Theorem builder_external_model_indices (forCcy' domCcy' : Currency)
    (eng : McCamFxForwardEngine Real Parameters) :
  engineImpl cam_ simulationDates_ engineParameters forCcy' domCcy' = Ok eng ->
  domCcy' <> forCcy' /\
  lgm eng = filter (fun i => kept cam_ forCcy' domCcy' i = true)
                   (seq 0 (components cam_ IR)) /\
  fx eng = (fun i => i - 1) <$> filter (fun i => 0 < i) (lgm eng) /\
  Sorted le (externalModelIndices eng) /\
  externalModelIndices eng ≡ₚ (pIdx cam_ IR <$> lgm eng) ++ (pIdx cam_ FX <$> fx eng) /\
  length (externalModelIndices eng) = length (lgm eng) + length (fx eng) /\
  simulationDates eng = simulationDates_.
Proof.
  unfold engineImpl. intros Himpl.
  apply bind_Ok in Himpl as ([] & Hne%require_Ok & Himpl). simpl in Himpl.
  apply bind_Ok in Himpl as (par & _ & Himpl). simpl in Himpl.
  injection Himpl as <-. simpl.
  destruct (collect_spec forCcy' domCcy') as (Hl & Hf & He & _). simpl in Hl, Hf, He.
  assert (merge_sort le (collectedExternalModelIndices (collect cam_ forCcy' domCcy'))
          ≡ₚ (pIdx cam_ IR <$> collectedLgm (collect cam_ forCcy' domCcy')) ++
             (pIdx cam_ FX <$> collectedFx (collect cam_ forCcy' domCcy'))) as Hperm.
  { rewrite merge_sort_Permutation, He, Hf, Hl. apply collected_Permutation. }
  split; [|split; [exact Hl|split; [by rewrite Hf, Hl|split; [|split; [exact Hperm|split]]]]].
  - intros ->. by rewrite String.eqb_refl in Hne.
  - apply (Sorted_merge_sort le).
  - by rewrite Hperm, length_app, !length_fmap.
  - reflexivity.
Qed.

(** what [engineImpl] returns, when it returns *)
Lemma engineImpl_Ok (forCcy' domCcy' : Currency) (eng : McCamFxForwardEngine Real Parameters) :
  engineImpl cam_ simulationDates_ engineParameters forCcy' domCcy' = Ok eng ->
  lgm eng = filter (fun i => kept cam_ forCcy' domCcy' i = true) (seq 0 (components cam_ IR)) /\
  fx eng = (fun i => i - 1) <$> filter (fun i => 0 < i) (lgm eng) /\
  externalModelIndices eng =
    merge_sort le (collectedExternalModelIndices (collect cam_ forCcy' domCcy')) /\
  externalModelIndices eng ≡ₚ (pIdx cam_ IR <$> lgm eng) ++ (pIdx cam_ FX <$> fx eng) /\
  corr eng = correlationMatrix cam_ (merge_sort le (collectedCIdx (collect cam_ forCcy' domCcy'))) /\
  length (collectedCIdx (collect cam_ forCcy' domCcy')) = length (externalModelIndices eng).
Proof.
  unfold engineImpl. intros Himpl.
  apply bind_Ok in Himpl as ([] & _ & Himpl). simpl in Himpl.
  apply bind_Ok in Himpl as (par & _ & Himpl). simpl in Himpl.
  injection Himpl as <-. simpl.
  destruct (collect_spec forCcy' domCcy') as (Hl & Hf & He & Hc). simpl in Hl, Hf, He, Hc.
  split; [exact Hl|]. split; [by rewrite Hf, Hl|]. split; [reflexivity|].
  split.
  - rewrite merge_sort_Permutation, He, Hf, Hl. apply collected_Permutation.
  - split; [reflexivity|].
    rewrite merge_sort_Permutation, He, Hc, !collected_Permutation.
    by rewrite !length_app, !length_fmap.
Qed.

Lemma StronglySorted_lt_seq (a n : nat) : StronglySorted lt (seq a n).
Proof.
  revert a. induction n as [|n IH]; intros a; simpl; constructor; [apply IH|].
  apply Forall_forall. intros x Hx%elem_of_seq. lia.
Qed.

Lemma StronglySorted_lt_filter (P : nat -> Prop) `{!forall i, Decision (P i)} (l : list nat) :
  StronglySorted lt l -> StronglySorted lt (filter P l).
Proof.
  induction 1 as [|i l Hl IH Hall]; [constructor|].
  rewrite filter_cons. case_decide; [|exact IH].
  constructor; [exact IH|].
  apply Forall_forall. intros x [_ Hx]%list_elem_of_filter.
  rewrite Forall_forall in Hall. by apply Hall.
Qed.

Lemma StronglySorted_fmap_mono (g : nat -> nat) (l : list nat) :
  StronglySorted lt l ->
  (forall i j, i ∈ l -> j ∈ l -> i < j -> g i <= g j) ->
  StronglySorted le (g <$> l).
Proof.
  induction 1 as [|i l Hl IH Hall]; intros Hmono; [constructor|].
  rewrite fmap_cons. constructor.
  - apply IH. intros a b Ha Hb. apply Hmono; by right.
  - apply Forall_fmap, Forall_forall. intros x Hx. simpl.
    rewrite Forall_forall in Hall. apply Hmono; [by left | by right | by apply Hall].
Qed.

(** X21.  When the model lays out its state with the interest rate states
    in the order of their components, the FX states in the order of
    theirs, and every interest rate state before every FX state, the sorted
    external model indices are the states of the interest rate components of
    the projected model, in order, followed by those of its FX components:
    they match the state of the projected model position by position. *)
Theorem builder_indices_follow_projection (forCcy' domCcy' : Currency)
    (eng : McCamFxForwardEngine Real Parameters) :
  (forall i j, i < j -> pIdx cam_ IR i < pIdx cam_ IR j) ->
  (forall i j, i < j -> pIdx cam_ FX i < pIdx cam_ FX j) ->
  (forall i j, i < components cam_ IR -> pIdx cam_ IR i < pIdx cam_ FX j) ->
  engineImpl cam_ simulationDates_ engineParameters forCcy' domCcy' = Ok eng ->
  externalModelIndices eng = (pIdx cam_ IR <$> lgm eng) ++ (pIdx cam_ FX <$> fx eng).
Proof.
  intros Hir Hfx Hirfx Himpl.
  apply engineImpl_Ok in Himpl as (Hl & Hf & He & Hperm & _).
  assert (StronglySorted lt (lgm eng)) as Hsorted.
  { rewrite Hl. apply StronglySorted_lt_filter, StronglySorted_lt_seq. }
  apply (Sorted_unique le); [rewrite He; apply (Sorted_merge_sort le)| |exact Hperm].
  apply StronglySorted_Sorted, StronglySorted_app_2.
  - intros x1 x2 (i & -> & Hi)%list_elem_of_fmap (j & -> & Hj)%list_elem_of_fmap.
    rewrite Hl in Hi. apply list_elem_of_filter in Hi as [_ Hi%elem_of_seq].
    apply Nat.lt_le_incl, Hirfx. lia.
  - apply StronglySorted_fmap_mono; [exact Hsorted|].
    intros i j _ _ Hij. by apply Nat.lt_le_incl, Hir.
  - rewrite Hf, <- list_fmap_compose.
    apply StronglySorted_fmap_mono; [by apply StronglySorted_lt_filter|].
    intros i j [Hi _]%list_elem_of_filter [Hj _]%list_elem_of_filter Hij. simpl.
    apply Nat.lt_le_incl, Hfx. lia.
Qed.

Lemma squareMatrix_set (n : nat) (m : list (list Real)) (i j : nat) (v : Real) :
  squareMatrix n m -> squareMatrix n (matrixSet m i j v).
Proof.
  intros [Hlen Hrows]. unfold matrixSet.
  destruct (m !! i) as [row|] eqn:Hrow; [|done]. split.
  - by rewrite length_insert.
  - apply Forall_insert; [exact Hrows|]. rewrite length_insert.
    rewrite Forall_forall in Hrows. apply Hrows. by eapply list_elem_of_lookup_2.
Qed.

Lemma matrixGet_set (n : nat) (m : list (list Real)) (i j a b : nat) (v : Real) :
  squareMatrix n m -> i < n -> j < n ->
  matrixGet (matrixSet m i j v) a b =
    if decide (a = i /\ b = j) then Some v else matrixGet m a b.
Proof.
  intros [Hlen Hrows] Hi Hj. unfold matrixSet, matrixGet.
  destruct (lookup_lt_is_Some_2 m i) as [row Hrow]; [lia|]. rewrite Hrow.
  assert (length row = n) as Hrowlen.
  { rewrite Forall_forall in Hrows. apply Hrows. by eapply list_elem_of_lookup_2. }
  destruct (decide (a = i)) as [->|Hai].
  - rewrite list_lookup_insert_eq by lia. simpl. rewrite Hrow. simpl.
    destruct (decide (b = j)) as [->|Hbj].
    + rewrite list_lookup_insert_eq by lia. by rewrite decide_True.
    + rewrite list_lookup_insert_ne by done. rewrite decide_False by tauto. done.
  - rewrite list_lookup_insert_ne by done. rewrite decide_False by tauto. done.
Qed.

(** the correlation matrix in the row [i], after the columns below [j] *)
Lemma correlationRow_spec (cIdx' : list nat) (m : list (list Real)) (i j : nat) :
  i < length cIdx' -> j <= i ->
  squareMatrix (length cIdx') m ->
  (forall a b, a < length cIdx' -> b < length cIdx' ->
     matrixGet m a b =
     Some (if decide (a <> b /\ a `max` b < i)
           then correlation cam_ (cIdx' !!! (a `max` b)) (cIdx' !!! (a `min` b))
           else rone)) ->
  squareMatrix (length cIdx')
    (foldl (fun m j =>
              let v := correlation cam_ (cIdx' !!! i) (cIdx' !!! j) in
              matrixSet (matrixSet m j i v) i j v) m (seq 0 j)) /\
  forall a b, a < length cIdx' -> b < length cIdx' ->
    matrixGet (foldl (fun m j =>
                        let v := correlation cam_ (cIdx' !!! i) (cIdx' !!! j) in
                        matrixSet (matrixSet m j i v) i j v) m (seq 0 j)) a b =
    Some (if decide (a <> b /\ (a `max` b < i \/ (a `max` b = i /\ a `min` b < j)))
          then correlation cam_ (cIdx' !!! (a `max` b)) (cIdx' !!! (a `min` b))
          else rone).
Proof.
  intros Hi Hj Hsq Hget. induction j as [|j IH].
  - simpl. split; [exact Hsq|]. intros a b Ha Hb. rewrite (Hget a b Ha Hb).
    f_equal. repeat case_decide; (done || lia).
  - destruct IH as [Hsq' Hget']; [lia|].
    rewrite seq_S, foldl_app. cbn [foldl Nat.add]. cbv zeta in Hsq', Hget' |- *.
    split; [by do 2 apply squareMatrix_set|].
    intros a b Ha Hb.
    rewrite (matrixGet_set (length cIdx')); [|by apply squareMatrix_set|lia|lia].
    rewrite (matrixGet_set (length cIdx')); [|done|lia|lia].
    rewrite (Hget' a b Ha Hb).
    destruct (decide (a = i /\ b = j)) as [[-> ->]|Hij].
    + rewrite decide_True by lia.
      by rewrite Nat.max_l, Nat.min_r by lia.
    + destruct (decide (a = j /\ b = i)) as [[-> ->]|Hji].
      * rewrite decide_True by lia.
        by rewrite Nat.max_r, Nat.min_l by lia.
      * f_equal. repeat case_decide; (done || lia).
Qed.

(** the correlation matrix after the rows below [i] *)
Lemma correlationRows_spec (cIdx' : list nat) (i : nat) :
  i <= length cIdx' ->
  squareMatrix (length cIdx')
    (foldl (correlationRow cam_ cIdx')
           (replicate (length cIdx') (replicate (length cIdx') rone)) (seq 0 i)) /\
  forall a b, a < length cIdx' -> b < length cIdx' ->
    matrixGet (foldl (correlationRow cam_ cIdx')
                 (replicate (length cIdx') (replicate (length cIdx') rone)) (seq 0 i)) a b =
    Some (if decide (a <> b /\ a `max` b < i)
          then correlation cam_ (cIdx' !!! (a `max` b)) (cIdx' !!! (a `min` b))
          else rone).
Proof.
  intros Hi. induction i as [|i IH].
  - simpl. split.
    + split; [by rewrite length_replicate|].
      apply Forall_replicate. by rewrite length_replicate.
    + intros a b Ha Hb. unfold matrixGet.
      rewrite lookup_replicate_2 by done. simpl. rewrite lookup_replicate_2 by done.
      by rewrite decide_False by lia.
  - destruct IH as [Hsq Hget]; [lia|].
    rewrite seq_S, foldl_app. cbn [foldl Nat.add].
    destruct (correlationRow_spec cIdx' _ i i ltac:(lia) ltac:(lia) Hsq Hget)
      as [Hsq' Hget'].
    split; [exact Hsq'|]. intros a b Ha Hb.
    etransitivity; [exact (Hget' a b Ha Hb)|].
    f_equal. repeat case_decide; (done || lia).
Qed.

(** X22.  The correlation matrix handed to the projected model is square,
    with one row for each external model index; it has ones on the
    diagonal, it is symmetric, and below the diagonal its entry in the row
    [a] and the column [b] is the correlation the model gives for the
    [a]-th and the [b]-th of the sorted correlation indices of the
    components kept. *)
Theorem builder_correlation_matrix (forCcy' domCcy' : Currency)
    (eng : McCamFxForwardEngine Real Parameters) (a b : nat) :
  engineImpl cam_ simulationDates_ engineParameters forCcy' domCcy' = Ok eng ->
  a < length (externalModelIndices eng) -> b < length (externalModelIndices eng) ->
  squareMatrix (length (externalModelIndices eng)) (corr eng) /\
  matrixGet (corr eng) a a = Some rone /\
  matrixGet (corr eng) a b = matrixGet (corr eng) b a /\
  (b < a ->
   matrixGet (corr eng) a b =
     Some (correlation cam_
             (merge_sort le (collectedCIdx (collect cam_ forCcy' domCcy')) !!! a)
             (merge_sort le (collectedCIdx (collect cam_ forCcy' domCcy')) !!! b))).
Proof.
  intros Himpl Ha Hb.
  apply engineImpl_Ok in Himpl as (_ & _ & _ & _ & -> & Hlen).
  assert (length (merge_sort le (collectedCIdx (collect cam_ forCcy' domCcy'))) =
          length (externalModelIndices eng)) as Hlen'
    by (by rewrite merge_sort_Permutation).
  unfold correlationMatrix.
  destruct (correlationRows_spec
              (merge_sort le (collectedCIdx (collect cam_ forCcy' domCcy')))
              (length (merge_sort le (collectedCIdx (collect cam_ forCcy' domCcy')))))
    as [Hsq Hget]; [lia|].
  rewrite Hlen' in Hsq at 1. split; [exact Hsq|].
  rewrite !Hget by lia. split; [by rewrite decide_False by lia|]. split.
  - f_equal. rewrite (Nat.max_comm b a), (Nat.min_comm b a).
    repeat case_decide; (done || lia).
  - intros Hba. rewrite decide_True by lia. by rewrite Nat.max_l, Nat.min_r by lia.
Qed.
End BuilderFacts.

(** *** The engine builder: the statements at work *)

Lemma builder_external_model_indices_witness :
  "EUR"%string <> "GBP"%string /\
  CamAmcFxForwardEngineBuilder.lgm engineGbpEur =
    filter (fun i => CamAmcFxForwardEngineBuilder.kept Q_Cam "GBP"%string "EUR"%string i = true)
           (seq 0 (CamAmcFxForwardEngineBuilder.components Q_Cam IR)) /\
  CamAmcFxForwardEngineBuilder.fx engineGbpEur =
    (fun i => i - 1) <$> filter (fun i => 0 < i) (CamAmcFxForwardEngineBuilder.lgm engineGbpEur) /\
  Sorted le (CamAmcFxForwardEngineBuilder.externalModelIndices engineGbpEur) /\
  CamAmcFxForwardEngineBuilder.externalModelIndices engineGbpEur
    ≡ₚ (CamAmcFxForwardEngineBuilder.pIdx Q_Cam IR
          <$> CamAmcFxForwardEngineBuilder.lgm engineGbpEur) ++
       (CamAmcFxForwardEngineBuilder.pIdx Q_Cam FX
          <$> CamAmcFxForwardEngineBuilder.fx engineGbpEur) /\
  length (CamAmcFxForwardEngineBuilder.externalModelIndices engineGbpEur) =
    length (CamAmcFxForwardEngineBuilder.lgm engineGbpEur) +
    length (CamAmcFxForwardEngineBuilder.fx engineGbpEur) /\
  CamAmcFxForwardEngineBuilder.simulationDates engineGbpEur = [180%Z].
Proof.
  refine (builder_external_model_indices Q_Cam [180%Z] (Ok tt) "GBP"%string "EUR"%string engineGbpEur _).
  vm_compute. reflexivity.
Defined.

Lemma builder_indices_follow_projection_witness :
  CamAmcFxForwardEngineBuilder.externalModelIndices engineGbpEur =
    (CamAmcFxForwardEngineBuilder.pIdx Q_Cam IR
       <$> CamAmcFxForwardEngineBuilder.lgm engineGbpEur) ++
    (CamAmcFxForwardEngineBuilder.pIdx Q_Cam FX
       <$> CamAmcFxForwardEngineBuilder.fx engineGbpEur).
Proof.
  refine (builder_indices_follow_projection Q_Cam [180%Z] (Ok tt) "GBP"%string "EUR"%string engineGbpEur
            _ _ _ _).
  - intros i j Hij. simpl. lia.
  - intros i j Hij. simpl. lia.
  - intros i j Hi. simpl in *. lia.
  - vm_compute. reflexivity.
Defined.

Lemma builder_correlation_matrix_witness :
  CamAmcFxForwardEngineBuilder.squareMatrix
    (length (CamAmcFxForwardEngineBuilder.externalModelIndices engineGbpEur))
    (CamAmcFxForwardEngineBuilder.corr engineGbpEur) /\
  CamAmcFxForwardEngineBuilder.matrixGet (CamAmcFxForwardEngineBuilder.corr engineGbpEur) 2 2 =
    Some rone /\
  CamAmcFxForwardEngineBuilder.matrixGet (CamAmcFxForwardEngineBuilder.corr engineGbpEur) 2 1 =
    CamAmcFxForwardEngineBuilder.matrixGet (CamAmcFxForwardEngineBuilder.corr engineGbpEur) 1 2 /\
  (1 < 2 ->
   CamAmcFxForwardEngineBuilder.matrixGet (CamAmcFxForwardEngineBuilder.corr engineGbpEur) 2 1 =
     Some (CamAmcFxForwardEngineBuilder.correlation Q_Cam
             (merge_sort le
                (CamAmcFxForwardEngineBuilder.collectedCIdx
                   (CamAmcFxForwardEngineBuilder.collect Q_Cam "GBP"%string "EUR"%string)) !!! 2)
             (merge_sort le
                (CamAmcFxForwardEngineBuilder.collectedCIdx
                   (CamAmcFxForwardEngineBuilder.collect Q_Cam "GBP"%string "EUR"%string)) !!! 1))).
Proof.
  refine (builder_correlation_matrix Q_Cam [180%Z] (Ok tt) "GBP"%string "EUR"%string engineGbpEur 2 1
            _ _ _).
  - vm_compute. reflexivity.
  - simpl. lia.
  - simpl. lia.
Defined.
